(** * go-ticketing-analysis: the reservation server and the load-test client

    A shallow embedding of [ticketing-be/main.go] (the reservation server),
    of its logging variant and of the load-test client, together with the
    properties of the reservation protocol and of the measurement harness.

    The MySQL database and the HTTP stack are outside the repository.  The
    [seats] table is modelled as the list of its rows, the calls the Go code
    makes on [database/sql] as the constructors of a small program type
    [Prog], and the failures of those calls as an oracle [Faults].  Two
    interpreters give the programs their meaning: [run], which executes one
    handler alone, and [step], which interleaves several handlers under the
    row locks taken by [SELECT ... FOR UPDATE].

    Conventions.  Seat and user ids are integers of [Z]; the Go [int] and
    the MySQL [INT] that carry them do not wrap in the range the program
    uses (initSeats is called with 10000).  A database in which the seats
    table does not exist yet is the empty table: [main] creates the table
    before it serves any request.  The statuses the program writes are the
    two literals "available" and "reserved", compared as strings.  Sums and
    counters of the load-test client are 64-bit and wrap ([wrap64]). *)

From Stdlib Require Import ZArith String List Lia Permutation Sorted.
From stdpp Require Import base tactics option list list_numbers gmap strings sorting pretty.

Local Open Scope string_scope.
Local Open Scope list_scope.
Local Open Scope Z_scope.

(** ** The seats table *)

(** One row of
    [CREATE TABLE seats (seat_id INT PRIMARY KEY,
                         status VARCHAR(20) NOT NULL DEFAULT 'available',
                         user_id INT)]. *)
Record SeatRow : Type := mkSeatRow {
  seat_id : Z;
  status : string;
  user_id : option Z
}.

#[global] Instance SeatRow_eq_dec : EqDecision SeatRow.
Proof. solve_decision. Defined.

(** The row [WHERE seat_id = id] selects. *)
Definition find_row (id : Z) (t : list SeatRow) : option SeatRow :=
  List.find (fun r => bool_decide (seat_id r = id)) t.

(** [UPDATE seats SET status = 'reserved', user_id = ? WHERE seat_id = ?] *)
Definition sql_update_reserve (user seat : Z) (t : list SeatRow) : list SeatRow :=
  List.map (fun r => if bool_decide (seat_id r = seat)
                     then mkSeatRow (seat_id r) "reserved" (Some user)
                     else r) t.

(** [INSERT IGNORE INTO seats (seat_id) VALUES (?)]: a row whose key is
    already present is left alone, a new row takes the column defaults. *)
Definition sql_insert_ignore (seat : Z) (t : list SeatRow) : list SeatRow :=
  match find_row seat t with
  | Some _ => t
  | None => t ++ [mkSeatRow seat "available" None]
  end.

(** [SELECT seat_id FROM seats WHERE status = 'available' ORDER BY seat_id]
    with an optional [LIMIT]. *)
Definition sql_select_available (limit : option nat) (t : list SeatRow) : list Z :=
  let ids := merge_sort Z.le
               (List.map seat_id (List.filter (fun r => bool_decide (status r = "available")) t)) in
  match limit with
  | Some n => take n ids
  | None => ids
  end.

(** The primary key: no two rows share a [seat_id]. *)
Definition primary_key (t : list SeatRow) : Prop := NoDup (List.map seat_id t).

(** ** Calls on the database and their failures *)

Inductive DbCall : Type :=
| CBegin
| CSelectForUpdate (seat : Z)
| CUpdate (user seat : Z)
| CCommit
| CRollback
| CSelectAvailable (limit : option nat)
| CCreateTable
| CInsertIgnore (seat : Z).

(** A Go [error] returned by the driver: [None] is [nil]. *)
Definition error : Type := option string.

(** The oracle of infrastructure failures: the error a call returns, if it
    fails. *)
Definition Faults : Type := DbCall -> error.

Definition no_faults : Faults := fun _ => None.

(** The result of [tx.QueryRow(...).Scan(&status)]. *)
Inductive ScanResult : Type :=
| Scanned (st : string)
| ErrNoRows
| ScanErr (e : string).

(** The result of [db.Query(...)] followed by the [rows.Next] loop.  The
    only column read is [seat_id], an [INT PRIMARY KEY] scanned into an
    [int], so [rows.Scan] does not fail and every row is appended. *)
Inductive QueryResult : Type :=
| QueryErr (e : string)
| QueryRows (ids : list Z).

(** ** HTTP requests and responses *)

Record TicketRequest : Type := mkTicketRequest {
  UserID : Z;
  SeatID : Z
}.

Record Request : Type := mkRequest {
  header_content_type : string;   (* r.Header.Get("Content-Type") *)
  request_body : string
}.

(** The result of [json.NewDecoder(r.Body).Decode(&req)]. *)
Inductive DecodeResult : Type :=
| DecodeErr (e : string)
| Decoded (req : TicketRequest).

Inductive json : Type :=
| JNull
| JInts (l : list Z)
| JObject (fields : list (string * string)).

Inductive Body : Type :=
| Text (line : string)     (* fmt.Fprintln(w, line) *)
| Json (v : json).         (* json.NewEncoder(w).Encode(v) *)

Record Response : Type := mkResponse {
  code : Z;
  content_type : string;
  body : Body
}.

#[global] Instance json_eq_dec : EqDecision json.
Proof. solve_decision. Defined.

#[global] Instance Body_eq_dec : EqDecision Body.
Proof. solve_decision. Defined.

#[global] Instance Response_eq_dec : EqDecision Response.
Proof. solve_decision. Defined.

Definition StatusOK : Z := 200.
Definition StatusBadRequest : Z := 400.
Definition StatusNotFound : Z := 404.
Definition StatusConflict : Z := 409.
Definition StatusUnsupportedMediaType : Z := 415.
Definition StatusInternalServerError : Z := 500.

(** [http.Error(w, msg, code)] *)
Definition http_Error (msg : string) (c : Z) : Response :=
  mkResponse c "text/plain; charset=utf-8" (Text msg).

(** [w.Header().Set("Content-Type", "application/json")] followed by
    [json.NewEncoder(w).Encode(v)]; the status defaults to 200. *)
Definition json_OK (v : json) : Response :=
  mkResponse StatusOK "application/json" (Json v).

(** A Go [[]int]: [None] is the nil slice. *)
Definition int_slice : Type := option (list Z).

Definition go_append (s : int_slice) (x : Z) : int_slice :=
  match s with
  | None => Some [x]
  | Some l => Some (l ++ [x])
  end.

(** [encoding/json] writes a nil slice as [null]. *)
Definition encode_int_slice (s : int_slice) : json :=
  match s with
  | None => JNull
  | Some l => JInts l
  end.

(** ** Log lines *)

Record LogEntry : Type := mkLogEntry {
  Level : string;
  Action : string;
  LogUserID : Z;
  LogSeatID : Z;
  LogStatus : string;
  LogError : error
}.

Inductive LogLine : Type :=
| Printf (msg : string)       (* log.Printf *)
| LogJSON (entry : LogEntry). (* logJSON *)

(** ** Handler programs *)

(** The database calls of a handler, in the order the Go code makes them.
    Each continuation receives what the call returned. *)
Inductive Prog (A : Type) : Type :=
| Ret (a : A)
| Log (line : LogLine) (k : Prog A)
| Defer_Rollback (k : Prog A)                               (* defer tx.Rollback() *)
| Tx_Begin (k : error -> Prog A)                            (* db.Begin() *)
| Tx_QueryRow_Status (seat : Z) (k : ScanResult -> Prog A)  (* SELECT ... FOR UPDATE *)
| Tx_Exec_Reserve (user seat : Z) (k : error -> Prog A)     (* UPDATE ... *)
| Tx_Commit (k : error -> Prog A)                           (* tx.Commit() *)
| Db_Query_Available (limit : option nat) (k : QueryResult -> Prog A)
| Db_Exec_CreateTable (k : error -> Prog A)
| Db_Exec_InsertIgnore (seat : Z) (k : error -> Prog A).

Arguments Ret {A} a.
Arguments Log {A} line k.
Arguments Defer_Rollback {A} k.
Arguments Tx_Begin {A} k.
Arguments Tx_QueryRow_Status {A} seat k.
Arguments Tx_Exec_Reserve {A} user seat k.
Arguments Tx_Commit {A} k.
Arguments Db_Query_Available {A} limit k.
Arguments Db_Exec_CreateTable {A} k.
Arguments Db_Exec_InsertIgnore {A} seat k.

Definition internal_server_error : Response :=
  http_Error "internal server error" StatusInternalServerError.

Definition reservation_successful : Response :=
  json_OK (JObject [("message", "Reservation successful")]).

Module Server.

(** [availableSeatsHandler] of ticketing-be/main.go. *)
Definition availableSeatsHandler : Prog Response :=
  Db_Query_Available (Some 100%nat) (fun res =>
    match res with
    | QueryErr e =>
        Log (Printf ("DB error in availableSeatsHandler: " +:+ e))
          (Ret internal_server_error)
    | QueryRows ids =>
        let seats := fold_left go_append ids None in
        Ret (json_OK (encode_int_slice seats))
    end).

Section Handler.

(** [encoding/json]'s decoder at type [TicketRequest]. *)
Variable json_decode : string -> DecodeResult.

(** [reserveHandler] of ticketing-be/main.go. *)
Definition reserveHandler (r : Request) : Prog Response :=
  if negb (String.prefix "application/json" (header_content_type r)) then
    Ret (http_Error "Content-Type must be application/json" StatusUnsupportedMediaType)
  else
    match json_decode (request_body r) with
    | DecodeErr _ => Ret (http_Error "Invalid JSON" StatusBadRequest)
    | Decoded req =>
      Tx_Begin (fun err =>
        match err with
        | Some e => Log (Printf ("DB begin error: " +:+ e)) (Ret internal_server_error)
        | None =>
          Defer_Rollback
            (Tx_QueryRow_Status (SeatID req) (fun res =>
               match res with
               | ErrNoRows => Ret (http_Error "Seat not found" StatusNotFound)
               | ScanErr e =>
                   Log (Printf ("DB select error: " +:+ e)) (Ret internal_server_error)
               | Scanned st =>
                 if negb (String.eqb st "available") then
                   Ret (http_Error "Seat already reserved" StatusConflict)
                 else
                   Tx_Exec_Reserve (UserID req) (SeatID req) (fun err =>
                     match err with
                     | Some e =>
                         Log (Printf ("DB update error: " +:+ e)) (Ret internal_server_error)
                     | None =>
                       Tx_Commit (fun err =>
                         match err with
                         | Some e =>
                             Log (Printf ("DB commit error: " +:+ e))
                               (Ret internal_server_error)
                         | None => Ret reservation_successful
                         end)
                     end)
               end))
        end)
    end.

End Handler.

(** The [for i := 1; i <= total; i++] loop of [initSeats], over the ids
    1..total ([total] below the largest [int], where [i++] does not wrap); a
    failed insert is logged and the loop goes on. *)
Fixpoint insert_seats (ids : list Z) (k : Prog error) : Prog error :=
  match ids with
  | [] => k
  | i :: rest =>
      Db_Exec_InsertIgnore i (fun err =>
        match err with
        | Some e =>
            Log (Printf ("Insert seat " +:+ pretty i +:+ " failed: " +:+ e))
              (insert_seats rest k)
        | None => insert_seats rest k
        end)
  end.

(** [initSeats] of ticketing-be/main.go. *)
Definition initSeats (total : Z) : Prog error :=
  Db_Exec_CreateTable (fun err =>
    match err with
    | Some e => Ret (Some e)
    | None => insert_seats (seqZ 1 total) (Ret None)
    end).

End Server.

Module LoggingServer.

(** [availableSeatsHandler] of the logging variant: no [LIMIT]. *)
Definition availableSeatsHandler : Prog Response :=
  Db_Query_Available None (fun res =>
    match res with
    | QueryErr e =>
        Log (LogJSON (mkLogEntry "ERROR" "available_seats" 0 0 "query_fail" (Some e)))
          (Ret internal_server_error)
    | QueryRows ids =>
        let seats := fold_left go_append ids None in
        Log (LogJSON (mkLogEntry "INFO" "available_seats" 0 0
                        ("count=" +:+ pretty (Z.of_nat (length ids))) None))
          (Ret (json_OK (encode_int_slice seats)))
    end).

Section Handler.

Variable json_decode : string -> DecodeResult.

Definition logJSON (level action : string) (userID seatID : Z) (st : string) (err : error)
    {A} (k : Prog A) : Prog A :=
  Log (LogJSON (mkLogEntry level action userID seatID st err)) k.

(** [reserveHandler] of the logging variant. *)
Definition reserveHandler (r : Request) : Prog Response :=
  if negb (String.prefix "application/json" (header_content_type r)) then
    logJSON "WARN" "reserve" 0 0 "bad_content_type" None
      (Ret (http_Error "Content-Type must be application/json" StatusUnsupportedMediaType))
  else
    match json_decode (request_body r) with
    | DecodeErr e =>
        logJSON "ERROR" "reserve" 0 0 "invalid_json" (Some e)
          (Ret (http_Error "Invalid JSON" StatusBadRequest))
    | Decoded req =>
      Tx_Begin (fun err =>
        match err with
        | Some e =>
            logJSON "ERROR" "reserve" (UserID req) (SeatID req) "tx_begin_fail" (Some e)
              (Ret internal_server_error)
        | None =>
          Defer_Rollback
            (Tx_QueryRow_Status (SeatID req) (fun res =>
               match res with
               | ErrNoRows =>
                   logJSON "WARN" "reserve" (UserID req) (SeatID req) "seat_not_found" None
                     (Ret (http_Error "Seat not found" StatusNotFound))
               | ScanErr e =>
                   logJSON "ERROR" "reserve" (UserID req) (SeatID req) "select_fail" (Some e)
                     (Ret internal_server_error)
               | Scanned st =>
                 if negb (String.eqb st "available") then
                   logJSON "INFO" "reserve" (UserID req) (SeatID req) "seat_conflict" None
                     (Ret (http_Error "Seat already reserved" StatusConflict))
                 else
                   Tx_Exec_Reserve (UserID req) (SeatID req) (fun err =>
                     match err with
                     | Some e =>
                         logJSON "ERROR" "reserve" (UserID req) (SeatID req) "update_fail"
                           (Some e) (Ret internal_server_error)
                     | None =>
                       Tx_Commit (fun err =>
                         match err with
                         | Some e =>
                             logJSON "ERROR" "reserve" (UserID req) (SeatID req)
                               "commit_fail" (Some e) (Ret internal_server_error)
                         | None =>
                             logJSON "INFO" "reserve" (UserID req) (SeatID req) "success" None
                               (Ret reservation_successful)
                         end)
                     end)
               end))
        end)
    end.

End Handler.

End LoggingServer.

(** ** One handler alone: the sequential interpreter *)

(** A [*sql.Tx]: not begun, open with its uncommitted updates (user, seat),
    or finished by a commit or a rollback. *)
Inductive TxState : Type :=
| NoTx
| TxOpen (writes : list (Z * Z))
| TxDone.

(** The updates of a transaction applied to the committed rows. *)
Definition apply_writes (ws : list (Z * Z)) (t : list SeatRow) : list SeatRow :=
  fold_left (fun t w => sql_update_reserve (fst w) (snd w) t) ws t.

Definition tx_done_msg : string :=
  "sql: transaction has already been committed or rolled back".

(** What a locking read of [seat] returns inside transaction [tx]. *)
Definition scan_status (tx : TxState) (seat : Z) (t : list SeatRow) : ScanResult :=
  match tx with
  | TxOpen ws =>
      match find_row seat (apply_writes ws t) with
      | Some r => Scanned (status r)
      | None => ErrNoRows
      end
  | _ => ScanErr tx_done_msg
  end.

Record Conn : Type := mkConn {
  table : list SeatRow;      (* the committed rows *)
  txn : TxState;
  deferred : bool;           (* a Rollback is deferred *)
  logged : list LogLine;
  issued : list DbCall       (* the calls that reached the database *)
}.

Definition connect (t : list SeatRow) : Conn := mkConn t NoTx false [] [].

Definition issue (c : DbCall) (s : Conn) : Conn :=
  mkConn (table s) (txn s) (deferred s) (logged s) (issued s ++ [c]).

Definition set_txn (tx : TxState) (s : Conn) : Conn :=
  mkConn (table s) tx (deferred s) (logged s) (issued s).

Definition set_table (t : list SeatRow) (s : Conn) : Conn :=
  mkConn t (txn s) (deferred s) (logged s) (issued s).

Definition set_deferred (s : Conn) : Conn :=
  mkConn (table s) (txn s) true (logged s) (issued s).

Definition add_log (l : LogLine) (s : Conn) : Conn :=
  mkConn (table s) (txn s) (deferred s) (logged s ++ [l]) (issued s).

(** The deferred [tx.Rollback()] at function exit: on an open transaction
    it discards the updates, on a finished one it returns [ErrTxDone]
    without reaching the database. *)
Definition run_deferred (s : Conn) : Conn :=
  if deferred s then
    match txn s with
    | TxOpen _ => set_txn TxDone (issue CRollback s)
    | _ => s
    end
  else s.

Fixpoint run {A} (f : Faults) (p : Prog A) (s : Conn) : A * Conn :=
  match p with
  | Ret a => (a, run_deferred s)
  | Log l k => run f k (add_log l s)
  | Defer_Rollback k => run f k (set_deferred s)
  | Tx_Begin k =>
      let s := issue CBegin s in
      match f CBegin with
      | Some e => run f (k (Some e)) s
      | None => run f (k None) (set_txn (TxOpen []) s)
      end
  | Tx_QueryRow_Status seat k =>
      let s := issue (CSelectForUpdate seat) s in
      match f (CSelectForUpdate seat) with
      | Some e => run f (k (ScanErr e)) s
      | None => run f (k (scan_status (txn s) seat (table s))) s
      end
  | Tx_Exec_Reserve user seat k =>
      let s := issue (CUpdate user seat) s in
      match f (CUpdate user seat) with
      | Some e => run f (k (Some e)) s
      | None =>
          match txn s with
          | TxOpen ws => run f (k None) (set_txn (TxOpen (ws ++ [(user, seat)])) s)
          | _ => run f (k (Some tx_done_msg)) s
          end
      end
  | Tx_Commit k =>
      match txn s with
      | TxOpen ws =>
          let s := issue CCommit s in
          match f CCommit with
          | Some e => run f (k (Some e)) (set_txn TxDone s)
          | None => run f (k None) (set_txn TxDone (set_table (apply_writes ws (table s)) s))
          end
      | _ => run f (k (Some tx_done_msg)) s
      end
  | Db_Query_Available limit k =>
      let s := issue (CSelectAvailable limit) s in
      match f (CSelectAvailable limit) with
      | Some e => run f (k (QueryErr e)) s
      | None => run f (k (QueryRows (sql_select_available limit (table s)))) s
      end
  | Db_Exec_CreateTable k =>
      let s := issue CCreateTable s in
      run f (k (f CCreateTable)) s
  | Db_Exec_InsertIgnore seat k =>
      let s := issue (CInsertIgnore seat) s in
      match f (CInsertIgnore seat) with
      | Some e => run f (k (Some e)) s
      | None => run f (k None) (set_table (sql_insert_ignore seat (table s)) s)
      end
  end.

(** A handler served on a fresh connection: what it returns and the rows it
    leaves. *)
Definition serve {A} (f : Faults) (p : Prog A) (t : list SeatRow) : A * list SeatRow :=
  let r := run f p (connect t) in (fst r, table (snd r)).

(** The database calls a handler makes when served on a fresh connection. *)
Definition calls_of {A} (f : Faults) (p : Prog A) (t : list SeatRow) : list DbCall :=
  issued (snd (run f p (connect t))).

(** [strings.HasPrefix(r.Header.Get("Content-Type"), "application/json")] *)
Definition accepts_json (r : Request) : bool :=
  String.prefix "application/json" (header_content_type r).

(** Some database call among [cs] fails under the oracle [f]; the deferred
    rollback does not count, the handler drops its result. *)
Definition some_call_failed (f : Faults) (cs : list DbCall) : Prop :=
  exists c, In c cs /\ c <> CRollback /\ f c <> None.

(** Two programs that make the same database calls and return the same
    value, and differ at most in the lines they log. *)
Inductive same_but_logs {A} : Prog A -> Prog A -> Prop :=
| sbl_Ret a : same_but_logs (Ret a) (Ret a)
| sbl_Log_l l p q : same_but_logs p q -> same_but_logs (Log l p) q
| sbl_Log_r l p q : same_but_logs p q -> same_but_logs p (Log l q)
| sbl_Defer p q : same_but_logs p q -> same_but_logs (Defer_Rollback p) (Defer_Rollback q)
| sbl_Begin k k' :
    (forall e, same_but_logs (k e) (k' e)) -> same_but_logs (Tx_Begin k) (Tx_Begin k')
| sbl_QueryRow seat k k' :
    (forall x, same_but_logs (k x) (k' x)) ->
    same_but_logs (Tx_QueryRow_Status seat k) (Tx_QueryRow_Status seat k')
| sbl_Exec user seat k k' :
    (forall e, same_but_logs (k e) (k' e)) ->
    same_but_logs (Tx_Exec_Reserve user seat k) (Tx_Exec_Reserve user seat k')
| sbl_Commit k k' :
    (forall e, same_but_logs (k e) (k' e)) -> same_but_logs (Tx_Commit k) (Tx_Commit k')
| sbl_Query limit k k' :
    (forall x, same_but_logs (k x) (k' x)) ->
    same_but_logs (Db_Query_Available limit k) (Db_Query_Available limit k')
| sbl_Create k k' :
    (forall e, same_but_logs (k e) (k' e)) ->
    same_but_logs (Db_Exec_CreateTable k) (Db_Exec_CreateTable k')
| sbl_Insert seat k k' :
    (forall e, same_but_logs (k e) (k' e)) ->
    same_but_logs (Db_Exec_InsertIgnore seat k) (Db_Exec_InsertIgnore seat k').

(** Two connections that agree on everything but the log. *)
Definition same_store (s s' : Conn) : Prop :=
  table s = table s' /\ txn s = txn s' /\ deferred s = deferred s' /\ issued s = issued s'.

(** ** The store under a sequence of operations *)

(** The operations that reach the seats table, each with the failures the
    database shows it. *)
Inductive StoreOp : Type :=
| OpReserve (f : Faults) (r : Request)
| OpListAvailable (f : Faults)
| OpInitSeats (f : Faults) (total : Z).

Section Store.

Variable json_decode : string -> DecodeResult.

Definition apply_op (op : StoreOp) (t : list SeatRow) : list SeatRow :=
  match op with
  | OpReserve f r => snd (serve f (Server.reserveHandler json_decode r) t)
  | OpListAvailable f => snd (serve f Server.availableSeatsHandler t)
  | OpInitSeats f total => snd (serve f (Server.initSeats total) t)
  end.

Definition apply_ops (ops : list StoreOp) (t : list SeatRow) : list SeatRow :=
  fold_left (fun t op => apply_op op t) ops t.

End Store.

(** A row has an owner exactly when it is reserved. *)
Definition owner_iff_reserved (t : list SeatRow) : Prop :=
  Forall (fun row => is_Some (user_id row) <-> status row = "reserved") t.

(** The rows the insert loop of [initSeats] leaves: the inserts that fail
    are skipped. *)
Definition inserted (f : Faults) (ids : list Z) (t : list SeatRow) : list SeatRow :=
  fold_left (fun t i => match f (CInsertIgnore i) with
                        | Some _ => t
                        | None => sql_insert_ignore i t
                        end) ids t.

(** The ascending list of the ids of the available seats. *)
Definition available_ids (t : list SeatRow) : list Z :=
  merge_sort Z.le (List.map seat_id (List.filter (fun r => bool_decide (status r = "available")) t)).

(** The table a first, failure-free [initSeats n] creates in an empty
    database. *)
Definition fresh_pool (n : Z) : list SeatRow :=
  snd (serve no_faults (Server.initSeats n) []).

(** ** The load-test client *)

Module Client.

Definition SeatList : Type := list Z.

Record ReserveRequest : Type := mkReserveRequest {
  UserID : Z;
  SeatID : Z
}.

(** [Duration] is a [time.Duration], in nanoseconds. *)
Record Result : Type := mkResult {
  StatusCode : Z;
  Duration : Z;
  Err : error
}.

Definition concurrentClients : Z := 5000.

(** Go's [int] and [time.Duration] are 64-bit signed integers. *)
Definition wrap64 (z : Z) : Z := (z + 2^63) mod 2^64 - 2^63.

(** What [client.Post] returns, and the time it took. *)
Inductive PostReply : Type :=
| PostErr (e : string)       (* no response: a timeout, a refused connection *)
| PostResp (status : Z).

Record PostOutcome : Type := mkPostOutcome {
  reply : PostReply;
  elapsed : Z                  (* time.Since(start) *)
}.

(** One round of the client's loop as the network and the random source
    present it. *)
Record Round : Type := mkRound {
  fetchAvailableSeats : option SeatList;   (* None: the GET or the decoding failed *)
  shuffle : list Z -> list Z;              (* the order rand.Shuffle leaves *)
  post : ReserveRequest -> PostOutcome     (* client.Post for a reservation *)
}.

Definition tryReserve (post : ReserveRequest -> PostOutcome) (req : ReserveRequest) : Result :=
  let o := post req in
  match reply o with
  | PostErr e => mkResult 0 (elapsed o) (Some e)
  | PostResp sc => mkResult sc (elapsed o) None
  end.

(** The test [result.Err != nil || result.Duration == 0]. *)
Definition dropped (r : Result) : bool :=
  match Err r with
  | Some _ => true
  | None => Duration r =? 0
  end.

(** The inner loop of [simulateClient], over the at most 3 first seats. *)
Fixpoint attempts (userID : Z) (post : ReserveRequest -> PostOutcome)
    (seats : list Z) (currentResults : list Result) : list Result :=
  match seats with
  | [] => currentResults
  | seatID :: rest =>
      let result := tryReserve post (mkReserveRequest userID seatID) in
      if dropped result then
        attempts userID post rest currentResults            (* continue *)
      else
        let currentResults := currentResults ++ [result] in
        if StatusCode result =? 200 then currentResults     (* break *)
        else attempts userID post rest currentResults       (* after time.Sleep *)
  end.

(** The outer loop of [simulateClient], over the rounds the environment
    presents; [None] when the rounds run out before the seat list comes back
    empty, that is when the client is still looping. *)
Fixpoint client_loop (userID : Z) (rounds : list Round) (currentResults : list Result)
    : option (list Result) :=
  match rounds with
  | [] => None
  | rd :: rest =>
      match fetchAvailableSeats rd with
      | None => client_loop userID rest currentResults      (* continue *)
      | Some seats =>
          if (length seats =? 0)%nat then Some currentResults   (* break *)
          else client_loop userID rest
                 (attempts userID (post rd) (take 3 (shuffle rd seats)) currentResults)
      end
  end.

Definition no_request_succeeded (userID : Z) : Result :=
  mkResult 0 0 (Some ("user " +:+ pretty userID +:+ ": no request succeeded")).

(** [simulateClient]: the slice it sends on the results channel. *)
Definition simulateClient (userID : Z) (rounds : list Round) : option (list Result) :=
  match client_loop userID rounds [] with
  | None => None
  | Some currentResults =>
      if (length currentResults =? 0)%nat
      then Some (currentResults ++ [no_request_succeeded userID])
      else Some currentResults
  end.


(** The variables of [main] after the channel is drained. *)
Record Stats : Type := mkStats {
  successCount : Z;
  successTotalRTT : Z;
  failCount : Z;
  failTotalRTT : Z;
  requestFailCount : Z;
  allResults : list Result
}.

Definition zero_stats : Stats := mkStats 0 0 0 0 0 [].

(** The body of the inner [for _, r := range rr] loop of [main]. *)
Definition tally (st : Stats) (r : Result) : Stats :=
  let all := allResults st ++ [r] in
  if Duration r =? 0 then
    mkStats (successCount st) (successTotalRTT st) (failCount st) (failTotalRTT st)
            (wrap64 (requestFailCount st + 1)) all
  else if StatusCode r =? 200 then
    mkStats (wrap64 (successCount st + 1)) (wrap64 (successTotalRTT st + Duration r))
            (failCount st) (failTotalRTT st) (requestFailCount st) all
  else
    mkStats (successCount st) (successTotalRTT st)
            (wrap64 (failCount st + 1)) (wrap64 (failTotalRTT st + Duration r))
            (requestFailCount st) all.

(** [for rr := range results { for _, r := range rr { ... } }] *)
Definition aggregate (results : list (list Result)) : Stats :=
  fold_left (fun st rr => fold_left tally rr st) results zero_stats.

(** The three classes of the report. *)
Inductive Class : Type :=
| RequestFailure
| ReservationSuccess
| ReservationRejected.

#[global] Instance Class_eq_dec : EqDecision Class.
Proof. solve_decision. Defined.

(** The class of a result in the words of the report: no latency recorded,
    a response with status 200, a response with another status. *)
Definition classify (r : Result) : Class :=
  if bool_decide (Duration r = 0) then RequestFailure
  else if bool_decide (StatusCode r = 200) then ReservationSuccess
  else ReservationRejected.

Definition of_class (c : Class) (rs : list Result) : list Result :=
  List.filter (fun r => bool_decide (classify r = c)) rs.

Definition total_latency (rs : list Result) : Z :=
  fold_right Z.add 0 (List.map Duration rs).

(** The average the report would print: the code that computes it is
    commented out in [main]. *)
Definition guarded_average (total count : Z) : Z :=
  if 0 <? count then total ÷ count else 0.

(** Every result [tryReserve] returned to a client, dropped or not, in
    order. *)
Fixpoint attempts_made (userID : Z) (post : ReserveRequest -> PostOutcome)
    (seats : list Z) : list Result :=
  match seats with
  | [] => []
  | seatID :: rest =>
      let result := tryReserve post (mkReserveRequest userID seatID) in
      if dropped result then result :: attempts_made userID post rest
      else if StatusCode result =? 200 then [result]
      else result :: attempts_made userID post rest
  end.

Fixpoint all_attempts (userID : Z) (rounds : list Round) : list Result :=
  match rounds with
  | [] => []
  | rd :: rest =>
      match fetchAvailableSeats rd with
      | None => all_attempts userID rest
      | Some seats =>
          if (length seats =? 0)%nat then []
          else attempts_made userID (post rd) (take 3 (shuffle rd seats))
                 ++ all_attempts userID rest
      end
  end.

(** What [main] holds after it has consumed the results [rs]. *)
Definition tallied (st : Stats) (rs : list Result) : Prop :=
  allResults st = rs /\
  requestFailCount st = wrap64 (Z.of_nat (length (of_class RequestFailure rs))) /\
  successCount st = wrap64 (Z.of_nat (length (of_class ReservationSuccess rs))) /\
  successTotalRTT st = wrap64 (total_latency (of_class ReservationSuccess rs)) /\
  failCount st = wrap64 (Z.of_nat (length (of_class ReservationRejected rs))) /\
  failTotalRTT st = wrap64 (total_latency (of_class ReservationRejected rs)).

End Client.

(** The attempts of a client that enter its results: those with a response
    and a non-zero duration. *)
Definition kept_attempts (userID : Z) (rounds : list Client.Round) : list Client.Result :=
  List.filter (fun r => negb (Client.dropped r)) (Client.all_attempts userID rounds).


(** ** Several handlers at once *)

(** A handler in flight: the rest of its program, its transaction, and
    whether its deferred rollback is still to run. *)
Record Thread : Type := mkThread {
  prog : Prog Response;
  ttx : TxState;
  tdeferred : bool
}.

(** The database the handlers share: the committed rows, and for each
    locked row the handler whose transaction holds its exclusive lock. *)
Record World : Type := mkWorld {
  rows : list SeatRow;
  locks : gmap Z nat;
  threads : list Thread
}.

(** The end of a transaction releases every lock it holds. *)
Definition release (me : nat) (l : gmap Z nat) : gmap Z nat :=
  filter (fun kv => snd kv <> me) l.

(** A row can be locked by [me] when no other transaction holds it. *)
Definition lock_free_for (me : nat) (seat : Z) (l : gmap Z nat) : bool :=
  match l !! seat with
  | None => true
  | Some owner => bool_decide (owner = me)
  end.

Definition continue_with (th : Thread) (p : Prog Response) : Thread :=
  mkThread p (ttx th) (tdeferred th).

(** One database call (or one log line, or the deferred rollback at the
    return) of handler [me].  [None] when the handler cannot move: it has
    returned, or it waits for a row lock another transaction holds.

    [SELECT ... FOR UPDATE] and [UPDATE] lock the row they match, and read
    its last committed version together with the transaction's own updates;
    commit and rollback release the locks. *)
Definition thread_step (f : Faults) (me : nat) (th : Thread)
    (rws : list SeatRow) (lks : gmap Z nat)
    : option (Thread * list SeatRow * gmap Z nat) :=
  match prog th with
  | Ret a =>
      if tdeferred th then
        match ttx th with
        | TxOpen _ => Some (mkThread (Ret a) TxDone false, rws, release me lks)
        | tx => Some (mkThread (Ret a) tx false, rws, lks)
        end
      else None
  | Log _ k => Some (continue_with th k, rws, lks)
  | Defer_Rollback k => Some (mkThread k (ttx th) true, rws, lks)
  | Tx_Begin k =>
      match f CBegin with
      | Some e => Some (continue_with th (k (Some e)), rws, lks)
      | None => Some (mkThread (k None) (TxOpen []) (tdeferred th), rws, lks)
      end
  | Tx_QueryRow_Status seat k =>
      match f (CSelectForUpdate seat) with
      | Some e => Some (continue_with th (k (ScanErr e)), rws, lks)
      | None =>
          match scan_status (ttx th) seat rws with
          | Scanned st =>
              if lock_free_for me seat lks
              then Some (continue_with th (k (Scanned st)), rws, <[seat := me]> lks)
              else None
          | res => Some (continue_with th (k res), rws, lks)
          end
      end
  | Tx_Exec_Reserve user seat k =>
      match f (CUpdate user seat) with
      | Some e => Some (continue_with th (k (Some e)), rws, lks)
      | None =>
          match ttx th with
          | TxOpen ws =>
              let th' := mkThread (k None) (TxOpen (ws ++ [(user, seat)])) (tdeferred th) in
              match find_row seat (apply_writes ws rws) with
              | Some _ =>
                  if lock_free_for me seat lks
                  then Some (th', rws, <[seat := me]> lks)
                  else None
              | None => Some (th', rws, lks)
              end
          | _ => Some (continue_with th (k (Some tx_done_msg)), rws, lks)
          end
      end
  | Tx_Commit k =>
      match ttx th with
      | TxOpen ws =>
          match f CCommit with
          | Some e =>
              Some (mkThread (k (Some e)) TxDone (tdeferred th), rws, release me lks)
          | None =>
              Some (mkThread (k None) TxDone (tdeferred th),
                    apply_writes ws rws, release me lks)
          end
      | _ => Some (continue_with th (k (Some tx_done_msg)), rws, lks)
      end
  | Db_Query_Available limit k =>
      match f (CSelectAvailable limit) with
      | Some e => Some (continue_with th (k (QueryErr e)), rws, lks)
      | None =>
          Some (continue_with th (k (QueryRows (sql_select_available limit rws))), rws, lks)
      end
  | Db_Exec_CreateTable k => Some (continue_with th (k (f CCreateTable)), rws, lks)
  | Db_Exec_InsertIgnore seat k =>
      match f (CInsertIgnore seat) with
      | Some e => Some (continue_with th (k (Some e)), rws, lks)
      | None =>
          if lock_free_for me seat lks
          then Some (continue_with th (k None), sql_insert_ignore seat rws, lks)
          else None
      end
  end.

(** Handler [i] makes its next move; [f i] is the failure oracle of its
    connection. *)
Definition step (f : nat -> Faults) (i : nat) (w : World) : option World :=
  match threads w !! i with
  | None => None
  | Some th =>
      match thread_step (f i) i th (rows w) (locks w) with
      | None => None
      | Some (th', rws, lks) => Some (mkWorld rws lks (<[i := th']> (threads w)))
      end
  end.

(** A schedule: which handler moves at each step. *)
Fixpoint exec (f : nat -> Faults) (sched : list nat) (w : World) : option World :=
  match sched with
  | [] => Some w
  | i :: rest =>
      match step f i w with
      | None => None
      | Some w' => exec f rest w'
      end
  end.

(** The response of a handler that has returned. *)
Definition finished (th : Thread) : option Response :=
  match prog th with
  | Ret a => if tdeferred th then None else Some a
  | _ => None
  end.

Definition responses (w : World) : list (option Response) := List.map finished (threads w).

(** How many handlers have returned the response [r]. *)
Definition count_responses (r : Response) (w : World) : nat :=
  length (List.filter (fun o => bool_decide (o = Some r)) (responses w)).

Definition all_finished (w : World) : Prop :=
  Forall (fun th => is_Some (finished th)) (threads w).

Definition spawn (p : Prog Response) : Thread := mkThread p NoTx false.

(** The handlers [ps] started together on the rows [t], no row locked. *)
Definition serve_concurrently (t : list SeatRow) (ps : list (Prog Response)) : World :=
  mkWorld t ∅ (List.map spawn ps).

(** *** The stages of a reservation of [seat] for [user] *)

Definition on_commit (err : error) : Prog Response :=
  match err with
  | Some e => Log (Printf ("DB commit error: " +:+ e)) (Ret internal_server_error)
  | None => Ret reservation_successful
  end.

Definition on_update (err : error) : Prog Response :=
  match err with
  | Some e => Log (Printf ("DB update error: " +:+ e)) (Ret internal_server_error)
  | None => Tx_Commit on_commit
  end.

Definition seat_already_reserved : Response :=
  http_Error "Seat already reserved" StatusConflict.

Definition on_select (user seat : Z) (res : ScanResult) : Prog Response :=
  match res with
  | ErrNoRows => Ret (http_Error "Seat not found" StatusNotFound)
  | ScanErr e => Log (Printf ("DB select error: " +:+ e)) (Ret internal_server_error)
  | Scanned st =>
      if negb (String.eqb st "available") then Ret seat_already_reserved
      else Tx_Exec_Reserve user seat on_update
  end.

Definition on_begin (user seat : Z) (err : error) : Prog Response :=
  match err with
  | Some e => Log (Printf ("DB begin error: " +:+ e)) (Ret internal_server_error)
  | None => Defer_Rollback (Tx_QueryRow_Status seat (on_select user seat))
  end.

Inductive Stage : Type :=
| Arrived                     (* validated, about to begin *)
| Begun                       (* transaction open *)
| Selecting                   (* rollback deferred, about to lock the row *)
| Holding                     (* read "available", holds the lock *)
| Updated                     (* update written, holds the lock *)
| Committed                   (* committed, about to return 200 *)
| Granted                     (* returned 200 *)
| Lost                        (* read a reserved row, holds the lock, about to return 409 *)
| Rejected                    (* returned 409 *)
| BeginFailed (e : string)    (* Begin failed, about to log it *)
| Unbegun                     (* returned 500, no transaction was begun *)
| SelectFailed (e : string)   (* the locking read failed, about to log it *)
| Aborting                    (* about to return 500: transaction open, no lock *)
| UpdateFailed (e : string)   (* the update failed, about to log it; holds the lock *)
| AbortingHeld                (* about to return 500: transaction open, holds the lock *)
| CommitFailed (e : string)   (* the commit failed, about to log it; transaction over *)
| AbortingDone                (* about to return 500: transaction over *)
| Failed.                     (* returned 500 *)

Definition at_stage (user seat : Z) (s : Stage) : Thread :=
  match s with
  | Arrived => mkThread (Tx_Begin (on_begin user seat)) NoTx false
  | Begun => mkThread (Defer_Rollback (Tx_QueryRow_Status seat (on_select user seat)))
               (TxOpen []) false
  | Selecting => mkThread (Tx_QueryRow_Status seat (on_select user seat)) (TxOpen []) true
  | Holding => mkThread (Tx_Exec_Reserve user seat on_update) (TxOpen []) true
  | Updated => mkThread (Tx_Commit on_commit) (TxOpen [(user, seat)]) true
  | Committed => mkThread (Ret reservation_successful) TxDone true
  | Granted => mkThread (Ret reservation_successful) TxDone false
  | Lost => mkThread (Ret seat_already_reserved) (TxOpen []) true
  | Rejected => mkThread (Ret seat_already_reserved) TxDone false
  | BeginFailed e => mkThread (on_begin user seat (Some e)) NoTx false
  | Unbegun => mkThread (Ret internal_server_error) NoTx false
  | SelectFailed e => mkThread (on_select user seat (ScanErr e)) (TxOpen []) true
  | Aborting => mkThread (Ret internal_server_error) (TxOpen []) true
  | UpdateFailed e => mkThread (on_update (Some e)) (TxOpen []) true
  | AbortingHeld => mkThread (Ret internal_server_error) (TxOpen []) true
  | CommitFailed e => mkThread (on_commit (Some e)) TxDone true
  | AbortingDone => mkThread (Ret internal_server_error) TxDone true
  | Failed => mkThread (Ret internal_server_error) TxDone false
  end.

Definition holds_lock (s : Stage) : bool :=
  match s with
  | Holding | Updated | Lost | UpdateFailed _ | AbortingHeld => true
  | _ => false
  end.

Definition has_won (s : Stage) : bool :=
  match s with Committed | Granted => true | _ => false end.

Definition saw_reserved (s : Stage) : bool :=
  match s with Lost | Rejected => true | _ => false end.

Definition is_writer (s : Stage) : bool :=
  match s with Holding | Updated => true | _ => false end.

Definition has_returned (s : Stage) : bool :=
  match s with Granted | Rejected | Unbegun | Failed => true | _ => false end.

(** The stages only a failed database call leads to. *)
Definition has_failed (s : Stage) : bool :=
  match s with
  | BeginFailed _ | Unbegun | SelectFailed _ | Aborting | UpdateFailed _ | AbortingHeld
  | CommitFailed _ | AbortingDone | Failed => true
  | _ => false
  end.

(** The moves a handler at stage [s] still has to make, at most. *)
Definition moves_left (s : Stage) : nat :=
  match s with
  | Arrived => 7 | Begun => 6 | Selecting => 5 | Holding => 4 | Updated => 3
  | Committed => 1 | Lost => 1 | Granted => 0 | Rejected => 0
  | BeginFailed _ => 1 | Unbegun => 0
  | SelectFailed _ => 2 | Aborting => 1
  | UpdateFailed _ => 2 | AbortingHeld => 1
  | CommitFailed _ => 2 | AbortingDone => 1 | Failed => 0
  end.

Definition total_moves_left (ss : list Stage) : nat :=
  fold_right Nat.add 0%nat (List.map moves_left ss).

(** No database call of any handler fails. *)
Definition never_fails (f : nat -> Faults) : Prop := forall i c, f i c = None.

(** The invariant of a race for [seat] among the users [users], handler [i]
    being at stage [ss !! i]: the handlers are where their stages say, the
    lock of the row is held by the handler whose stage says so, and either
    the row is still available and nobody has won or seen it reserved, or
    it is reserved for the one winner and nobody else is about to write. *)
Definition threads_ok (seat : Z) (users : list Z) (ss : list Stage) (ths : list Thread) : Prop :=
  length ss = length users /\ length ths = length users /\
  forall i u s, users !! i = Some u -> ss !! i = Some s ->
    ths !! i = Some (at_stage u seat s).

Definition lock_ok (seat : Z) (ss : list Stage) (lks : gmap Z nat) : Prop :=
  forall i, lks !! seat = Some i <-> exists s, ss !! i = Some s /\ holds_lock s = true.

Definition row_ok (seat : Z) (users : list Z) (ss : list Stage) (rws : list SeatRow) : Prop :=
  (exists row, find_row seat rws = Some row /\ status row = "available" /\
      forall i s, ss !! i = Some s -> has_won s = false /\ saw_reserved s = false)
  \/
  (exists winner u s, users !! winner = Some u /\ ss !! winner = Some s /\
      has_won s = true /\
      find_row seat rws = Some (mkSeatRow seat "reserved" (Some u)) /\
      forall i s', i <> winner -> ss !! i = Some s' ->
        has_won s' = false /\ is_writer s' = false).

Record race_inv (seat : Z) (users : list Z) (ss : list Stage) (w : World) : Prop := {
  inv_threads : threads_ok seat users ss (threads w);
  inv_lock : lock_ok seat ss (locks w);
  inv_row : row_ok seat users ss (rows w)
}.

(** Every lock is held by handler 0: the state of the locks while one
    handler runs alone. *)
Definition only_mine (lks : gmap Z nat) : Prop :=
  forall k v, lks !! k = Some v -> v = 0%nat.

(** ** Sample data for the examples *)

Definition dquote : string := String (Ascii.ascii_of_nat 34) EmptyString.

(** The body [{"user_id":user,"seat_id":seat}]. *)
Definition ticket_json (user seat : Z) : string :=
  "{" +:+ dquote +:+ "user_id" +:+ dquote +:+ ":" +:+ pretty user +:+ ","
      +:+ dquote +:+ "seat_id" +:+ dquote +:+ ":" +:+ pretty seat +:+ "}".

(** A decoder for the examples: it knows the bodies of a few requests and
    rejects every other body. *)
Definition sample_decode (body : string) : DecodeResult :=
  match List.find (fun p => String.eqb body (ticket_json (fst p) (snd p)))
          [(1, 42); (2, 42); (1, 5); (2, 5); (1, 999999)] with
  | Some p => Decoded (mkTicketRequest (fst p) (snd p))
  | None => DecodeErr "invalid character"
  end.

Definition post_reserve (user seat : Z) : Request :=
  mkRequest "application/json" (ticket_json user seat).

(** A pool of 10 seats in which user 1 holds seat 5. *)
Definition pool_with_seat_5_taken : list SeatRow :=
  sql_update_reserve 1 5 (fresh_pool 10).

(** ** The rest of the logging server *)

Module LoggingSeats.

(** The insert loop of [initSeats] in the logging variant. *)
Fixpoint insert_seats (ids : list Z) (k : Prog error) : Prog error :=
  match ids with
  | [] => k
  | i :: rest =>
      Db_Exec_InsertIgnore i (fun err =>
        match err with
        | Some e =>
            LoggingServer.logJSON "WARN" "init_seats" 0 i "insert_ignore_fail" (Some e)
              (insert_seats rest k)
        | None => insert_seats rest k
        end)
  end.

(** [initSeats] of the logging variant. *)
Definition initSeats (total : Z) : Prog error :=
  Db_Exec_CreateTable (fun err =>
    match err with
    | Some e =>
        LoggingServer.logJSON "ERROR" "init_seats" 0 0 "create_table_fail" (Some e)
          (Ret (Some e))
    | None =>
        insert_seats (seqZ 1 total)
          (LoggingServer.logJSON "INFO" "init_seats" 0 0
             ("inserted_up_to=" +:+ pretty total) None (Ret None))
    end).

End LoggingSeats.

(** *** The JSON line of [logJSON] *)

Inductive JsonScalar : Type :=
| JNum (n : Z)
| JStr (s : string).

(** [entry.Error = err.Error()] when [err != nil], else the zero string. *)
Definition error_text (e : error) : string :=
  match e with
  | Some s => s
  | None => EmptyString
  end.

(** A field tagged [omitempty] is left out when it holds its zero value. *)
Definition omitempty_int (key : string) (n : Z) : list (string * JsonScalar) :=
  if n =? 0 then [] else [(key, JNum n)].

Definition omitempty_str (key : string) (s : string) : list (string * JsonScalar) :=
  if String.eqb s EmptyString then [] else [(key, JStr s)].

(** The fields of the object [json.Marshal(entry)] writes, in order;
    [timestamp] is [time.Now()] in RFC 3339. *)
Definition log_fields (timestamp : string) (e : LogEntry) : list (string * JsonScalar) :=
  [("timestamp", JStr timestamp); ("level", JStr (Level e)); ("action", JStr (Action e))]
  ++ omitempty_int "user_id" (LogUserID e)
  ++ omitempty_int "seat_id" (LogSeatID e)
  ++ omitempty_str "status" (LogStatus e)
  ++ omitempty_str "error" (error_text (LogError e)).

(** Reading a line back: a field that is absent reads as its zero value. *)
Definition field_of (key : string) (fs : list (string * JsonScalar)) : option JsonScalar :=
  match List.find (fun kv => String.eqb (fst kv) key) fs with
  | Some kv => Some (snd kv)
  | None => None
  end.

Definition int_field (key : string) (fs : list (string * JsonScalar)) : Z :=
  match field_of key fs with
  | Some (JNum n) => n
  | _ => 0
  end.

Definition str_field (key : string) (fs : list (string * JsonScalar)) : string :=
  match field_of key fs with
  | Some (JStr s) => s
  | _ => EmptyString
  end.

(** ** The client on the wire *)

Module ClientHttp.

(** [json.Marshal(req)] for a [ReserveRequest]. *)
Definition marshal (req : Client.ReserveRequest) : string :=
  ticket_json (Client.UserID req) (Client.SeatID req).

(** The request of [client.Post(reserveURL, "application/json", body)]. *)
Definition newRequest (req : Client.ReserveRequest) : Request :=
  mkRequest "application/json" (marshal req).

(** What [client.Post] returns when the server answers [resp] after
    [elapsed] nanoseconds. *)
Definition answered (resp : Response) (elapsed : Z) : Client.PostOutcome :=
  Client.mkPostOutcome (Client.PostResp (code resp)) elapsed.

(** [fetchAvailableSeats]: [get] is the response of [client.Get], [None]
    when the GET itself failed.  The body is decoded into a [SeatList]
    whatever the status code is: [null] leaves the slice nil, an array fills
    it, an object is a type error, and a plain-text body is given to the
    decoder [decode_text]. *)
Definition fetchAvailableSeats (decode_text : string -> option Client.SeatList)
    (get : option Response) : option Client.SeatList :=
  match get with
  | None => None
  | Some resp =>
      match body resp with
      | Json JNull => Some []
      | Json (JInts l) => Some l
      | Json (JObject _) => None
      | Text line => decode_text line
      end
  end.

(** The round a client sees when both its GET and its POSTs are answered
    by the responses [listing] and [reservation]. *)
Definition round_of (decode_text : string -> option Client.SeatList)
    (listing : option Response) (shuffle : list Z -> list Z)
    (reservation : Client.ReserveRequest -> Response * Z) : Client.Round :=
  Client.mkRound (fetchAvailableSeats decode_text listing) shuffle
    (fun req => answered (fst (reservation req)) (snd (reservation req))).

End ClientHttp.

(** ** One client alone with the server

    The loop of [simulateClient] when the client's requests are answered by
    the handlers of ticketing-be/main.go on the table [t], no other client
    being there: the table is threaded through the client's requests. *)

Module Solo.
Section Solo.

Variable json_decode : string -> DecodeResult.
Variable decode_text : string -> option Client.SeatList.
Variable f : Faults.          (* the failures of the server's database calls *)
Variable rtt : Z.             (* what [time.Since(start)] measures *)
Variable userID : Z.

(** [tryReserve]: the result, and the table the server leaves. *)
Definition tryReserve (seatID : Z) (t : list SeatRow) : Client.Result * list SeatRow :=
  let req := Client.mkReserveRequest userID seatID in
  let out := serve f (Server.reserveHandler json_decode (ClientHttp.newRequest req)) t in
  (Client.tryReserve (fun _ => ClientHttp.answered (fst out) rtt) req, snd out).

(** The inner loop of [simulateClient]. *)
Fixpoint attempts (seats : list Z) (t : list SeatRow) (currentResults : list Client.Result)
    : list Client.Result * list SeatRow :=
  match seats with
  | [] => (currentResults, t)
  | seatID :: rest =>
      let (result, t) := tryReserve seatID t in
      if Client.dropped result then attempts rest t currentResults
      else
        let currentResults := currentResults ++ [result] in
        if Client.StatusCode result =? 200 then (currentResults, t)
        else attempts rest t currentResults
  end.

(** The outer loop, one shuffle for each round; [None] when the shuffles
    run out before the listing comes back empty. *)
Fixpoint client_loop (shuffles : list (list Z -> list Z)) (t : list SeatRow)
    (currentResults : list Client.Result) : option (list Client.Result * list SeatRow) :=
  match shuffles with
  | [] => None
  | shuffle :: rest =>
      match ClientHttp.fetchAvailableSeats decode_text
              (Some (fst (serve f Server.availableSeatsHandler t))) with
      | None => client_loop rest t currentResults
      | Some seats =>
          if (length seats =? 0)%nat then Some (currentResults, t)
          else
            let (currentResults, t) := attempts (take 3 (shuffle seats)) t currentResults in
            client_loop rest t currentResults
      end
  end.

(** [simulateClient]: the slice it sends, and the table it leaves. *)
Definition simulateClient (shuffles : list (list Z -> list Z)) (t : list SeatRow)
    : option (list Client.Result * list SeatRow) :=
  match client_loop shuffles t [] with
  | None => None
  | Some (currentResults, t) =>
      if (length currentResults =? 0)%nat
      then Some (currentResults ++ [Client.no_request_succeeded userID], t)
      else Some (currentResults, t)
  end.

End Solo.
End Solo.

(** The entry the logging variant of [reserveHandler] logs, by cases on
    what the handler meets, in the order it meets it. *)
Definition reserve_entry (json_decode : string -> DecodeResult) (f : Faults)
    (r : Request) (t : list SeatRow) : LogEntry :=
  if negb (accepts_json r) then mkLogEntry "WARN" "reserve" 0 0 "bad_content_type" None
  else match json_decode (request_body r) with
  | DecodeErr e => mkLogEntry "ERROR" "reserve" 0 0 "invalid_json" (Some e)
  | Decoded req =>
    match f CBegin with
    | Some e => mkLogEntry "ERROR" "reserve" (UserID req) (SeatID req) "tx_begin_fail" (Some e)
    | None =>
      match f (CSelectForUpdate (SeatID req)) with
      | Some e =>
          mkLogEntry "ERROR" "reserve" (UserID req) (SeatID req) "select_fail" (Some e)
      | None =>
        match find_row (SeatID req) t with
        | None => mkLogEntry "WARN" "reserve" (UserID req) (SeatID req) "seat_not_found" None
        | Some row =>
          if negb (String.eqb (status row) "available") then
            mkLogEntry "INFO" "reserve" (UserID req) (SeatID req) "seat_conflict" None
          else
            match f (CUpdate (UserID req) (SeatID req)) with
            | Some e =>
                mkLogEntry "ERROR" "reserve" (UserID req) (SeatID req) "update_fail" (Some e)
            | None =>
              match f CCommit with
              | Some e =>
                  mkLogEntry "ERROR" "reserve" (UserID req) (SeatID req) "commit_fail"
                    (Some e)
              | None =>
                  mkLogEntry "INFO" "reserve" (UserID req) (SeatID req) "success" None
              end
            end
        end
      end
    end
  end.

(** The seat ids a listing carries: the array of its body; none when the
    body is [null] or is not a listing. *)
Definition listed (resp : Response) : list Z :=
  match body resp with
  | Json (JInts ids) => ids
  | _ => []
  end.

(** Whether the next move of handler [i] commits an update of the table:
    it is at its [tx.Commit()], its transaction holds a write, and the
    commit does not fail. *)
Definition commits_update (f : nat -> Faults) (i : nat) (w : World) : bool :=
  match threads w !! i with
  | Some th =>
      match prog th, ttx th, f i CCommit with
      | Tx_Commit _, TxOpen (_ :: _), None => true
      | _, _, _ => false
      end
  | None => false
  end.

(** The number of moves of a run that commit an update of the table. *)
Fixpoint committed_updates (f : nat -> Faults) (sched : list nat) (w : World) : nat :=
  match sched with
  | [] => 0%nat
  | i :: rest =>
      match step f i w with
      | None => 0%nat
      | Some w' =>
          ((if commits_update f i w then 1 else 0) + committed_updates f rest w')%nat
      end
  end.

(** A pool of two seats, both available. *)
Definition two_seats : list SeatRow :=
  [mkSeatRow 42 "available" None; mkSeatRow 5 "available" None].

(** * Properties *)

(** ** The rows of the table *)

Lemma find_row_Some id t r : find_row id t = Some r -> seat_id r = id /\ In r t.
Proof.
  unfold find_row. intros H. apply find_some in H as [Hin Hb].
  apply bool_decide_eq_true in Hb. auto.
Qed.

Lemma find_row_update_same user seat t r :
  find_row seat t = Some r ->
  find_row seat (sql_update_reserve user seat t) = Some (mkSeatRow seat "reserved" (Some user)).
Proof.
  unfold find_row, sql_update_reserve.
  induction t as [|x t IH]; simpl; [discriminate|].
  destruct (bool_decide (seat_id x = seat)) eqn:E; simpl.
  - intros _. apply bool_decide_eq_true in E. rewrite E.
    rewrite bool_decide_eq_true_2 by reflexivity. reflexivity.
  - rewrite E. exact IH.
Qed.

Lemma find_row_update_other user seat id t :
  id <> seat -> find_row id (sql_update_reserve user seat t) = find_row id t.
Proof.
  intros Hne. unfold find_row, sql_update_reserve.
  induction t as [|x t IH]; simpl; [reflexivity|].
  destruct (bool_decide (seat_id x = seat)) eqn:E; simpl.
  - apply bool_decide_eq_true in E.
    rewrite !bool_decide_eq_false_2 by congruence. exact IH.
  - destruct (bool_decide (seat_id x = id)); [reflexivity|exact IH].
Qed.

Lemma find_row_update_None user seat id t :
  find_row id t = None -> find_row id (sql_update_reserve user seat t) = None.
Proof.
  destruct (decide (id = seat)) as [->|Hne].
  - unfold find_row, sql_update_reserve.
    induction t as [|x t IH]; simpl; [reflexivity|].
    destruct (bool_decide (seat_id x = seat)) eqn:E; simpl; [discriminate|].
    rewrite E. exact IH.
  - rewrite find_row_update_other by assumption. auto.
Qed.

Lemma update_seat_ids user seat t :
  List.map seat_id (sql_update_reserve user seat t) = List.map seat_id t.
Proof.
  unfold sql_update_reserve. induction t as [|x t IH]; simpl; [reflexivity|].
  rewrite IH. destruct (bool_decide (seat_id x = seat)); reflexivity.
Qed.

Lemma update_absent user seat t :
  find_row seat t = None -> sql_update_reserve user seat t = t.
Proof.
  unfold find_row, sql_update_reserve. induction t as [|x t IH]; simpl; [reflexivity|].
  destruct (bool_decide (seat_id x = seat)) eqn:E; [discriminate|].
  intros H. rewrite IH by assumption. reflexivity.
Qed.

(** ** The reservation handler served alone *)

Ltac handler_step :=
  match goal with
  | |- context [match ?x with _ => _ end] =>
      lazymatch x with
      | context [match _ with _ => _ end] => fail
      | _ => destruct x eqn:?
      end
  | |- context [if ?x then _ else _] =>
      lazymatch x with
      | context [if _ then _ else _] => fail
      | _ => destruct x eqn:?
      end
  end.

Ltac unfold_handlers :=
  unfold serve, calls_of, Server.reserveHandler, LoggingServer.reserveHandler,
    LoggingServer.logJSON, scan_status.

Section ReserveAlone.

Variable json_decode : string -> DecodeResult.

Local Opaque String.prefix String.eqb.

(** The outcome of one reservation served alone, by cases on what the
    handler meets, in the order it meets it. *)
Lemma reserve_alone (f : Faults) (r : Request) (t : list SeatRow) :
  run f (Server.reserveHandler json_decode r) (connect t) =
  if negb (accepts_json r) then
    (http_Error "Content-Type must be application/json" StatusUnsupportedMediaType,
     connect t)
  else match json_decode (request_body r) with
  | DecodeErr _ => (http_Error "Invalid JSON" StatusBadRequest, connect t)
  | Decoded req =>
    match f CBegin with
    | Some e => (internal_server_error,
                 mkConn t NoTx false [Printf ("DB begin error: " +:+ e)] [CBegin])
    | None =>
      let sel := CSelectForUpdate (SeatID req) in
      match f sel with
      | Some e => (internal_server_error,
                   mkConn t TxDone true [Printf ("DB select error: " +:+ e)]
                     [CBegin; sel; CRollback])
      | None =>
        match find_row (SeatID req) t with
        | None => (http_Error "Seat not found" StatusNotFound,
                   mkConn t TxDone true [] [CBegin; sel; CRollback])
        | Some row =>
          if negb (String.eqb (status row) "available") then
            (http_Error "Seat already reserved" StatusConflict,
             mkConn t TxDone true [] [CBegin; sel; CRollback])
          else
            let upd := CUpdate (UserID req) (SeatID req) in
            match f upd with
            | Some e => (internal_server_error,
                         mkConn t TxDone true [Printf ("DB update error: " +:+ e)]
                           [CBegin; sel; upd; CRollback])
            | None =>
              match f CCommit with
              | Some e => (internal_server_error,
                           mkConn t TxDone true [Printf ("DB commit error: " +:+ e)]
                             [CBegin; sel; upd; CCommit])
              | None => (reservation_successful,
                         mkConn (sql_update_reserve (UserID req) (SeatID req) t)
                           TxDone true [] [CBegin; sel; upd; CCommit])
              end
            end
        end
      end
    end
  end.
Proof.
  unfold Server.reserveHandler, accepts_json.
  destruct (negb (String.prefix _ _)); [reflexivity|].
  destruct (json_decode _) as [e|req]; [reflexivity|].
  simpl. destruct (f CBegin); [reflexivity|]. simpl.
  destruct (f (CSelectForUpdate _)); [reflexivity|]. simpl.
  destruct (find_row _ t) as [row|]; [|reflexivity]. simpl.
  destruct (negb (String.eqb _ _)); [reflexivity|]. simpl.
  destruct (f (CUpdate _ _)); [reflexivity|]. simpl.
  destruct (f CCommit); reflexivity.
Qed.

End ReserveAlone.

Section ReserveTaxonomy.

Variable json_decode : string -> DecodeResult.

Local Opaque String.prefix String.eqb.

Ltac no_failure :=
  match goal with
  | H : some_call_failed _ _ |- _ =>
      destruct H as (c & Hin & Hne & Hf); simpl in Hin;
      repeat (destruct Hin as [<-|Hin]; [congruence|]); contradiction
  end.

Ltac failure c :=
  match goal with
  | H : ~ some_call_failed _ _ |- _ =>
      exfalso; apply H; exists c; simpl; repeat split; [tauto|discriminate|congruence]
  end.

(** C3. Every request to [reserveHandler] gets exactly one answer, fixed by
    the first of these that applies: 415 when the Content-Type does not
    start with application/json, 400 when the body does not decode, 500 when
    a database call of the handler fails, 404 when the seat has no row, 409
    when its status is not available, and 200 with the confirmation message
    when it is available, in which case the update is committed.  In every
    other case the rows are left as they were. *)
Theorem reserve_status_codes (f : Faults) (r : Request) (t : list SeatRow) :
  let out := run f (Server.reserveHandler json_decode r) (connect t) in
  let resp := fst out in
  let t' := table (snd out) in
  let cs := issued (snd out) in
  In (code resp) [200; 400; 404; 409; 415; 500] /\
  (accepts_json r = false ->
     resp = http_Error "Content-Type must be application/json" 415 /\ t' = t) /\
  (accepts_json r = true ->
   forall e, json_decode (request_body r) = DecodeErr e ->
     resp = http_Error "Invalid JSON" 400 /\ t' = t) /\
  (accepts_json r = true ->
   forall req, json_decode (request_body r) = Decoded req ->
     (some_call_failed f cs ->
        resp = http_Error "internal server error" 500 /\ t' = t) /\
     (~ some_call_failed f cs -> find_row (SeatID req) t = None ->
        resp = http_Error "Seat not found" 404 /\ t' = t) /\
     (~ some_call_failed f cs ->
      forall row, find_row (SeatID req) t = Some row -> status row <> "available" ->
        resp = http_Error "Seat already reserved" 409 /\ t' = t) /\
     (~ some_call_failed f cs ->
      forall row, find_row (SeatID req) t = Some row -> status row = "available" ->
        resp = json_OK (JObject [("message", "Reservation successful")]) /\
        code resp = 200 /\
        In CCommit cs /\
        t' = sql_update_reserve (UserID req) (SeatID req) t)).
Proof.
  cbv zeta. rewrite reserve_alone.
  destruct (accepts_json r) eqn:Hct; simpl.
  2:{ split; [tauto|]. repeat split; intros; congruence. }
  destruct (json_decode (request_body r)) as [e|req] eqn:Hdec; simpl.
  { split; [tauto|]. repeat split; intros; congruence. }
  split.
  { destruct (f CBegin); [simpl; tauto|].
    destruct (f (CSelectForUpdate _)); [simpl; tauto|].
    destruct (find_row _ t); [|simpl; tauto].
    destruct (negb _); [simpl; tauto|].
    destruct (f (CUpdate _ _)); [simpl; tauto|].
    destruct (f CCommit); simpl; tauto. }
  split; [intros; congruence|]. split; [intros; congruence|].
  intros _ req' Hreq. injection Hreq as <-.
  destruct (f CBegin) eqn:Hb; simpl.
  { repeat split; intros; try reflexivity; failure CBegin. }
  destruct (f (CSelectForUpdate _)) eqn:Hs; simpl.
  { repeat split; intros; try reflexivity; failure (CSelectForUpdate (SeatID req)). }
  destruct (find_row _ t) as [row|] eqn:Hrow; simpl.
  2:{ repeat split; intros; try reflexivity; try congruence; no_failure. }
  destruct (String.eqb (status row) "available") eqn:Hst; simpl.
  2:{ apply String.eqb_neq in Hst.
      repeat split; intros; try reflexivity; try congruence; no_failure. }
  apply String.eqb_eq in Hst.
  destruct (f (CUpdate _ _)) eqn:Hu; simpl.
  { repeat split; intros; try reflexivity;
      failure (CUpdate (UserID req) (SeatID req)). }
  destruct (f CCommit) eqn:Hc; simpl.
  { repeat split; intros; try reflexivity; failure CCommit. }
  repeat split; intros; try reflexivity; try congruence; try no_failure.
  tauto.
Qed.

End ReserveTaxonomy.

Section Validation.

Variable json_decode : string -> DecodeResult.

Local Opaque String.prefix String.eqb.

(** C7. A request whose Content-Type is wrong or whose body does not decode
    is answered 415 or 400 by a handler that is a bare return: served alone
    it makes no database call at all, so no transaction is begun, and the
    rows are unchanged; among other handlers it has returned before making
    any move, so it never takes or waits for a row lock. *)
Theorem validation_before_store (f : Faults) (r : Request) (t : list SeatRow) :
  accepts_json r = false \/ (exists e, json_decode (request_body r) = DecodeErr e) ->
  exists resp,
    Server.reserveHandler json_decode r = Ret resp /\
    (accepts_json r = false -> code resp = 415) /\
    (accepts_json r = true -> code resp = 400) /\
    (let out := run f (Server.reserveHandler json_decode r) (connect t) in
     fst out = resp /\
     issued (snd out) = [] /\ txn (snd out) = NoTx /\ table (snd out) = t) /\
    finished (spawn (Server.reserveHandler json_decode r)) = Some resp /\
    (forall me rws lks,
       thread_step f me (spawn (Server.reserveHandler json_decode r)) rws lks = None).
Proof.
  intros H. unfold Server.reserveHandler. fold (accepts_json r).
  destruct (accepts_json r) eqn:Hct; simpl.
  - destruct H as [H|[e He]]; [discriminate|]. rewrite He.
    eexists. split; [reflexivity|]. simpl. repeat split; intros; congruence.
  - eexists. split; [reflexivity|]. simpl. repeat split; intros; congruence.
Qed.

End Validation.

(** ** The two reservation handlers *)

Ltac same_store_tac := unfold same_store in *; simpl in *; intuition congruence.

Lemma run_same_but_logs {A} (f : Faults) (p q : Prog A) :
  same_but_logs p q ->
  forall s s', same_store s s' ->
    fst (run f p s) = fst (run f q s') /\ same_store (snd (run f p s)) (snd (run f q s')).
Proof.
  induction 1 as [a|l p q _ IH|l p q _ IH|p q _ IH|k k' _ IH|seat k k' _ IH
                 |user seat k k' _ IH|k k' _ IH|limit k k' _ IH|k k' _ IH|seat k k' _ IH];
    intros s s' Hs; simpl.
  - split; [reflexivity|]. unfold run_deferred.
    destruct Hs as (Ht & Hx & Hd & Hi). rewrite Hd, Hx.
    destruct (deferred s') eqn:Hd'; [|same_store_tac].
    destruct (txn s') eqn:Hx'; same_store_tac.
  - apply IH. same_store_tac.
  - apply IH. same_store_tac.
  - apply IH. same_store_tac.
  - destruct (f CBegin); apply IH; same_store_tac.
  - destruct Hs as (Ht & Hx & Hd & Hi). rewrite Hx, Ht.
    destruct (f (CSelectForUpdate seat)); apply IH; same_store_tac.
  - destruct Hs as (Ht & Hx & Hd & Hi). rewrite Hx.
    destruct (f (CUpdate user seat)); [apply IH; same_store_tac|].
    destruct (txn s') eqn:Hx'; apply IH; same_store_tac.
  - destruct Hs as (Ht & Hx & Hd & Hi). rewrite Hx, Ht.
    destruct (txn s') eqn:Hx'; [apply IH; same_store_tac| |apply IH; same_store_tac].
    destruct (f CCommit); apply IH; same_store_tac.
  - destruct Hs as (Ht & Hx & Hd & Hi). rewrite Ht.
    destruct (f (CSelectAvailable limit)); apply IH; same_store_tac.
  - apply IH; same_store_tac.
  - destruct Hs as (Ht & Hx & Hd & Hi). rewrite Ht.
    destruct (f (CInsertIgnore seat)); apply IH; same_store_tac.
Qed.

Section TwoHandlers.

Variable json_decode : string -> DecodeResult.

Lemma reserveHandlers_same_but_logs (r : Request) :
  same_but_logs (Server.reserveHandler json_decode r)
                (LoggingServer.reserveHandler json_decode r).
Proof.
  unfold Server.reserveHandler, LoggingServer.reserveHandler, LoggingServer.logJSON.
  destruct (negb _); [repeat constructor|].
  destruct (json_decode _) as [e|req]; [repeat constructor|].
  constructor. intros [e|]; [repeat constructor|].
  constructor. constructor. intros [st| |e]; try (repeat constructor).
  destruct (negb _); [repeat constructor|].
  constructor. intros [e|]; [repeat constructor|].
  constructor. intros [e|]; repeat constructor.
Qed.

(** C10. For every request, every state of the table and every pattern of
    database failures, the handler of ticketing-be/main.go and its logging
    variant return the same response (status code, content type and body),
    leave the same rows and make the same database calls; the programs
    differ only in the lines they log. *)
Theorem reserveHandlers_equivalent (f : Faults) (r : Request) (t : list SeatRow) :
  same_but_logs (Server.reserveHandler json_decode r)
                (LoggingServer.reserveHandler json_decode r) /\
  serve f (Server.reserveHandler json_decode r) t =
    serve f (LoggingServer.reserveHandler json_decode r) t /\
  calls_of f (Server.reserveHandler json_decode r) t =
    calls_of f (LoggingServer.reserveHandler json_decode r) t.
Proof.
  pose proof (reserveHandlers_same_but_logs r) as Hs.
  split; [exact Hs|].
  destruct (run_same_but_logs f _ _ Hs (connect t) (connect t)) as (Hr & Ht & _ & _ & Hi).
  { repeat split. }
  unfold serve, calls_of. rewrite Hr, Ht, Hi. split; reflexivity.
Qed.

End TwoHandlers.

(** ** Initialisation of the seats *)

Lemma find_row_None id t : find_row id t = None <-> ~ In id (List.map seat_id t).
Proof.
  unfold find_row. induction t as [|x t IH]; simpl; [tauto|].
  destruct (bool_decide (seat_id x = id)) eqn:E.
  - apply bool_decide_eq_true in E. split; [discriminate|tauto].
  - apply bool_decide_eq_false in E. rewrite IH. tauto.
Qed.

Lemma find_row_is_Some id t : is_Some (find_row id t) <-> In id (List.map seat_id t).
Proof.
  destruct (find_row id t) eqn:E.
  - split; [intros _|eauto].
    destruct (in_dec Z.eq_dec id (List.map seat_id t)) as [H|H]; [exact H|].
    apply find_row_None in H. congruence.
  - split; [intros [? ?]; discriminate|].
    intros H. apply find_row_None in E. contradiction.
Qed.

Lemma find_row_app id t1 t2 :
  find_row id (t1 ++ t2) =
  match find_row id t1 with Some r => Some r | None => find_row id t2 end.
Proof.
  unfold find_row. induction t1 as [|x t1 IH]; simpl; [reflexivity|].
  destruct (bool_decide (seat_id x = id)); [reflexivity|exact IH].
Qed.

Lemma insert_ignore_keeps seat id t row :
  find_row id t = Some row -> find_row id (sql_insert_ignore seat t) = Some row.
Proof.
  intros H. unfold sql_insert_ignore.
  destruct (find_row seat t); [exact H|].
  rewrite find_row_app, H. reflexivity.
Qed.

Lemma insert_ignore_present seat t :
  In seat (List.map seat_id t) -> sql_insert_ignore seat t = t.
Proof.
  intros H. apply find_row_is_Some in H as [r Hr].
  unfold sql_insert_ignore. rewrite Hr. reflexivity.
Qed.

Lemma insert_ignore_primary_key seat t :
  primary_key t -> primary_key (sql_insert_ignore seat t).
Proof.
  unfold primary_key, sql_insert_ignore. intros H.
  destruct (find_row seat t) eqn:E; [exact H|].
  apply find_row_None in E.
  rewrite List.map_app. simpl.
  apply NoDup_app. split; [exact H|]. split.
  - intros x Hx [->|[]]%list_elem_of_In. apply E. apply list_elem_of_In. exact Hx.
  - apply NoDup_singleton.
Qed.

Lemma insert_ignore_owner seat t :
  owner_iff_reserved t -> owner_iff_reserved (sql_insert_ignore seat t).
Proof.
  unfold owner_iff_reserved, sql_insert_ignore. intros H.
  destruct (find_row seat t); [exact H|].
  apply Forall_app. split; [exact H|].
  constructor; [|constructor]. simpl. split; [intros [? ?]|]; discriminate.
Qed.

Lemma run_insert_seats (f : Faults) (ids : list Z) (k : Prog error) (s : Conn) :
  exists s', run f (Server.insert_seats ids k) s = run f k s' /\
             table s' = inserted f ids (table s) /\
             txn s' = txn s /\ deferred s' = deferred s.
Proof.
  revert s. induction ids as [|i ids IH]; intros s; simpl.
  - exists s. auto.
  - unfold inserted. simpl. destruct (f (CInsertIgnore i)); simpl.
    + destruct (IH (add_log (Printf ("Insert seat " +:+ pretty i +:+ " failed: " +:+ s0))
                      (issue (CInsertIgnore i) s))) as (s' & Hr & Ht & Hx & Hd).
      exists s'. auto.
    + destruct (IH (set_table (sql_insert_ignore i (table s)) (issue (CInsertIgnore i) s)))
        as (s' & Hr & Ht & Hx & Hd).
      exists s'. auto.
Qed.

(** The rows [initSeats] leaves: nothing changes when the table cannot be
    created, else every insert that succeeds is applied. *)
Lemma initSeats_rows (f : Faults) (total : Z) (t : list SeatRow) :
  snd (serve f (Server.initSeats total) t) =
  match f CCreateTable with
  | Some _ => t
  | None => inserted f (seqZ 1 total) t
  end.
Proof.
  unfold serve, Server.initSeats. simpl.
  destruct (f CCreateTable); [reflexivity|].
  destruct (run_insert_seats f (seqZ 1 total) (Ret None) (issue CCreateTable (connect t)))
    as (s' & Hr & Ht & Hx & Hd).
  rewrite Hr. simpl. unfold run_deferred. rewrite Hd. simpl. exact Ht.
Qed.

Lemma inserted_keeps f ids t id row :
  find_row id t = Some row -> find_row id (inserted f ids t) = Some row.
Proof.
  unfold inserted. revert t. induction ids as [|i ids IH]; intros t H; simpl; [exact H|].
  apply IH. destruct (f (CInsertIgnore i)); [exact H|].
  apply insert_ignore_keeps. exact H.
Qed.

Lemma inserted_primary_key f ids t : primary_key t -> primary_key (inserted f ids t).
Proof.
  unfold inserted. revert t. induction ids as [|i ids IH]; intros t H; simpl; [exact H|].
  apply IH. destruct (f (CInsertIgnore i)); [exact H|].
  apply insert_ignore_primary_key. exact H.
Qed.

Lemma inserted_owner f ids t : owner_iff_reserved t -> owner_iff_reserved (inserted f ids t).
Proof.
  unfold inserted. revert t. induction ids as [|i ids IH]; intros t H; simpl; [exact H|].
  apply IH. destruct (f (CInsertIgnore i)); [exact H|].
  apply insert_ignore_owner. exact H.
Qed.

Lemma inserted_present f ids t :
  (forall i, In i ids -> In i (List.map seat_id t)) -> inserted f ids t = t.
Proof.
  unfold inserted. induction ids as [|i ids IH]; intros H; simpl; [reflexivity|].
  destruct (f (CInsertIgnore i)).
  - apply IH. intros j Hj. apply H. right. exact Hj.
  - rewrite insert_ignore_present by (apply H; left; reflexivity).
    apply IH. intros j Hj. apply H. right. exact Hj.
Qed.

(** A first run on an empty table, with no failure, creates the rows
    1..total in order, all available and without owner. *)
Lemma inserted_fresh ids t :
  NoDup ids -> (forall i, In i ids -> ~ In i (List.map seat_id t)) ->
  inserted no_faults ids t = t ++ List.map (fun i => mkSeatRow i "available" None) ids.
Proof.
  unfold inserted, no_faults. revert t.
  induction ids as [|i ids IH]; intros t Hnd Hfresh; simpl.
  - rewrite app_nil_r. reflexivity.
  - apply NoDup_cons in Hnd as [Hi Hnd].
    assert (sql_insert_ignore i t = t ++ [mkSeatRow i "available" None]) as ->.
    { unfold sql_insert_ignore.
      assert (find_row i t = None) as ->; [|reflexivity].
      apply find_row_None. apply Hfresh. left. reflexivity. }
    rewrite IH; [rewrite <- app_assoc; reflexivity|exact Hnd|].
    intros j Hj. rewrite List.map_app, in_app_iff. simpl.
    intros [H|[H|[]]].
    + eapply Hfresh; [right; exact Hj|exact H].
    + subst j. apply Hi. apply list_elem_of_In. exact Hj.
Qed.

Lemma initSeats_fresh (total : Z) :
  snd (serve no_faults (Server.initSeats total) []) =
  List.map (fun i => mkSeatRow i "available" None) (seqZ 1 total).
Proof.
  rewrite initSeats_rows. simpl.
  rewrite inserted_fresh; [reflexivity|apply NoDup_seqZ|].
  intros i _ [].
Qed.

(** The insert loop only appends rows, each available and without owner. *)
Lemma inserted_extends f ids t :
  exists added, inserted f ids t = t ++ added /\
                Forall (fun r => status r = "available" /\ user_id r = None) added.
Proof.
  unfold inserted. revert t. induction ids as [|i ids IH]; intros t; simpl.
  - exists []. rewrite app_nil_r. auto.
  - destruct (f (CInsertIgnore i)); [apply IH|].
    destruct (find_row i t) eqn:Hfind.
    + assert (sql_insert_ignore i t = t) as ->; [|apply IH].
      unfold sql_insert_ignore. rewrite Hfind. reflexivity.
    + assert (sql_insert_ignore i t = t ++ [mkSeatRow i "available" None]) as ->.
      { unfold sql_insert_ignore. rewrite Hfind. reflexivity. }
      destruct (IH (t ++ [mkSeatRow i "available" None])) as (added & -> & Hall).
      exists (mkSeatRow i "available" None :: added).
      rewrite <- app_assoc. split; [reflexivity|]. constructor; auto.
Qed.

(** C9. Running [initSeats total] over an existing table, whatever calls
    fail, leaves every existing row as it is (its status and owner
    included): it can only append rows, available and without owner, for
    ids that were missing, and it keeps the seat ids unique.  Over a table
    that holds exactly the rows 1..total it changes nothing at all, so the
    table still holds exactly those rows. *)
Theorem initSeats_idempotent (f : Faults) (total : Z) (t : list SeatRow) :
  let t' := snd (serve f (Server.initSeats total) t) in
  (exists added, t' = t ++ added /\
                 Forall (fun r => status r = "available" /\ user_id r = None) added) /\
  (forall id row, find_row id t = Some row -> find_row id t' = Some row) /\
  (primary_key t -> primary_key t') /\
  ((forall id, In id (List.map seat_id t) <-> 1 <= id <= total) ->
     t' = t /\ forall id, In id (List.map seat_id t') <-> 1 <= id <= total).
Proof.
  cbv zeta. rewrite initSeats_rows.
  destruct (f CCreateTable).
  { split; [exists []; rewrite app_nil_r; auto|tauto]. }
  split; [apply inserted_extends|].
  split; [intros id row; apply inserted_keeps|].
  split; [apply inserted_primary_key|].
  intros H. rewrite inserted_present; [auto|].
  intros i Hi%list_elem_of_In%elem_of_seqZ. apply H. lia.
Qed.

(** ** Reserved seats stay reserved *)

Section Monotone.

Variable json_decode : string -> DecodeResult.

Local Opaque String.prefix String.eqb.

(** A reservation either leaves the rows alone or reserves a seat that was
    available. *)
Lemma reserve_rows (f : Faults) (r : Request) (t : list SeatRow) :
  snd (serve f (Server.reserveHandler json_decode r) t) = t \/
  exists req row,
    json_decode (request_body r) = Decoded req /\
    find_row (SeatID req) t = Some row /\ status row = "available" /\
    snd (serve f (Server.reserveHandler json_decode r) t) =
      sql_update_reserve (UserID req) (SeatID req) t.
Proof.
  unfold serve. rewrite reserve_alone.
  destruct (negb (accepts_json r)); [left; reflexivity|].
  destruct (json_decode (request_body r)) as [e|req] eqn:Hdec; [left; reflexivity|].
  destruct (f CBegin); [left; reflexivity|]. simpl.
  destruct (f (CSelectForUpdate _)); [left; reflexivity|].
  destruct (find_row _ t) as [row|] eqn:Hrow; [|left; reflexivity].
  destruct (String.eqb (status row) "available") eqn:Hst; [|left; reflexivity]. simpl.
  destruct (f (CUpdate _ _)); [left; reflexivity|].
  destruct (f CCommit); [left; reflexivity|].
  right. exists req, row. apply String.eqb_eq in Hst. auto.
Qed.

Lemma list_available_rows (f : Faults) (t : list SeatRow) :
  snd (serve f Server.availableSeatsHandler t) = t.
Proof.
  unfold serve, Server.availableSeatsHandler. simpl.
  destruct (f (CSelectAvailable _)); reflexivity.
Qed.

Lemma update_owner user seat t :
  owner_iff_reserved t -> owner_iff_reserved (sql_update_reserve user seat t).
Proof.
  unfold owner_iff_reserved, sql_update_reserve. intros H.
  apply Forall_forall. intros x Hx%list_elem_of_In.
  apply in_map_iff in Hx as (y & <- & Hy).
  destruct (bool_decide (seat_id y = seat)); simpl.
  - split; eauto.
  - eapply Forall_forall in H; [exact H|]. apply list_elem_of_In. exact Hy.
Qed.

Lemma apply_op_reserved (op : StoreOp) (t : list SeatRow) id row :
  find_row id t = Some row -> status row = "reserved" ->
  find_row id (apply_op json_decode op t) = Some row.
Proof.
  intros Hrow Hst. destruct op as [f r|f|f total]; unfold apply_op.
  - destruct (reserve_rows f r t) as [->|(req & row' & _ & Hrow' & Hst' & ->)];
      [exact Hrow|].
    rewrite find_row_update_other; [exact Hrow|].
    intros ->. rewrite Hrow in Hrow'. injection Hrow' as <-.
    rewrite Hst in Hst'. discriminate.
  - rewrite list_available_rows. exact Hrow.
  - rewrite initSeats_rows. destruct (f CCreateTable); [exact Hrow|].
    apply inserted_keeps. exact Hrow.
Qed.

Lemma apply_op_owner (op : StoreOp) (t : list SeatRow) :
  owner_iff_reserved t -> owner_iff_reserved (apply_op json_decode op t).
Proof.
  intros H. destruct op as [f r|f|f total]; unfold apply_op.
  - destruct (reserve_rows f r t) as [->|(req & row' & _ & _ & _ & ->)]; [exact H|].
    apply update_owner. exact H.
  - rewrite list_available_rows. exact H.
  - rewrite initSeats_rows. destruct (f CCreateTable); [exact H|].
    apply inserted_owner. exact H.
Qed.

Lemma apply_ops_reserved (ops : list StoreOp) (t : list SeatRow) id row :
  find_row id t = Some row -> status row = "reserved" ->
  find_row id (apply_ops json_decode ops t) = Some row.
Proof.
  unfold apply_ops. revert t. induction ops as [|op ops IH]; intros t Hrow Hst; simpl.
  - exact Hrow.
  - apply IH; [|exact Hst]. apply apply_op_reserved; assumption.
Qed.

Lemma apply_ops_owner (ops : list StoreOp) (t : list SeatRow) :
  owner_iff_reserved t -> owner_iff_reserved (apply_ops json_decode ops t).
Proof.
  unfold apply_ops. revert t. induction ops as [|op ops IH]; intros t H; simpl.
  - exact H.
  - apply IH. apply apply_op_owner. exact H.
Qed.

(** C2. Whatever reservations, listings and re-initialisations follow, and
    whatever database calls fail in them, a seat that is reserved keeps its
    row: its status stays reserved and its owner stays the same.  And if in
    every row the owner is set exactly when the status is reserved, this is
    still so afterwards. *)
Theorem reserved_is_final (ops : list StoreOp) (t : list SeatRow) :
  let t' := apply_ops json_decode ops t in
  (forall id row, find_row id t = Some row -> status row = "reserved" ->
     find_row id t' = Some row) /\
  (owner_iff_reserved t -> owner_iff_reserved t').
Proof.
  cbv zeta. split.
  - intros id row. apply apply_ops_reserved.
  - apply apply_ops_owner.
Qed.

(** The empty database satisfies the ownership invariant, so every state
    the server can reach satisfies it. *)
Lemma owner_iff_reserved_reachable (ops : list StoreOp) :
  owner_iff_reserved (apply_ops json_decode ops []).
Proof. apply apply_ops_owner. constructor. Qed.

End Monotone.

(** ** Listing the available seats *)

Lemma fold_go_append_Some ids l :
  fold_left go_append ids (Some l) = Some (l ++ ids).
Proof.
  revert l. induction ids as [|x ids IH]; intros l; simpl.
  - rewrite app_nil_r. reflexivity.
  - rewrite IH, <- app_assoc. reflexivity.
Qed.

(** The slice the [rows.Next] loop builds: nil when there is no row. *)
Lemma fold_go_append ids :
  fold_left go_append ids None = match ids with [] => None | _ => Some ids end.
Proof. destruct ids as [|x ids]; simpl; [reflexivity|]. apply fold_go_append_Some. Qed.

Lemma find_row_primary_key t row :
  primary_key t -> In row t -> find_row (seat_id row) t = Some row.
Proof.
  unfold primary_key, find_row. induction t as [|x t IH]; simpl; [tauto|].
  intros Hnd%NoDup_cons [->|Hin].
  - rewrite bool_decide_eq_true_2 by reflexivity. reflexivity.
  - destruct Hnd as [Hx Hnd].
    rewrite bool_decide_eq_false_2; [auto|].
    intros Heq. apply Hx. rewrite Heq. apply list_elem_of_In, in_map. exact Hin.
Qed.

Lemma available_ids_In t id :
  primary_key t ->
  In id (available_ids t) <->
  exists row, find_row id t = Some row /\ status row = "available".
Proof.
  intros Hpk. unfold available_ids.
  rewrite <- list_elem_of_In, merge_sort_Permutation, list_elem_of_In.
  rewrite in_map_iff. split.
  - intros (row & <- & Hin). apply filter_In in Hin as [Hin Hst].
    apply bool_decide_eq_true in Hst. exists row. split; [|exact Hst].
    apply find_row_primary_key; assumption.
  - intros (row & Hrow & Hst). apply find_row_Some in Hrow as [Hid Hin].
    exists row. split; [exact Hid|]. apply filter_In. split; [exact Hin|].
    apply bool_decide_eq_true. exact Hst.
Qed.

Lemma NoDup_map_filter (P : SeatRow -> bool) t :
  NoDup (List.map seat_id t) -> NoDup (List.map seat_id (List.filter P t)).
Proof.
  induction t as [|x t IH]; simpl; [auto|].
  intros [Hx Hnd]%NoDup_cons. destruct (P x); simpl; [|auto].
  apply NoDup_cons. split; [|auto].
  intros Hin%list_elem_of_In. apply Hx. apply list_elem_of_In.
  apply in_map_iff in Hin as (y & Hy & Hin). apply filter_In in Hin as [Hin _].
  rewrite <- Hy. apply in_map. exact Hin.
Qed.



Lemma serve_availableSeats (f : Faults) (t : list SeatRow) :
  f (CSelectAvailable (Some 100%nat)) = None ->
  serve f Server.availableSeatsHandler t =
  (json_OK (match take 100 (available_ids t) with
            | [] => JNull
            | ids => JInts ids
            end), t).
Proof.
  intros Hf. unfold serve, Server.availableSeatsHandler. simpl. rewrite Hf. simpl.
  rewrite fold_go_append. unfold sql_select_available. fold (available_ids t).
  destruct (take 100 (available_ids t)); reflexivity.
Qed.

Section Listing.

Variable json_decode : string -> DecodeResult.

Local Opaque String.prefix String.eqb.


End Listing.


(** ** The aggregation of the results *)

Module ClientFacts.
Import Client.

Lemma wrap64_add_l a b : wrap64 (wrap64 a + b) = wrap64 (a + b).
Proof.
  unfold wrap64.
  replace ((a + 2 ^ 63) mod 2 ^ 64 - 2 ^ 63 + b + 2 ^ 63)
    with ((a + 2 ^ 63) mod 2 ^ 64 + b) by lia.
  rewrite Zplus_mod_idemp_l. f_equal. f_equal. lia.
Qed.

Lemma wrap64_small z : - 2^63 <= z < 2^63 -> wrap64 z = z.
Proof. intros H. unfold wrap64. rewrite Z.mod_small; lia. Qed.

Lemma total_latency_app l1 l2 :
  total_latency (l1 ++ l2) = total_latency l1 + total_latency l2.
Proof.
  unfold total_latency. induction l1 as [|x l1 IH]; simpl; [reflexivity|].
  rewrite IH. lia.
Qed.

Lemma classify_cases r :
  (classify r = RequestFailure <-> Duration r = 0) /\
  (classify r = ReservationSuccess <-> Duration r <> 0 /\ StatusCode r = 200) /\
  (classify r = ReservationRejected <-> Duration r <> 0 /\ StatusCode r <> 200).
Proof.
  unfold classify.
  destruct (bool_decide (Duration r = 0)) eqn:Hd.
  - apply bool_decide_eq_true in Hd. repeat split; intros; try tauto; try discriminate.
  - apply bool_decide_eq_false in Hd.
    destruct (bool_decide (StatusCode r = 200)) eqn:Hs.
    + apply bool_decide_eq_true in Hs.
      repeat split; intros; try tauto; try discriminate.
    + apply bool_decide_eq_false in Hs.
      repeat split; intros; try tauto; try discriminate.
Qed.

Lemma of_class_snoc c rs r :
  of_class c (rs ++ [r]) = of_class c rs ++ (if bool_decide (classify r = c) then [r] else []).
Proof. unfold of_class. rewrite List.filter_app. reflexivity. Qed.

Lemma tallied_zero : tallied zero_stats [].
Proof. repeat split. Qed.

Lemma tallied_tally st rs r : tallied st rs -> tallied (tally st r) (rs ++ [r]).
Proof.
  intros (Ha & Hq & Hs & Hst & Hf & Hft).
  pose proof (classify_cases r) as (Hc1 & Hc2 & Hc3).
  unfold tallied. rewrite !of_class_snoc. unfold tally.
  destruct (Duration r =? 0) eqn:Hd.
  - apply Z.eqb_eq in Hd. apply Hc1 in Hd. rewrite Hd. simpl.
    rewrite !app_nil_r, length_app. simpl.
    rewrite Ha, Hq, wrap64_add_l. repeat split; try assumption.
    f_equal. lia.
  - apply Z.eqb_neq in Hd. destruct (StatusCode r =? 200) eqn:Hsc.
    + apply Z.eqb_eq in Hsc. assert (classify r = ReservationSuccess) as -> by tauto.
      simpl. rewrite !app_nil_r, length_app, total_latency_app. simpl.
      rewrite Ha, Hs, Hst, !wrap64_add_l. repeat split; try assumption.
      * f_equal. lia.
      * f_equal. unfold total_latency. simpl. lia.
    + apply Z.eqb_neq in Hsc. assert (classify r = ReservationRejected) as -> by tauto.
      simpl. rewrite !app_nil_r, length_app, total_latency_app. simpl.
      rewrite Ha, Hf, Hft, !wrap64_add_l. repeat split; try assumption.
      * f_equal. lia.
      * f_equal. unfold total_latency. simpl. lia.
Qed.

Lemma tallied_fold rr st rs : tallied st rs -> tallied (fold_left tally rr st) (rs ++ rr).
Proof.
  revert st rs. induction rr as [|r rr IH]; intros st rs H; simpl.
  - rewrite app_nil_r. exact H.
  - replace (rs ++ r :: rr) with ((rs ++ [r]) ++ rr) by (rewrite <- app_assoc; reflexivity).
    apply IH, tallied_tally, H.
Qed.

Lemma tallied_aggregate results : tallied (aggregate results) (concat results).
Proof.
  unfold aggregate.
  assert (forall st rs, tallied st rs ->
            tallied (fold_left (fun st rr => fold_left tally rr st) results st)
                    (rs ++ concat results)) as H.
  { induction results as [|rr results IH]; intros st rs H; simpl.
    - rewrite app_nil_r. exact H.
    - rewrite app_assoc. apply IH, tallied_fold, H. }
  apply (H zero_stats []), tallied_zero.
Qed.

Lemma classes_partition rs :
  length rs = (length (of_class RequestFailure rs)
               + length (of_class ReservationSuccess rs)
               + length (of_class ReservationRejected rs))%nat.
Proof.
  unfold of_class. induction rs as [|r rs IH]; simpl; [reflexivity|].
  destruct (classify r); simpl; lia.
Qed.

(** C4 (amended). After the join, [main] puts every result it receives in
    exactly one of the three classes (no latency recorded; status 200; any
    other status) and holds the count of each class and the total latency of
    the success and of the rejected class, as 64-bit integers.  It computes
    no average and performs no division. *)
Theorem aggregate_counts_and_totals (results : list (list Result)) :
  let st := aggregate results in
  let rs := concat results in
  allResults st = rs /\
  requestFailCount st = wrap64 (Z.of_nat (length (of_class RequestFailure rs))) /\
  successCount st = wrap64 (Z.of_nat (length (of_class ReservationSuccess rs))) /\
  successTotalRTT st = wrap64 (total_latency (of_class ReservationSuccess rs)) /\
  failCount st = wrap64 (Z.of_nat (length (of_class ReservationRejected rs))) /\
  failTotalRTT st = wrap64 (total_latency (of_class ReservationRejected rs)) /\
  length rs = (length (of_class RequestFailure rs)
               + length (of_class ReservationSuccess rs)
               + length (of_class ReservationRejected rs))%nat /\
  (forall r,
     (classify r = RequestFailure <-> Duration r = 0) /\
     (classify r = ReservationSuccess <-> Duration r <> 0 /\ StatusCode r = 200) /\
     (classify r = ReservationRejected <-> Duration r <> 0 /\ StatusCode r <> 200)).
Proof.
  cbv zeta. destruct (tallied_aggregate results) as (H1 & H2 & H3 & H4 & H5 & H6).
  repeat (split; [assumption|]).
  split; [apply classes_partition|apply classify_cases].
Qed.

(** C4, as stated, fails: for two successes of 10 ns and 30 ns the average
    latency of the success class is 20 ns, and no variable of [main] holds
    it; the only latency kept for the class is the total, 40 ns. *)
Lemma aggregate_has_no_average :
  let rs := [mkResult 200 10 None; mkResult 200 30 None] in
  let st := aggregate [rs] in
  guarded_average (total_latency (of_class ReservationSuccess rs))
                  (Z.of_nat (length (of_class ReservationSuccess rs))) = 20 /\
  successCount st = 2 /\ successTotalRTT st = 40 /\
  ~ In 20 [successCount st; successTotalRTT st; failCount st; failTotalRTT st;
           requestFailCount st].
Proof.
  vm_compute. repeat split; try reflexivity.
  intros H. repeat (destruct H as [H|H]; [discriminate H|]). exact H.
Qed.

End ClientFacts.

(** ** What a client records *)

Module SimulatorFacts.
Import Client.

Lemma attempts_kept uid post seats acc :
  attempts uid post seats acc =
  acc ++ List.filter (fun r => negb (dropped r)) (attempts_made uid post seats).
Proof.
  revert acc. induction seats as [|s seats IH]; intros acc; simpl.
  - rewrite app_nil_r. reflexivity.
  - destruct (dropped (tryReserve post (mkReserveRequest uid s))) eqn:Hd; simpl.
    + rewrite Hd. simpl. apply IH.
    + destruct (StatusCode _ =? 200); simpl; rewrite Hd; simpl.
      * reflexivity.
      * rewrite IH, <- app_assoc. reflexivity.
Qed.

Lemma client_loop_kept uid rounds acc out :
  client_loop uid rounds acc = Some out ->
  out = acc ++ List.filter (fun r => negb (dropped r)) (all_attempts uid rounds).
Proof.
  revert acc. induction rounds as [|rd rounds IH]; intros acc; simpl; [discriminate|].
  destruct (fetchAvailableSeats rd) as [seats|]; [|apply IH].
  destruct (length seats =? 0)%nat.
  - intros [= <-]. rewrite app_nil_r. reflexivity.
  - intros H. apply IH in H. rewrite H, attempts_kept, List.filter_app, app_assoc.
    reflexivity.
Qed.


(** What a client sends: its kept attempts, or the one synthetic failure
    when it kept none. *)
Lemma simulateClient_out uid rounds out :
  simulateClient uid rounds = Some out ->
  out = match kept_attempts uid rounds with
        | [] => [no_request_succeeded uid]
        | kept => kept
        end.
Proof.
  unfold simulateClient, kept_attempts.
  destruct (client_loop uid rounds []) as [cur|] eqn:Hl; [|discriminate].
  apply client_loop_kept in Hl. simpl in Hl. rewrite <- Hl.
  destruct cur; simpl; intros [= <-]; reflexivity.
Qed.



Lemma kept_not_request_failure uid rounds r :
  In r (kept_attempts uid rounds) -> Err r = None /\ Duration r <> 0.
Proof.
  unfold kept_attempts. intros [_ H]%filter_In. unfold dropped in H.
  destruct (Err r); [discriminate|]. split; [reflexivity|].
  apply negb_true_iff, Z.eqb_neq in H. exact H.
Qed.

Lemma of_class_kept uid rounds :
  of_class RequestFailure (kept_attempts uid rounds) = [].
Proof.
  unfold of_class.
  assert (forall l, (forall r, In r l -> Duration r <> 0) ->
            List.filter (fun r => bool_decide (classify r = RequestFailure)) l = []) as H.
  { induction l as [|r l IH]; intros Hl; simpl; [reflexivity|].
    rewrite bool_decide_eq_false_2.
    - apply IH. intros r' Hr'. apply Hl. right. exact Hr'.
    - intros Hc. apply ClientFacts.classify_cases in Hc.
      eapply Hl; [left; reflexivity|exact Hc]. }
  apply H. intros r Hr. eapply kept_not_request_failure. exact Hr.
Qed.

Lemma of_class_app c l1 l2 : of_class c (l1 ++ l2) = of_class c l1 ++ of_class c l2.
Proof. unfold of_class. apply List.filter_app. Qed.

(** The request failures a client contributes: one if it kept no attempt,
    none otherwise. *)
Lemma request_failures_of_client uid rounds out :
  simulateClient uid rounds = Some out ->
  length (of_class RequestFailure out) =
  match kept_attempts uid rounds with [] => 1%nat | _ => 0%nat end.
Proof.
  intros H. apply simulateClient_out in H. subst out.
  pose proof (of_class_kept uid rounds) as Hk.
  destruct (kept_attempts uid rounds); [reflexivity|]. rewrite Hk. reflexivity.
Qed.

(** C5 (amended). An attempt that got no response never enters the results
    of its client: what the client sends is the list of its attempts that
    got a response in non-zero time, so only those reach the success and
    rejection statistics, and the transport failures are recorded nowhere.
    The request-failure count of the report is 1 for a client that kept no
    attempt at all (its synthetic record) and 0 for any other client,
    however many of its attempts failed in transport. *)
Theorem transport_failures_not_recorded (uid : Z) (rounds : list Round) (out : list Result) :
  simulateClient uid rounds = Some out ->
  let kept := kept_attempts uid rounds in
  let st := aggregate [out] in
  (forall r, In r kept -> Err r = None /\ Duration r <> 0) /\
  out = match kept with [] => [no_request_succeeded uid] | _ => kept end /\
  successCount st = wrap64 (Z.of_nat (length (of_class ReservationSuccess kept))) /\
  failCount st = wrap64 (Z.of_nat (length (of_class ReservationRejected kept))) /\
  requestFailCount st = match kept with [] => 1 | _ => 0 end.
Proof.
  intros Hsim. cbv zeta.
  pose proof (simulateClient_out _ _ _ Hsim) as Hout.
  pose proof (request_failures_of_client _ _ _ Hsim) as Hrf.
  destruct (ClientFacts.tallied_aggregate [out]) as (_ & Hq & Hs & _ & Hf & _).
  simpl in Hq, Hs, Hf. rewrite app_nil_r in Hq, Hs, Hf.
  split; [apply kept_not_request_failure|].
  rewrite Hs, Hf, Hq, Hrf. subst out.
  destruct (kept_attempts uid rounds) as [|k kept] eqn:Hk; [|auto].
  vm_compute. auto.
Qed.

(** C5, as stated, fails: a client whose first reservation times out and
    whose second one succeeds sends the success alone; the report counts one
    success, no rejection and no request failure, and the timed-out attempt
    appears nowhere. *)
Lemma transport_failure_counted_nowhere :
  let failure := mkResult 0 5000000000 (Some "Client.Timeout exceeded") in
  let rounds :=
    [mkRound (Some [7]) (fun l => l)
       (fun _ => mkPostOutcome (PostErr "Client.Timeout exceeded") 5000000000);
     mkRound (Some [7]) (fun l => l) (fun _ => mkPostOutcome (PostResp 200) 1000000);
     mkRound (Some []) (fun l => l) (fun _ => mkPostOutcome (PostResp 409) 1000000)] in
  In failure (all_attempts 1000 rounds) /\
  simulateClient 1000 rounds = Some [mkResult 200 1000000 None] /\
  let st := aggregate [[mkResult 200 1000000 None]] in
  ~ In failure (allResults st) /\
  successCount st = 1 /\ failCount st = 0 /\ requestFailCount st = 0.
Proof.
  vm_compute. split; [left; reflexivity|]. split; [reflexivity|].
  split; [|auto]. intros [H|[]]. discriminate H.
Qed.





End SimulatorFacts.

(** ** The race for one seat *)

Lemma release_lookup me (lks : gmap Z nat) seat j :
  release me lks !! seat = Some j <-> lks !! seat = Some j /\ j <> me.
Proof. unfold release. rewrite map_lookup_filter_Some. simpl. tauto. Qed.

Lemma lookup_insert_stage (ss : list Stage) i s' j s :
  <[i := s']> ss !! j = Some s -> (j = i /\ s = s') \/ (j <> i /\ ss !! j = Some s).
Proof.
  intros H. apply list_lookup_insert_Some in H as [(-> & -> & _)|[Hne H]]; auto.
Qed.

Lemma total_moves_left_insert (ss : list Stage) i s s' :
  ss !! i = Some s -> (moves_left s' < moves_left s)%nat ->
  (total_moves_left (<[i := s']> ss) < total_moves_left ss)%nat.
Proof.
  unfold total_moves_left. revert i. induction ss as [|x ss IH]; intros i Hi Hlt.
  - discriminate Hi.
  - destruct i as [|i]; simpl in *.
    + injection Hi as ->. lia.
    + specialize (IH i Hi Hlt). lia.
Qed.

Lemma total_moves_left_bound (ss : list Stage) :
  (total_moves_left ss <= 7 * length ss)%nat.
Proof.
  unfold total_moves_left. induction ss as [|s ss IH]; simpl; [lia|].
  destruct s; simpl; lia.
Qed.

Lemma filter_all_same {A} `{EqDecision A} (l : list A) (a b : A) :
  a <> b -> (forall j, (j < length l)%nat -> l !! j = Some b) ->
  List.filter (fun x => bool_decide (x = a)) l = [] /\
  List.filter (fun x => bool_decide (x = b)) l = l.
Proof.
  intros Hab. induction l as [|x l IH]; intros Hl; simpl; [auto|].
  assert (x = b) as -> by (specialize (Hl 0%nat); simpl in Hl; injection Hl; [auto|lia]).
  rewrite bool_decide_eq_false_2 by congruence.
  rewrite bool_decide_eq_true_2 by reflexivity.
  destruct IH as [IH1 IH2].
  { intros j Hj. apply (Hl (S j)). simpl. lia. }
  rewrite IH1, IH2. auto.
Qed.

(** In a list that holds [a] at one place and [b] at every other place,
    [a] occurs once and [b] at all the other places. *)
Lemma one_and_the_rest {A} `{EqDecision A} (l : list A) (w : nat) (a b : A) :
  a <> b -> l !! w = Some a ->
  (forall j, j <> w -> (j < length l)%nat -> l !! j = Some b) ->
  length (List.filter (fun x => bool_decide (x = a)) l) = 1%nat /\
  length (List.filter (fun x => bool_decide (x = b)) l) = (length l - 1)%nat.
Proof.
  intros Hab. revert w. induction l as [|x l IH]; intros w Hw Hl; [discriminate Hw|].
  destruct w as [|w]; simpl in Hw.
  - injection Hw as ->. simpl.
    rewrite bool_decide_eq_true_2 by reflexivity.
    rewrite bool_decide_eq_false_2 by congruence.
    destruct (filter_all_same l a b Hab) as [H1 H2].
    { intros j Hj. apply (Hl (S j)); simpl; lia. }
    rewrite H1, H2. simpl. split; lia.
  - assert (x = b) as -> by (specialize (Hl 0%nat); simpl in Hl; injection Hl; [auto|lia|lia]).
    simpl. rewrite bool_decide_eq_false_2 by congruence.
    rewrite bool_decide_eq_true_2 by reflexivity.
    destruct (IH w Hw) as [H1 H2].
    { intros j Hj Hlt. apply (Hl (S j)); simpl; lia. }
    simpl. rewrite H1, H2.
    assert (w < length l)%nat by (eapply lookup_lt_Some; eauto). split; lia.
Qed.

Section Race.

Variable json_decode : string -> DecodeResult.
Variable seat : Z.
Variable users : list Z.

Local Opaque String.prefix.

(** A request that passes validation starts its handler at [Arrived]. *)
Lemma spawn_reserveHandler (r : Request) (u : Z) :
  accepts_json r = true ->
  json_decode (request_body r) = Decoded (mkTicketRequest u seat) ->
  spawn (Server.reserveHandler json_decode r) = at_stage u seat Arrived.
Proof.
  intros Hct Hdec. unfold Server.reserveHandler. fold (accepts_json r).
  rewrite Hct, Hdec. reflexivity.
Qed.

Lemma threads_ok_move (ss : list Stage) (ths : list Thread) i u s' :
  threads_ok seat users ss ths -> users !! i = Some u ->
  threads_ok seat users (<[i := s']> ss) (<[i := at_stage u seat s']> ths).
Proof.
  intros (Hl1 & Hl2 & Hth) Hu.
  assert (i < length users)%nat as Hi by (eapply lookup_lt_Some; eauto).
  unfold threads_ok. rewrite !length_insert. split; [exact Hl1|]. split; [exact Hl2|].
  intros j u' sj Hu' Hsj. apply lookup_insert_stage in Hsj as [[-> ->]|[Hne Hsj]].
  - rewrite list_lookup_insert_eq by lia. congruence.
  - rewrite list_lookup_insert_ne by auto. eauto.
Qed.

(** The stage changes, the flag [holds_lock] and the locks do not. *)
Lemma lock_ok_same (ss : list Stage) (lks : gmap Z nat) i s s' :
  lock_ok seat ss lks -> ss !! i = Some s -> holds_lock s' = holds_lock s ->
  lock_ok seat (<[i := s']> ss) lks.
Proof.
  intros Hlk Hs Hh j. rewrite (Hlk j).
  assert (i < length ss)%nat as Hi by (eapply lookup_lt_Some; eauto).
  split.
  - intros (sj & Hsj & Hj). destruct (decide (j = i)) as [->|Hne].
    + exists s'. rewrite list_lookup_insert_eq by lia. split; [reflexivity|]. congruence.
    + exists sj. rewrite list_lookup_insert_ne by auto. auto.
  - intros (sj & Hsj & Hj). apply lookup_insert_stage in Hsj as [[-> ->]|[Hne Hsj]].
    + exists s. split; [exact Hs|congruence].
    + eauto.
Qed.

(** A handler that holds no lock takes the lock of the row, which no other
    transaction holds. *)
Lemma lock_ok_acquire (ss : list Stage) (lks : gmap Z nat) i s s' :
  lock_ok seat ss lks -> ss !! i = Some s ->
  lock_free_for i seat lks = true -> holds_lock s' = true ->
  lock_ok seat (<[i := s']> ss) (<[seat := i]> lks).
Proof.
  intros Hlk Hs Hfree Hh j.
  assert (i < length ss)%nat as Hi by (eapply lookup_lt_Some; eauto).
  rewrite lookup_insert_eq. split.
  - intros [= <-]. exists s'. rewrite list_lookup_insert_eq by lia. auto.
  - intros (sj & Hsj & Hj). apply lookup_insert_stage in Hsj as [[-> ->]|[Hne Hsj]];
      [reflexivity|].
    assert (lks !! seat = Some j) as Hlj by (apply Hlk; eauto).
    unfold lock_free_for in Hfree. rewrite Hlj in Hfree.
    apply bool_decide_eq_true in Hfree. congruence.
Qed.

(** The end of a transaction: whatever lock the handler held is released. *)
Lemma lock_ok_release (ss : list Stage) (lks : gmap Z nat) i s' :
  lock_ok seat ss lks -> holds_lock s' = false ->
  lock_ok seat (<[i := s']> ss) (release i lks).
Proof.
  intros Hlk Hh' j. rewrite release_lookup. split.
  - intros [Hlj Hne]. apply Hlk in Hlj as (sj & Hsj & Hj).
    exists sj. rewrite list_lookup_insert_ne by auto. auto.
  - intros (sj & Hsj & Hj). apply lookup_insert_stage in Hsj as [[-> ->]|[Hne Hsj]];
      [congruence|].
    split; [apply Hlk; eauto|exact Hne].
Qed.

Lemma lock_ok_held (ss : list Stage) (lks : gmap Z nat) i s :
  lock_ok seat ss lks -> ss !! i = Some s -> holds_lock s = true ->
  lks !! seat = Some i /\ lock_free_for i seat lks = true /\ <[seat := i]> lks = lks.
Proof.
  intros Hlk Hs Hh.
  assert (lks !! seat = Some i) as Hli by (apply Hlk; eauto).
  split; [exact Hli|]. split.
  - unfold lock_free_for. rewrite Hli. apply bool_decide_eq_true. reflexivity.
  - apply insert_id. exact Hli.
Qed.

(** A handler that has not won changes stage, the rows do not change. *)
Lemma row_ok_move (ss : list Stage) (rws : list SeatRow) i s s' :
  row_ok seat users ss rws -> ss !! i = Some s ->
  has_won s = false -> has_won s' = false ->
  (forall row, find_row seat rws = Some row -> status row = "available" ->
     saw_reserved s' = false) ->
  (forall row, find_row seat rws = Some row -> status row = "reserved" ->
     is_writer s' = false) ->
  row_ok seat users (<[i := s']> ss) rws.
Proof.
  intros Hrow Hs Hw Hw' Ha Hb.
  destruct Hrow as [(row & Hrow & Hst & Hall)|(wn & uw & sw & Huw & Hsw & Hwon & Hrow & Hall)].
  - left. exists row. split; [exact Hrow|]. split; [exact Hst|].
    intros j sj Hsj. apply lookup_insert_stage in Hsj as [[-> ->]|[Hne Hsj]]; [|eauto].
    split; [exact Hw'|]. eapply Ha; eauto.
  - right. assert (wn <> i) as Hne by (intros ->; congruence).
    exists wn, uw, sw. rewrite list_lookup_insert_ne by auto.
    split; [exact Huw|]. split; [exact Hsw|]. split; [exact Hwon|]. split; [exact Hrow|].
    intros j sj Hj Hsj. apply lookup_insert_stage in Hsj as [[-> ->]|[Hne' Hsj]]; [|eauto].
    split; [exact Hw'|]. eapply Hb; eauto.
Qed.

(** The winner returns. *)
Lemma row_ok_return (ss : list Stage) (rws : list SeatRow) i :
  row_ok seat users ss rws -> ss !! i = Some Committed ->
  row_ok seat users (<[i := Granted]> ss) rws.
Proof.
  intros Hrow Hs.
  assert (i < length ss)%nat as Hi by (eapply lookup_lt_Some; eauto).
  destruct Hrow as [(row & Hrow & Hst & Hall)|(wn & uw & sw & Huw & Hsw & Hwon & Hrow & Hall)].
  - destruct (Hall i Committed Hs) as [Hw _]. discriminate Hw.
  - right. destruct (decide (wn = i)) as [->|Hne].
    + exists i, uw, Granted. rewrite list_lookup_insert_eq by lia.
      split; [exact Huw|]. split; [reflexivity|]. split; [reflexivity|].
      split; [exact Hrow|].
      intros j sj Hj Hsj. rewrite list_lookup_insert_ne in Hsj by auto. eauto.
    + destruct (Hall i Committed (not_eq_sym Hne) Hs) as [Hw _]. discriminate Hw.
Qed.

(** The holder of the lock commits its update: it is the winner. *)
Lemma row_ok_commit (ss : list Stage) (rws : list SeatRow) (lks : gmap Z nat) i u :
  row_ok seat users ss rws -> lock_ok seat ss lks ->
  users !! i = Some u -> ss !! i = Some Updated ->
  row_ok seat users (<[i := Committed]> ss) (sql_update_reserve u seat rws).
Proof.
  intros Hrow Hlk Hu Hs.
  assert (i < length ss)%nat as Hi by (eapply lookup_lt_Some; eauto).
  destruct (lock_ok_held _ _ _ _ Hlk Hs eq_refl) as (Hli & _ & _).
  right. exists i, u, Committed. rewrite list_lookup_insert_eq by lia.
  split; [exact Hu|]. split; [reflexivity|]. split; [reflexivity|].
  destruct Hrow as [(row & Hrow & Hst & Hall)|(wn & uw & sw & Huw & Hsw & Hwon & Hrow & Hall)].
  - split; [eapply find_row_update_same; exact Hrow|].
    intros j sj Hj Hsj. rewrite list_lookup_insert_ne in Hsj by auto.
    split; [eapply Hall; exact Hsj|].
    destruct (is_writer sj) eqn:Hwr; [|reflexivity].
    assert (lks !! seat = Some j) as Hlj.
    { apply Hlk. exists sj. split; [exact Hsj|]. destruct sj; try discriminate; reflexivity. }
    congruence.
  - destruct (decide (i = wn)) as [->|Hne].
    + rewrite Hs in Hsw. injection Hsw as <-. discriminate Hwon.
    + destruct (Hall i Updated Hne Hs) as [_ Hwr]. discriminate Hwr.
Qed.

Lemma writer_row_available (ss : list Stage) (rws : list SeatRow) i s :
  row_ok seat users ss rws -> ss !! i = Some s -> is_writer s = true ->
  exists row, find_row seat rws = Some row /\ status row = "available".
Proof.
  intros [(row & Hrow & Hst & _)|(wn & uw & sw & _ & Hsw & Hwon & _ & Hall)] Hs Hwr; [eauto|].
  destruct (decide (i = wn)) as [->|Hne].
  - rewrite Hs in Hsw. injection Hsw as <-. destruct s; discriminate.
  - destruct (Hall i s Hne Hs) as [_ H]. congruence.
Qed.

Lemma loser_row_reserved (ss : list Stage) (rws : list SeatRow) i s :
  row_ok seat users ss rws -> ss !! i = Some s -> saw_reserved s = true ->
  exists u, find_row seat rws = Some (mkSeatRow seat "reserved" (Some u)).
Proof.
  intros [(row & _ & _ & Hall)|(wn & uw & sw & _ & _ & _ & Hrow & _)] Hs Hsr; [|eauto].
  destruct (Hall i s Hs) as [_ H]. congruence.
Qed.

Lemma row_ok_found (ss : list Stage) (rws : list SeatRow) :
  row_ok seat users ss rws ->
  exists row, find_row seat rws = Some row /\
              (status row = "available" \/ status row = "reserved").
Proof.
  intros [(row & Hrow & Hst & _)|(wn & uw & sw & _ & _ & _ & Hrow & _)]; eauto.
Qed.

Lemma stage_of_thread (ss : list Stage) (w : World) i th :
  race_inv seat users ss w -> threads w !! i = Some th ->
  exists u s, users !! i = Some u /\ ss !! i = Some s /\ th = at_stage u seat s.
Proof.
  intros [(Hl1 & Hl2 & Hth) _ _] Hti.
  assert (i < length users)%nat as Hi by (rewrite <- Hl2; eapply lookup_lt_Some; eauto).
  destruct (lookup_lt_is_Some_2 users i Hi) as [u Hu].
  destruct (lookup_lt_is_Some_2 ss i) as [s Hs]; [lia|].
  exists u, s. split; [exact Hu|]. split; [exact Hs|].
  specialize (Hth i u s Hu Hs). congruence.
Qed.

Section Moves.

Variable f : nat -> Faults.

Ltac reduce_step H :=
  unfold thread_step, scan_status, at_stage, continue_with,
    on_begin, on_select, on_update, on_commit in H;
  cbn [prog ttx tdeferred apply_writes fold_left app] in H.

Ltac moved Hs :=
  split; [exact Hs|]; split; [simpl; lia|].

(* the move follows a call that succeeded, or one that the oracle makes fail *)
Ltac stays_clean Hf :=
  first [ intros _ _; reflexivity
        | intros Hnf _; rewrite Hnf in Hf; discriminate Hf ].

(* the move makes no call *)
Ltac no_call :=
  first [ intros _ _; reflexivity | intros _ Hc; discriminate Hc ].

(** One move of one handler keeps the invariant and uses up at least one
    of the moves its stage had left; when the handler's database calls do
    not fail, it does not enter a failure stage. *)
Lemma race_step (ss : list Stage) (w w' : World) i :
  race_inv seat users ss w ->
  step f i w = Some w' ->
  exists s s', ss !! i = Some s /\ (moves_left s' < moves_left s)%nat /\
               race_inv seat users (<[i := s']> ss) w' /\
               ((forall c, f i c = None) -> has_failed s = false -> has_failed s' = false).
Proof.
  intros Hinv Hstep. unfold step in Hstep.
  destruct (threads w !! i) as [th|] eqn:Hti; [|discriminate].
  destruct (stage_of_thread _ _ _ _ Hinv Hti) as (u & s & Hu & Hs & ->).
  destruct Hinv as [Hth Hlk Hrow].
  destruct s; reduce_step Hstep.
  - (* Arrived *)
    destruct (f i CBegin) as [e|] eqn:Hf; injection Hstep as <-.
    + exists Arrived, (BeginFailed e). moved Hs. split; [|stays_clean Hf].
      split; simpl.
      * apply (threads_ok_move _ _ _ _ (BeginFailed e) Hth Hu).
      * eapply lock_ok_same; eauto.
      * eapply row_ok_move; eauto.
    + exists Arrived, Begun. moved Hs. split; [|stays_clean Hf].
      split; simpl.
      * apply (threads_ok_move _ _ _ _ Begun Hth Hu).
      * eapply lock_ok_same; eauto.
      * eapply row_ok_move; eauto.
  - (* Begun *)
    injection Hstep as <-. exists Begun, Selecting. moved Hs. split; [|no_call].
    split; simpl.
    + apply (threads_ok_move _ _ _ _ Selecting Hth Hu).
    + eapply lock_ok_same; eauto.
    + eapply row_ok_move; eauto.
  - (* Selecting *)
    destruct (f i (CSelectForUpdate seat)) as [e|] eqn:Hf.
    { injection Hstep as <-. exists Selecting, (SelectFailed e). moved Hs.
      split; [|stays_clean Hf]. split; simpl.
      - apply (threads_ok_move _ _ _ _ (SelectFailed e) Hth Hu).
      - eapply lock_ok_same; eauto.
      - eapply row_ok_move; eauto. }
    destruct (row_ok_found _ _ Hrow) as (row & Hfind & Hst).
    rewrite Hfind in Hstep.
    destruct (lock_free_for i seat (locks w)) eqn:Hfree; [|discriminate].
    injection Hstep as <-. destruct Hst as [Hst|Hst]; rewrite Hst.
    + exists Selecting, Holding. moved Hs. split; [|stays_clean Hf].
      split; simpl.
      * apply (threads_ok_move _ _ _ _ Holding Hth Hu).
      * eapply lock_ok_acquire; eauto.
      * eapply row_ok_move; eauto. intros row' Hfind' Hst'. congruence.
    + exists Selecting, Lost. moved Hs. split; [|stays_clean Hf].
      split; simpl.
      * apply (threads_ok_move _ _ _ _ Lost Hth Hu).
      * eapply lock_ok_acquire; eauto.
      * eapply row_ok_move; eauto. intros row' Hfind' Hst'. congruence.
  - (* Holding *)
    destruct (f i (CUpdate u seat)) as [e|] eqn:Hf.
    { injection Hstep as <-. exists Holding, (UpdateFailed e). moved Hs.
      split; [|stays_clean Hf]. split; simpl.
      - apply (threads_ok_move _ _ _ _ (UpdateFailed e) Hth Hu).
      - eapply lock_ok_same; eauto.
      - eapply row_ok_move; eauto. }
    destruct (writer_row_available _ _ _ _ Hrow Hs eq_refl) as (row & Hfind & Hst).
    destruct (lock_ok_held _ _ _ _ Hlk Hs eq_refl) as (_ & Hfree & Hid).
    rewrite Hfind, Hfree, Hid in Hstep. injection Hstep as <-.
    exists Holding, Updated. moved Hs. split; [|stays_clean Hf].
    split; simpl.
    + apply (threads_ok_move _ _ _ _ Updated Hth Hu).
    + eapply lock_ok_same; eauto.
    + eapply row_ok_move; eauto. intros row' Hfind' Hst'. congruence.
  - (* Updated *)
    destruct (f i CCommit) as [e|] eqn:Hf; injection Hstep as <-.
    + exists Updated, (CommitFailed e). moved Hs. split; [|stays_clean Hf].
      split; simpl.
      * apply (threads_ok_move _ _ _ _ (CommitFailed e) Hth Hu).
      * eapply lock_ok_release; eauto.
      * eapply row_ok_move; eauto.
    + exists Updated, Committed. moved Hs. split; [|stays_clean Hf].
      split; simpl.
      * apply (threads_ok_move _ _ _ _ Committed Hth Hu).
      * eapply lock_ok_release; eauto.
      * eapply row_ok_commit; eauto.
  - (* Committed *)
    injection Hstep as <-. exists Committed, Granted. moved Hs. split; [|no_call].
    split; simpl.
    + apply (threads_ok_move _ _ _ _ Granted Hth Hu).
    + eapply lock_ok_same; eauto.
    + eapply row_ok_return; eauto.
  - (* Granted *) discriminate.
  - (* Lost *)
    injection Hstep as <-. exists Lost, Rejected. moved Hs. split; [|no_call].
    split; simpl.
    + apply (threads_ok_move _ _ _ _ Rejected Hth Hu).
    + eapply lock_ok_release; eauto.
    + destruct (loser_row_reserved _ _ _ _ Hrow Hs eq_refl) as (uw & Hfind).
      eapply row_ok_move; eauto. intros row' Hfind' Hst'.
      rewrite Hfind in Hfind'. injection Hfind' as <-. discriminate Hst'.
  - (* Rejected *) discriminate.
  - (* BeginFailed *)
    injection Hstep as <-. exists (BeginFailed e), Unbegun. moved Hs.
    split; [|no_call]. split; simpl.
    + apply (threads_ok_move _ _ _ _ Unbegun Hth Hu).
    + eapply lock_ok_same; eauto.
    + eapply row_ok_move; eauto.
  - (* Unbegun *) discriminate.
  - (* SelectFailed *)
    injection Hstep as <-. exists (SelectFailed e), Aborting. moved Hs.
    split; [|no_call]. split; simpl.
    + apply (threads_ok_move _ _ _ _ Aborting Hth Hu).
    + eapply lock_ok_same; eauto.
    + eapply row_ok_move; eauto.
  - (* Aborting *)
    injection Hstep as <-. exists Aborting, Failed. moved Hs.
    split; [|no_call]. split; simpl.
    + apply (threads_ok_move _ _ _ _ Failed Hth Hu).
    + eapply lock_ok_release; eauto.
    + eapply row_ok_move; eauto.
  - (* UpdateFailed *)
    injection Hstep as <-. exists (UpdateFailed e), AbortingHeld. moved Hs.
    split; [|no_call]. split; simpl.
    + apply (threads_ok_move _ _ _ _ AbortingHeld Hth Hu).
    + eapply lock_ok_same; eauto.
    + eapply row_ok_move; eauto.
  - (* AbortingHeld *)
    injection Hstep as <-. exists AbortingHeld, Failed. moved Hs.
    split; [|no_call]. split; simpl.
    + apply (threads_ok_move _ _ _ _ Failed Hth Hu).
    + eapply lock_ok_release; eauto.
    + eapply row_ok_move; eauto.
  - (* CommitFailed *)
    injection Hstep as <-. exists (CommitFailed e), AbortingDone. moved Hs.
    split; [|no_call]. split; simpl.
    + apply (threads_ok_move _ _ _ _ AbortingDone Hth Hu).
    + eapply lock_ok_same; eauto.
    + eapply row_ok_move; eauto.
  - (* AbortingDone *)
    injection Hstep as <-. exists AbortingDone, Failed. moved Hs.
    split; [|no_call]. split; simpl.
    + apply (threads_ok_move _ _ _ _ Failed Hth Hu).
    + eapply lock_ok_same; eauto.
    + eapply row_ok_move; eauto.
  - (* Failed *) discriminate.
Qed.

(** A whole schedule keeps the invariant, and is no longer than the moves
    the handlers had left. *)
Lemma race_exec (sched : list nat) (ss : list Stage) (w w' : World) :
  race_inv seat users ss w ->
  exec f sched w = Some w' ->
  exists ss', race_inv seat users ss' w' /\
              (length sched + total_moves_left ss' <= total_moves_left ss)%nat /\
              (never_fails f -> Forall (fun s => has_failed s = false) ss ->
               Forall (fun s => has_failed s = false) ss').
Proof.
  revert ss w. induction sched as [|i sched IH]; intros ss w Hinv Hex; simpl in Hex.
  - injection Hex as <-. exists ss. split; [exact Hinv|]. split; [simpl; lia|auto].
  - destruct (step f i w) as [w1|] eqn:Hstep; [|discriminate].
    destruct (race_step _ _ _ _ Hinv Hstep) as (s & s' & Hs & Hlt & Hinv1 & Hclean).
    destruct (IH _ _ Hinv1 Hex) as (ss' & Hinv' & Hlen & Hclean').
    exists ss'. split; [exact Hinv'|]. split.
    + pose proof (total_moves_left_insert ss i s s' Hs Hlt). simpl. lia.
    + intros Hnf Hall. apply Hclean'; [exact Hnf|].
      apply Forall_insert; [exact Hall|].
      apply Hclean; [intros c; apply Hnf|].
      eapply Forall_lookup in Hall; [exact Hall|exact Hs].
Qed.

(** A handler that has not returned can move, unless it waits for the lock
    of the row. *)
Lemma stage_can_move (ss : list Stage) (w : World) i u s :
  race_inv seat users ss w ->
  users !! i = Some u -> ss !! i = Some s -> has_returned s = false ->
  lock_free_for i seat (locks w) = true ->
  is_Some (step f i w).
Proof.
  intros [Hth Hlk Hrow] Hu Hs Hret Hfree.
  destruct Hth as (_ & _ & Hth). specialize (Hth i u s Hu Hs).
  unfold step. rewrite Hth.
  destruct (row_ok_found _ _ Hrow) as (row & Hfind & _).
  destruct s; try discriminate Hret;
    unfold thread_step, scan_status, at_stage, continue_with,
      on_begin, on_select, on_update, on_commit;
    cbn [prog ttx tdeferred apply_writes fold_left app];
    rewrite ?Hfind, ?Hfree;
    repeat match goal with
           | |- context [f i ?c] => destruct (f i c)
           end;
    rewrite ?Hfind, ?Hfree; eauto.
Qed.

(** No deadlock: either all handlers have returned or one of them can
    move. *)
Lemma race_no_deadlock (ss : list Stage) (w : World) :
  race_inv seat users ss w ->
  all_finished w \/ exists i, is_Some (step f i w).
Proof.
  intros Hinv.
  destruct (inv_threads _ _ _ _ Hinv) as (Hl1 & Hl2 & Hth).
  destruct (locks w !! seat) as [h|] eqn:Hl.
  - right. exists h.
    destruct (proj1 (inv_lock _ _ _ _ Hinv h) Hl) as (s & Hs & Hh).
    destruct (lookup_lt_is_Some_2 users h) as [u Hu].
    { rewrite <- Hl1. eapply lookup_lt_Some. exact Hs. }
    eapply stage_can_move; eauto.
    + destruct s; try discriminate Hh; reflexivity.
    + unfold lock_free_for. rewrite Hl. apply bool_decide_eq_true. reflexivity.
  - destruct (decide (Forall (fun s => has_returned s = true) ss)) as [Hall|Hex].
    + left. unfold all_finished. apply Forall_lookup. intros i th Hti.
      destruct (stage_of_thread _ _ _ _ Hinv Hti) as (u & s & Hu & Hs & ->).
      eapply Forall_lookup in Hall; [|exact Hs].
      destruct s; try discriminate Hall; simpl; eauto.
    + right. apply not_Forall_Exists in Hex; [|apply _].
      apply Exists_exists in Hex as (s & Hin & Hret). simpl in Hret.
      apply list_elem_of_lookup in Hin as [i Hs].
      destruct (lookup_lt_is_Some_2 users i) as [u Hu].
      { rewrite <- Hl1. eapply lookup_lt_Some. exact Hs. }
      exists i. eapply stage_can_move; eauto.
      * destruct (has_returned s); [contradiction|reflexivity].
      * unfold lock_free_for. rewrite Hl. reflexivity.
Qed.

(** Every state of the race can be run to the end. *)
Lemma race_completes (ss : list Stage) (w : World) :
  race_inv seat users ss w ->
  exists sched w', exec f sched w = Some w' /\ all_finished w'.
Proof.
  remember (total_moves_left ss) as n eqn:Hn. revert ss w Hn.
  induction n as [n IH] using lt_wf_ind. intros ss w Hn Hinv.
  destruct (race_no_deadlock _ _ Hinv) as [Hfin|[i [w1 Hstep]]].
  - exists [], w. auto.
  - destruct (race_step _ _ _ _ Hinv Hstep) as (s & s' & Hs & Hlt & Hinv1 & _).
    pose proof (total_moves_left_insert ss i s s' Hs Hlt) as Hdec.
    destruct (IH (total_moves_left (<[i := s']> ss)) ltac:(lia) _ _ eq_refl Hinv1)
      as (sched & w' & Hex & Hfin).
    exists (i :: sched), w'. simpl. rewrite Hstep. auto.
Qed.

End Moves.

(** The stage of a handler that has returned, by its response. *)
Lemma returned_stage (ss : list Stage) (w : World) i u s :
  race_inv seat users ss w -> all_finished w ->
  users !! i = Some u -> ss !! i = Some s ->
  has_returned s = true /\ responses w !! i = Some (finished (at_stage u seat s)).
Proof.
  intros Hinv Hfin Hu Hs. destruct (inv_threads _ _ _ _ Hinv) as (_ & _ & Hth).
  specialize (Hth i u s Hu Hs). split.
  - eapply Forall_lookup in Hfin; [|exact Hth].
    destruct s; simpl in Hfin; try reflexivity; destruct Hfin; discriminate.
  - unfold responses. rewrite list_lookup_fmap, Hth. reflexivity.
Qed.

(** When all have returned, whatever calls failed: either nobody won, the
    seat is still available and every handler answered 500; or exactly one
    handler won, the seat is reserved for its user, and every other handler
    answered 409 or 500. *)
Lemma race_outcome (ss : list Stage) (w : World) :
  race_inv seat users ss w -> all_finished w ->
  (exists row, find_row seat (rows w) = Some row /\ status row = "available" /\
     forall j, (j < length users)%nat ->
       responses w !! j = Some (Some internal_server_error))
  \/
  (exists winner u,
     users !! winner = Some u /\
     responses w !! winner = Some (Some reservation_successful) /\
     find_row seat (rows w) = Some (mkSeatRow seat "reserved" (Some u)) /\
     forall j, j <> winner -> (j < length users)%nat ->
       responses w !! j = Some (Some seat_already_reserved) \/
       responses w !! j = Some (Some internal_server_error)).
Proof.
  intros Hinv Hfin.
  destruct (inv_threads _ _ _ _ Hinv) as (Hl1 & _ & _).
  destruct (inv_row _ _ _ _ Hinv)
    as [(row & Hrow & Hst & Hall)|(wn & uw & sw & Huw & Hsw & Hwon & Hrow & Hall)].
  - left. exists row. split; [exact Hrow|]. split; [exact Hst|].
    intros j Hlt.
    destruct (lookup_lt_is_Some_2 users j Hlt) as [u Hu].
    destruct (lookup_lt_is_Some_2 ss j) as [s Hs]; [lia|].
    destruct (returned_stage _ _ _ _ _ Hinv Hfin Hu Hs) as [Hr Hresp].
    destruct (Hall _ _ Hs) as [Hw Hsr].
    rewrite Hresp. destruct s; try discriminate; reflexivity.
  - right. exists wn, uw. split; [exact Huw|].
    destruct (returned_stage _ _ _ _ _ Hinv Hfin Huw Hsw) as [Hr Hresp]. split.
    + rewrite Hresp. destruct sw; try discriminate; reflexivity.
    + split; [exact Hrow|].
      intros j Hj Hlt.
      destruct (lookup_lt_is_Some_2 users j Hlt) as [u Hu].
      destruct (lookup_lt_is_Some_2 ss j) as [s Hs]; [lia|].
      destruct (returned_stage _ _ _ _ _ Hinv Hfin Hu Hs) as [Hr' Hresp'].
      destruct (Hall _ _ Hj Hs) as [Hw _].
      rewrite Hresp'. destruct s; try discriminate; auto.
Qed.

(** When all have returned and no call has failed, one has won and all the
    others have lost. *)
Lemma race_outcome_clean (ss : list Stage) (w : World) :
  race_inv seat users ss w -> all_finished w -> (1 <= length users)%nat ->
  Forall (fun s => has_failed s = false) ss ->
  exists winner u,
    users !! winner = Some u /\
    responses w !! winner = Some (Some reservation_successful) /\
    (forall j, j <> winner -> (j < length users)%nat ->
       responses w !! j = Some (Some seat_already_reserved)) /\
    find_row seat (rows w) = Some (mkSeatRow seat "reserved" (Some u)).
Proof.
  intros Hinv Hfin Hn Hclean.
  destruct (inv_threads _ _ _ _ Hinv) as (Hl1 & _ & _).
  destruct (inv_row _ _ _ _ Hinv)
    as [(row & _ & _ & Hall)|(wn & uw & sw & Huw & Hsw & Hwon & Hrow & Hall)].
  - exfalso.
    destruct (lookup_lt_is_Some_2 users 0%nat) as [u Hu]; [lia|].
    destruct (lookup_lt_is_Some_2 ss 0%nat) as [s Hs]; [lia|].
    destruct (returned_stage _ _ _ _ _ Hinv Hfin Hu Hs) as [Hr _].
    destruct (Hall _ _ Hs) as [Hw Hsr].
    eapply Forall_lookup in Hclean; [|exact Hs].
    destruct s; discriminate.
  - exists wn, uw. split; [exact Huw|].
    destruct (returned_stage _ _ _ _ _ Hinv Hfin Huw Hsw) as [Hr Hresp]. split.
    + rewrite Hresp. destruct sw; try discriminate; reflexivity.
    + split; [|exact Hrow].
      intros j Hj Hlt.
      destruct (lookup_lt_is_Some_2 users j Hlt) as [u Hu].
      destruct (lookup_lt_is_Some_2 ss j) as [s Hs]; [lia|].
      destruct (returned_stage _ _ _ _ _ Hinv Hfin Hu Hs) as [Hr' Hresp'].
      destruct (Hall _ _ Hj Hs) as [Hw _].
      eapply Forall_lookup in Hclean; [|exact Hs].
      rewrite Hresp'. destruct s; try discriminate; reflexivity.
Qed.

(** The handlers of validated requests for [seat], started together on a
    table where the seat is available, satisfy the invariant. *)
Lemma race_start (t : list SeatRow) (row : SeatRow) (reqs : list Request) :
  find_row seat t = Some row -> status row = "available" ->
  Forall2 (fun r u => accepts_json r = true /\
                      json_decode (request_body r) = Decoded (mkTicketRequest u seat))
          reqs users ->
  race_inv seat users (List.map (fun _ => Arrived) users)
    (serve_concurrently t (List.map (Server.reserveHandler json_decode) reqs)).
Proof.
  intros Hfind Hst Hreqs. pose proof (Forall2_length _ _ _ Hreqs) as Hlen.
  split; simpl.
  - unfold threads_ok. rewrite !length_map. split; [reflexivity|]. split; [exact Hlen|].
    intros i u s Hu Hs. rewrite list_lookup_fmap, Hu in Hs. injection Hs as <-.
    destruct (Forall2_lookup_r _ _ _ _ _ Hreqs Hu) as (r & Hr & Hct & Hdec).
    rewrite !list_lookup_fmap, Hr. simpl. f_equal.
    apply spawn_reserveHandler; assumption.
  - intros i. rewrite lookup_empty. split; [discriminate|].
    intros (s & Hs & Hh). rewrite list_lookup_fmap in Hs.
    destruct (users !! i); simpl in Hs; [|discriminate].
    injection Hs as <-. discriminate Hh.
  - left. exists row. split; [exact Hfind|]. split; [exact Hst|].
    intros i s Hs. rewrite list_lookup_fmap in Hs.
    destruct (users !! i); simpl in Hs; [|discriminate].
    injection Hs as <-. auto.
Qed.

Lemma total_moves_left_start :
  total_moves_left (List.map (fun _ => Arrived) users) = (7 * length users)%nat.
Proof. unfold total_moves_left. induction users as [|u us IH]; simpl in *; lia. Qed.

Lemma start_is_clean :
  Forall (fun s => has_failed s = false) (List.map (fun _ => Arrived) users).
Proof. apply Forall_forall. intros s (u & -> & _)%list_elem_of_fmap. reflexivity. Qed.

End Race.

Section RaceClaim.

Variable json_decode : string -> DecodeResult.

(** C1. Handlers of N >= 1 validated requests for the same seat, by users
    [users], are started together on a table where the seat is available.
    Under every schedule and every pattern of database failures: the run is
    at most 7 N moves long; as long as some handler has not returned, some
    handler can move; and once all have returned, at most one handler has
    answered 200, the row is reserved for that handler's user if there is
    one and still available if not.  When no database call fails, exactly
    one handler, the winner, has answered 200 with the message
    "Reservation successful", all the N - 1 others have answered 409, and
    the row of the seat is reserved with the winner's user as owner. *)
Theorem race_for_one_seat (f : nat -> Faults) (seat : Z) (users : list Z)
    (reqs : list Request) (t : list SeatRow) (row : SeatRow) (sched : list nat)
    (w' : World) :
  find_row seat t = Some row -> status row = "available" ->
  Forall2 (fun r u => accepts_json r = true /\
                      json_decode (request_body r) = Decoded (mkTicketRequest u seat))
          reqs users ->
  (1 <= length reqs)%nat ->
  exec f sched
    (serve_concurrently t (List.map (Server.reserveHandler json_decode) reqs)) = Some w' ->
  (length sched <= 7 * length reqs)%nat /\
  (all_finished w' \/ exists i, is_Some (step f i w')) /\
  (all_finished w' ->
   ((exists row', find_row seat (rows w') = Some row' /\ status row' = "available" /\
       forall j, (j < length reqs)%nat ->
         responses w' !! j = Some (Some (http_Error "internal server error" 500)))
    \/
    (exists winner u,
       users !! winner = Some u /\
       responses w' !! winner =
         Some (Some (json_OK (JObject [("message", "Reservation successful")]))) /\
       find_row seat (rows w') = Some (mkSeatRow seat "reserved" (Some u)) /\
       forall j, j <> winner -> (j < length reqs)%nat ->
         responses w' !! j = Some (Some (http_Error "Seat already reserved" 409)) \/
         responses w' !! j = Some (Some (http_Error "internal server error" 500)))) /\
   (never_fails f ->
    exists winner u,
      users !! winner = Some u /\
      responses w' !! winner =
        Some (Some (json_OK (JObject [("message", "Reservation successful")]))) /\
      (forall j, j <> winner -> (j < length reqs)%nat ->
         responses w' !! j = Some (Some (http_Error "Seat already reserved" 409))) /\
      find_row seat (rows w') = Some (mkSeatRow seat "reserved" (Some u)) /\
      count_responses (json_OK (JObject [("message", "Reservation successful")])) w' = 1%nat /\
      count_responses (http_Error "Seat already reserved" 409) w' = (length reqs - 1)%nat)).
Proof.
  intros Hfind Hst Hreqs Hn Hex.
  pose proof (Forall2_length _ _ _ Hreqs) as Hlen.
  pose proof (race_start json_decode seat users t row reqs Hfind Hst Hreqs) as Hinv.
  destruct (race_exec _ _ _ _ _ _ _ Hinv Hex) as (ss' & Hinv' & Hbound & Hclean).
  rewrite total_moves_left_start in Hbound.
  split; [lia|]. split; [eapply race_no_deadlock; exact Hinv'|].
  intros Hfin. rewrite Hlen. split; [eapply race_outcome; eauto|].
  intros Hnf.
  destruct (race_outcome_clean _ _ _ _ Hinv' Hfin ltac:(lia)
              (Hclean Hnf (start_is_clean users)))
    as (wn & u & Hu & Hw & Hrest & Hrow).
  exists wn, u. split; [exact Hu|]. split; [exact Hw|]. split; [exact Hrest|].
  split; [exact Hrow|].
  assert (length (responses w') = length users) as Hlr.
  { unfold responses. rewrite length_map.
    destruct (inv_threads _ _ _ _ Hinv') as (_ & Hl2 & _). exact Hl2. }
  unfold count_responses. rewrite <- Hlr.
  apply (one_and_the_rest (responses w') wn
           (Some reservation_successful) (Some seat_already_reserved)).
  - discriminate.
  - exact Hw.
  - intros j Hj Hlt. apply Hrest; [exact Hj|lia].
Qed.

End RaceClaim.

(** ** One handler scheduled alone *)

Lemma only_mine_free lks seat : only_mine lks -> lock_free_for 0 seat lks = true.
Proof.
  intros H. unfold lock_free_for. destruct (lks !! seat) as [v|] eqn:E; [|reflexivity].
  apply bool_decide_eq_true. eapply H. exact E.
Qed.

Lemma only_mine_insert lks seat : only_mine lks -> only_mine (<[seat := 0%nat]> lks).
Proof.
  intros H k v. rewrite lookup_insert. destruct (decide (seat = k)); [congruence|apply H].
Qed.

Lemma only_mine_release lks : only_mine lks -> only_mine (release 0 lks).
Proof. intros H k v [Hk _]%release_lookup. eapply H. exact Hk. Qed.

Lemma exec_alone_step f n w w1 :
  step (fun _ => f) 0 w = Some w1 ->
  exec (fun _ => f) (repeat 0%nat (S n)) w = exec (fun _ => f) (repeat 0%nat n) w1.
Proof. intros H. simpl. rewrite H. reflexivity. Qed.

(** The two interpreters agree: a handler that is alone in the world moves
    to its return without ever waiting, and returns what [run] says,
    leaving the rows [run] says. *)
Lemma alone_agrees_with_run (f : Faults) (p : Prog Response) :
  forall rws lks tx d lg cs,
    only_mine lks ->
    exists n w',
      exec (fun _ => f) (repeat 0%nat n) (mkWorld rws lks [mkThread p tx d]) = Some w' /\
      all_finished w' /\
      responses w' = [Some (fst (run f p (mkConn rws tx d lg cs)))] /\
      rows w' = table (snd (run f p (mkConn rws tx d lg cs))) /\
      only_mine (locks w').
Proof.
  induction p as [a|l k IH|k IH|k IH|seat k IH|user seat k IH|k IH|limit k IH|k IH|seat k IH];
    intros rws lks tx d lg cs Hm.
  - (* Ret *)
    destruct d.
    + destruct tx as [|ws|].
      * exists 1%nat. eexists. split; [reflexivity|]. simpl.
        repeat split; auto. repeat constructor. simpl. eauto.
      * exists 1%nat. eexists. split; [reflexivity|]. simpl.
        repeat split; auto using only_mine_release. repeat constructor. simpl. eauto.
      * exists 1%nat. eexists. split; [reflexivity|]. simpl.
        repeat split; auto. repeat constructor. simpl. eauto.
    + exists 0%nat. eexists. split; [reflexivity|]. simpl.
      repeat split; auto. repeat constructor. simpl. eauto.
  - (* Log *)
    destruct (IH rws lks tx d (lg ++ [l]) cs Hm) as (n & w' & Hex & Hrest).
    exists (S n), w'. split; [|exact Hrest].
    erewrite exec_alone_step; [exact Hex|reflexivity].
  - (* Defer_Rollback *)
    destruct (IH rws lks tx true lg cs Hm) as (n & w' & Hex & Hrest).
    exists (S n), w'. split; [|exact Hrest].
    erewrite exec_alone_step; [exact Hex|reflexivity].
  - (* Tx_Begin *)
    simpl. destruct (f CBegin) as [e|] eqn:Hf.
    + destruct (IH (Some e) rws lks tx d lg (cs ++ [CBegin]) Hm) as (n & w' & Hex & Hrest).
      exists (S n), w'. split; [|exact Hrest].
      erewrite exec_alone_step; [exact Hex|]. unfold step, thread_step, continue_with. simpl. rewrite Hf. reflexivity.
    + destruct (IH None rws lks (TxOpen []) d lg (cs ++ [CBegin]) Hm)
        as (n & w' & Hex & Hrest).
      exists (S n), w'. split; [|exact Hrest].
      erewrite exec_alone_step; [exact Hex|]. unfold step, thread_step, continue_with. simpl. rewrite Hf. reflexivity.
  - (* Tx_QueryRow_Status *)
    simpl. destruct (f (CSelectForUpdate seat)) as [e|] eqn:Hf.
    + destruct (IH (ScanErr e) rws lks tx d lg (cs ++ [CSelectForUpdate seat]) Hm)
        as (n & w' & Hex & Hrest).
      exists (S n), w'. split; [|exact Hrest].
      erewrite exec_alone_step; [exact Hex|]. unfold step, thread_step, continue_with. simpl. rewrite Hf. reflexivity.
    + destruct (scan_status tx seat rws) as [st| |e] eqn:Hscan.
      * destruct (IH (Scanned st) rws (<[seat := 0%nat]> lks) tx d lg
                    (cs ++ [CSelectForUpdate seat]) (only_mine_insert _ _ Hm))
          as (n & w' & Hex & Hrest).
        exists (S n), w'. split; [|exact Hrest].
        erewrite exec_alone_step; [exact Hex|]. unfold step, thread_step, continue_with. simpl.
        rewrite Hf, Hscan, only_mine_free by exact Hm. reflexivity.
      * destruct (IH ErrNoRows rws lks tx d lg (cs ++ [CSelectForUpdate seat]) Hm)
          as (n & w' & Hex & Hrest).
        exists (S n), w'. split; [|exact Hrest].
        erewrite exec_alone_step; [exact Hex|]. unfold step, thread_step, continue_with. simpl.
        rewrite Hf, Hscan. reflexivity.
      * destruct (IH (ScanErr e) rws lks tx d lg (cs ++ [CSelectForUpdate seat]) Hm)
          as (n & w' & Hex & Hrest).
        exists (S n), w'. split; [|exact Hrest].
        erewrite exec_alone_step; [exact Hex|]. unfold step, thread_step, continue_with. simpl.
        rewrite Hf, Hscan. reflexivity.
  - (* Tx_Exec_Reserve *)
    simpl. destruct (f (CUpdate user seat)) as [e|] eqn:Hf.
    + destruct (IH (Some e) rws lks tx d lg (cs ++ [CUpdate user seat]) Hm)
        as (n & w' & Hex & Hrest).
      exists (S n), w'. split; [|exact Hrest].
      erewrite exec_alone_step; [exact Hex|]. unfold step, thread_step, continue_with. simpl. rewrite Hf. reflexivity.
    + destruct tx as [|ws|].
      * destruct (IH (Some tx_done_msg) rws lks NoTx d lg (cs ++ [CUpdate user seat]) Hm)
          as (n & w' & Hex & Hrest).
        exists (S n), w'. split; [|exact Hrest].
        erewrite exec_alone_step; [exact Hex|]. unfold step, thread_step, continue_with. simpl. rewrite Hf. reflexivity.
      * destruct (find_row seat (apply_writes ws rws)) eqn:Hfind.
        -- destruct (IH None rws (<[seat := 0%nat]> lks) (TxOpen (ws ++ [(user, seat)])) d lg
                       (cs ++ [CUpdate user seat]) (only_mine_insert _ _ Hm))
             as (n & w' & Hex & Hrest).
           exists (S n), w'. split; [|exact Hrest].
           erewrite exec_alone_step; [exact Hex|]. unfold step, thread_step, continue_with. simpl.
           rewrite Hf, Hfind, only_mine_free by exact Hm. reflexivity.
        -- destruct (IH None rws lks (TxOpen (ws ++ [(user, seat)])) d lg
                       (cs ++ [CUpdate user seat]) Hm)
             as (n & w' & Hex & Hrest).
           exists (S n), w'. split; [|exact Hrest].
           erewrite exec_alone_step; [exact Hex|]. unfold step, thread_step, continue_with. simpl.
           rewrite Hf, Hfind. reflexivity.
      * destruct (IH (Some tx_done_msg) rws lks TxDone d lg (cs ++ [CUpdate user seat]) Hm)
          as (n & w' & Hex & Hrest).
        exists (S n), w'. split; [|exact Hrest].
        erewrite exec_alone_step; [exact Hex|]. unfold step, thread_step, continue_with. simpl. rewrite Hf. reflexivity.
  - (* Tx_Commit *)
    simpl. destruct tx as [|ws|].
    + destruct (IH (Some tx_done_msg) rws lks NoTx d lg cs Hm) as (n & w' & Hex & Hrest).
      exists (S n), w'. split; [|exact Hrest].
      erewrite exec_alone_step; [exact Hex|reflexivity].
    + simpl. destruct (f CCommit) as [e|] eqn:Hf.
      * destruct (IH (Some e) rws (release 0 lks) TxDone d lg (cs ++ [CCommit])
                    (only_mine_release _ Hm)) as (n & w' & Hex & Hrest).
        exists (S n), w'. split; [|exact Hrest].
        erewrite exec_alone_step; [exact Hex|]. unfold step, thread_step, continue_with. simpl. rewrite Hf. reflexivity.
      * destruct (IH None (apply_writes ws rws) (release 0 lks) TxDone d lg (cs ++ [CCommit])
                    (only_mine_release _ Hm)) as (n & w' & Hex & Hrest).
        exists (S n), w'. split; [|exact Hrest].
        erewrite exec_alone_step; [exact Hex|]. unfold step, thread_step, continue_with. simpl. rewrite Hf. reflexivity.
    + destruct (IH (Some tx_done_msg) rws lks TxDone d lg cs Hm) as (n & w' & Hex & Hrest).
      exists (S n), w'. split; [|exact Hrest].
      erewrite exec_alone_step; [exact Hex|reflexivity].
  - (* Db_Query_Available *)
    simpl. destruct (f (CSelectAvailable limit)) as [e|] eqn:Hf.
    + destruct (IH (QueryErr e) rws lks tx d lg (cs ++ [CSelectAvailable limit]) Hm)
        as (n & w' & Hex & Hrest).
      exists (S n), w'. split; [|exact Hrest].
      erewrite exec_alone_step; [exact Hex|]. unfold step, thread_step, continue_with. simpl. rewrite Hf. reflexivity.
    + destruct (IH (QueryRows (sql_select_available limit rws)) rws lks tx d lg
                  (cs ++ [CSelectAvailable limit]) Hm) as (n & w' & Hex & Hrest).
      exists (S n), w'. split; [|exact Hrest].
      erewrite exec_alone_step; [exact Hex|]. unfold step, thread_step, continue_with. simpl. rewrite Hf. reflexivity.
  - (* Db_Exec_CreateTable *)
    simpl. destruct (IH (f CCreateTable) rws lks tx d lg (cs ++ [CCreateTable]) Hm)
      as (n & w' & Hex & Hrest).
    exists (S n), w'. split; [|exact Hrest].
    erewrite exec_alone_step; [exact Hex|reflexivity].
  - (* Db_Exec_InsertIgnore *)
    simpl. destruct (f (CInsertIgnore seat)) as [e|] eqn:Hf.
    + destruct (IH (Some e) rws lks tx d lg (cs ++ [CInsertIgnore seat]) Hm)
        as (n & w' & Hex & Hrest).
      exists (S n), w'. split; [|exact Hrest].
      erewrite exec_alone_step; [exact Hex|]. unfold step, thread_step, continue_with. simpl. rewrite Hf. reflexivity.
    + destruct (IH None (sql_insert_ignore seat rws) lks tx d lg (cs ++ [CInsertIgnore seat]) Hm)
        as (n & w' & Hex & Hrest).
      exists (S n), w'. split; [|exact Hrest].
      erewrite exec_alone_step; [exact Hex|]. unfold step, thread_step, continue_with. simpl.
      rewrite Hf, only_mine_free by exact Hm. reflexivity.
Qed.

(** ** The theorems at work on sample data *)

Example sample_decode_ok :
  sample_decode (ticket_json 2 42) = Decoded (mkTicketRequest 2 42).
Proof. vm_compute. reflexivity. Qed.

Example sample_decode_malformed :
  sample_decode ("{" +:+ dquote +:+ "user_id" +:+ dquote +:+ ":" +:+ dquote +:+ "x"
                     +:+ dquote +:+ "}") = DecodeErr "invalid character".
Proof. vm_compute. reflexivity. Qed.

(** The Content-Type test is a prefix test: parameters after the media type
    are accepted, and so is any longer type that starts the same way. *)
Example accepts_json_examples :
  accepts_json (mkRequest "application/json" EmptyString) = true /\
  accepts_json (mkRequest "application/json; charset=utf-8" EmptyString) = true /\
  accepts_json (mkRequest "application/jsonx" EmptyString) = true /\
  accepts_json (mkRequest "text/plain" EmptyString) = false /\
  accepts_json (mkRequest EmptyString EmptyString) = false.
Proof. repeat split; reflexivity. Qed.

(** A conflict: seat 5 is taken, the request of user 2 is answered 409 and
    the row keeps user 1 as owner. *)
Example reserve_taken_seat :
  serve no_faults (Server.reserveHandler sample_decode (post_reserve 2 5)) pool_with_seat_5_taken
  = (http_Error "Seat already reserved" 409, pool_with_seat_5_taken).
Proof. vm_compute. reflexivity. Qed.

(** A commit that fails: 500, and the seat is still available. *)
Example reserve_commit_fails :
  let f := fun c => match c with CCommit => Some "connection lost" | _ => None end in
  serve f (Server.reserveHandler sample_decode (post_reserve 1 5)) (fresh_pool 10)
  = (http_Error "internal server error" 500, fresh_pool 10).
Proof. vm_compute. reflexivity. Qed.

Example fresh_pool_3 :
  fresh_pool 3 = [mkSeatRow 1 "available" None; mkSeatRow 2 "available" None;
                  mkSeatRow 3 "available" None].
Proof. vm_compute. reflexivity. Qed.

(** Seat 999999 was never provisioned: 404, and no row is created or
    altered. *)
Example reserve_unknown_seat :
  serve no_faults (Server.reserveHandler sample_decode (post_reserve 1 999999)) (fresh_pool 10)
  = (http_Error "Seat not found" 404, fresh_pool 10).
Proof. vm_compute. reflexivity. Qed.

Lemma no_faults_never_fail cs : ~ some_call_failed no_faults cs.
Proof. intros (c & _ & _ & H). apply H. reflexivity. Qed.

(** Two users race for seat 42: the first to lock the row wins. *)
Lemma race_for_one_seat_witness :
  exists w',
    exec (fun _ => no_faults) [0; 1; 0; 1; 0; 0; 0; 1; 0; 1]%nat
      (serve_concurrently [mkSeatRow 42 "available" None]
         (List.map (Server.reserveHandler sample_decode)
            [post_reserve 1 42; post_reserve 2 42])) = Some w' /\
    responses w' = [Some reservation_successful; Some seat_already_reserved] /\
    exists winner u,
      [1; 2] !! winner = Some u /\
      responses w' !! winner =
        Some (Some (json_OK (JObject [("message", "Reservation successful")]))) /\
      (forall j, j <> winner -> (j < 2)%nat ->
         responses w' !! j = Some (Some (http_Error "Seat already reserved" 409))) /\
      find_row 42 (rows w') = Some (mkSeatRow 42 "reserved" (Some u)) /\
      count_responses (json_OK (JObject [("message", "Reservation successful")])) w' = 1%nat /\
      count_responses (http_Error "Seat already reserved" 409) w' = (2 - 1)%nat.
Proof.
  eexists. split; [vm_compute; reflexivity|]. split; [reflexivity|].
  eapply (race_for_one_seat sample_decode (fun _ => no_faults) 42 [1; 2]
            [post_reserve 1 42; post_reserve 2 42]
            [mkSeatRow 42 "available" None] (mkSeatRow 42 "available" None)
            [0; 1; 0; 1; 0; 0; 0; 1; 0; 1]%nat).
  - reflexivity.
  - reflexivity.
  - constructor; [split; vm_compute; reflexivity|].
    constructor; [split; vm_compute; reflexivity|]. constructor.
  - simpl. lia.
  - vm_compute. reflexivity.
  - repeat constructor; eexists; reflexivity.
  - intros i c. reflexivity.
Defined.

(** The same race when the commit of the first user fails: its handler
    answers 500, and the second user gets the seat. *)
Example race_with_failed_commit :
  let f := fun i : nat => match i with
                          | O => fun c => match c with
                                          | CCommit => Some "connection lost"
                                          | _ => None
                                          end
                          | _ => no_faults
                          end in
  exists w',
    exec f [0; 1; 0; 1; 0; 0; 0; 1; 0; 0; 1; 1; 1]%nat
      (serve_concurrently [mkSeatRow 42 "available" None]
         (List.map (Server.reserveHandler sample_decode)
            [post_reserve 1 42; post_reserve 2 42])) = Some w' /\
    responses w' = [Some internal_server_error; Some reservation_successful] /\
    rows w' = [mkSeatRow 42 "reserved" (Some 2)] /\
    locks w' = ∅.
Proof. eexists. split; [vm_compute; reflexivity|]. repeat split. Qed.

Lemma reserved_is_final_witness :
  find_row 5
    (apply_ops sample_decode
       [OpReserve no_faults (post_reserve 2 5); OpListAvailable no_faults;
        OpInitSeats no_faults 10] pool_with_seat_5_taken)
  = Some (mkSeatRow 5 "reserved" (Some 1)).
Proof.
  apply (proj1 (reserved_is_final sample_decode _ pool_with_seat_5_taken)).
  - vm_compute. reflexivity.
  - reflexivity.
Defined.

Lemma reserve_status_codes_witness :
  let out := run no_faults (Server.reserveHandler sample_decode (post_reserve 1 42))
               (connect [mkSeatRow 42 "available" None]) in
  fst out = json_OK (JObject [("message", "Reservation successful")]) /\
  code (fst out) = 200 /\ In CCommit (issued (snd out)) /\
  table (snd out) = sql_update_reserve 1 42 [mkSeatRow 42 "available" None].
Proof.
  pose proof (reserve_status_codes sample_decode no_faults (post_reserve 1 42)
                [mkSeatRow 42 "available" None]) as H.
  cbv zeta in H. destruct H as (_ & _ & _ & H).
  destruct (H eq_refl (mkTicketRequest 1 42) eq_refl) as (_ & _ & _ & H4).
  exact (H4 (no_faults_never_fail _) (mkSeatRow 42 "available" None) eq_refl eq_refl).
Defined.

Lemma validation_before_store_witness :
  exists resp,
    Server.reserveHandler sample_decode (mkRequest "text/plain" (ticket_json 1 42)) = Ret resp /\
    (accepts_json (mkRequest "text/plain" (ticket_json 1 42)) = false -> code resp = 415) /\
    (accepts_json (mkRequest "text/plain" (ticket_json 1 42)) = true -> code resp = 400) /\
    (let out := run no_faults
                  (Server.reserveHandler sample_decode (mkRequest "text/plain" (ticket_json 1 42)))
                  (connect (fresh_pool 10)) in
     fst out = resp /\
     issued (snd out) = [] /\ txn (snd out) = NoTx /\ table (snd out) = fresh_pool 10) /\
    finished (spawn (Server.reserveHandler sample_decode
                       (mkRequest "text/plain" (ticket_json 1 42)))) = Some resp /\
    (forall me rws lks,
       thread_step no_faults me
         (spawn (Server.reserveHandler sample_decode (mkRequest "text/plain" (ticket_json 1 42))))
         rws lks = None).
Proof.
  apply (validation_before_store sample_decode no_faults
           (mkRequest "text/plain" (ticket_json 1 42)) (fresh_pool 10)).
  left. reflexivity.
Defined.

Lemma initSeats_idempotent_witness :
  snd (serve no_faults (Server.initSeats 10) pool_with_seat_5_taken) = pool_with_seat_5_taken.
Proof.
  pose proof (initSeats_idempotent no_faults 10 pool_with_seat_5_taken) as H.
  cbv zeta in H. destruct H as (_ & _ & _ & H).
  assert (forall id, In id (List.map seat_id pool_with_seat_5_taken) <-> 1 <= id <= 10) as Hids.
  { assert (List.map seat_id pool_with_seat_5_taken = [1; 2; 3; 4; 5; 6; 7; 8; 9; 10]) as ->
      by (vm_compute; reflexivity).
    intros id. simpl. lia. }
  exact (proj1 (H Hids)).
Defined.




Example first_client_sends_synthetic_record :
  Client.simulateClient 1000
    [Client.mkRound (Some []) (fun l => l)
       (fun _ => Client.mkPostOutcome (Client.PostResp 409) 1000)]
  = Some [Client.mkResult 0 0 (Some "user 1000: no request succeeded")].
Proof. vm_compute. reflexivity. Qed.

Lemma transport_failures_not_recorded_witness :
  let rounds :=
    [Client.mkRound (Some [7]) (fun l => l)
       (fun _ => Client.mkPostOutcome (Client.PostErr "Client.Timeout exceeded") 5000000000);
     Client.mkRound (Some [7]) (fun l => l)
       (fun _ => Client.mkPostOutcome (Client.PostResp 200) 1000000);
     Client.mkRound (Some []) (fun l => l)
       (fun _ => Client.mkPostOutcome (Client.PostResp 409) 1000000)] in
  Client.requestFailCount (Client.aggregate [[Client.mkResult 200 1000000 None]]) =
  match kept_attempts 1000 rounds with [] => 1 | _ => 0 end.
Proof.
  intros rounds.
  pose proof (SimulatorFacts.transport_failures_not_recorded 1000 rounds
                [Client.mkResult 200 1000000 None] eq_refl) as H.
  cbv zeta in H. exact (proj2 (proj2 (proj2 (proj2 H)))).
Defined.

Lemma aggregate_counts_and_totals_witness :
  Client.successTotalRTT
    (Client.aggregate [[Client.mkResult 200 10 None]; [Client.mkResult 409 7 None;
                                                        Client.mkResult 200 30 None]]) = 40.
Proof.
  pose proof (ClientFacts.aggregate_counts_and_totals
                [[Client.mkResult 200 10 None];
                 [Client.mkResult 409 7 None; Client.mkResult 200 30 None]]) as H.
  cbv zeta in H. destruct H as (_ & _ & _ & H & _).
  rewrite H. vm_compute. reflexivity.
Defined.

(** * Further properties of the reservation server *)

Lemma update_commutes u1 s1 u2 s2 t :
  s1 <> s2 ->
  sql_update_reserve u1 s1 (sql_update_reserve u2 s2 t) =
  sql_update_reserve u2 s2 (sql_update_reserve u1 s1 t).
Proof.
  intros Hne. unfold sql_update_reserve. rewrite !List.map_map.
  apply List.map_ext. intros r.
  destruct (bool_decide (seat_id r = s2)) eqn:E2;
    destruct (bool_decide (seat_id r = s1)) eqn:E1; simpl; rewrite ?E1, ?E2; try reflexivity.
  apply bool_decide_eq_true in E1, E2. congruence.
Qed.

Lemma update_primary_key u s t : primary_key t -> primary_key (sql_update_reserve u s t).
Proof. unfold primary_key. rewrite update_seat_ids. auto. Qed.

Section ReserveMore.

Variable json_decode : string -> DecodeResult.

Local Opaque String.prefix String.eqb.

Ltac calls_tac :=
  simpl; repeat split; intros; simpl in *;
  intuition (simplify_eq; try congruence; eauto 14).

(** X1. Every path of [reserveHandler] ends the transaction it began:
    after the handler has returned, whatever failed, no transaction is left
    open; a transaction that was begun is ended by exactly one of a commit
    and the deferred rollback; and when [Begin] itself fails nothing else is
    sent to the database. *)
Theorem reserve_ends_transaction (f : Faults) (r : Request) (t : list SeatRow) :
  let out := run f (Server.reserveHandler json_decode r) (connect t) in
  let cs := issued (snd out) in
  (forall ws, txn (snd out) <> TxOpen ws) /\
  (In CBegin cs -> f CBegin = None ->
     (In CCommit cs \/ In CRollback cs) /\ ~ (In CCommit cs /\ In CRollback cs)) /\
  (In CBegin cs -> f CBegin <> None -> cs = [CBegin]) /\
  (cs <> [] -> exists rest, cs = CBegin :: rest).
Proof.
  cbv zeta. rewrite reserve_alone.
  destruct (negb (accepts_json r)); [calls_tac|].
  destruct (json_decode (request_body r)) as [e|req]; [calls_tac|].
  destruct (f CBegin) eqn:Hb; [calls_tac|]. cbv zeta.
  destruct (f (CSelectForUpdate _)); [calls_tac|].
  destruct (find_row _ t) as [row|]; [|calls_tac].
  destruct (negb _); [calls_tac|].
  destruct (f (CUpdate _ _)); [calls_tac|].
  destruct (f CCommit); calls_tac.
Qed.

(** X2. [reserveHandler] never writes a seat it has not read, under the
    row lock, as available: an UPDATE is sent only for the user and seat of
    the request, after a successful [SELECT ... FOR UPDATE] on that seat that
    found its row with status available; a COMMIT is sent only after that
    UPDATE succeeded; and the rows change only when the COMMIT succeeded. *)
Theorem update_only_after_available (f : Faults) (r : Request) (t : list SeatRow) :
  let out := run f (Server.reserveHandler json_decode r) (connect t) in
  let cs := issued (snd out) in
  (forall u s, In (CUpdate u s) cs ->
     exists req row rest,
       json_decode (request_body r) = Decoded req /\ u = UserID req /\ s = SeatID req /\
       f (CSelectForUpdate s) = None /\
       find_row s t = Some row /\ status row = "available" /\
       cs = CBegin :: CSelectForUpdate s :: CUpdate u s :: rest) /\
  (In CCommit cs -> exists u s, In (CUpdate u s) cs /\ f (CUpdate u s) = None) /\
  (table (snd out) <> t -> In CCommit cs /\ f CCommit = None).
Proof.
  cbv zeta. rewrite reserve_alone.
  destruct (negb (accepts_json r)); [calls_tac|].
  destruct (json_decode (request_body r)) as [e|req] eqn:Hdec; [calls_tac|].
  destruct (f CBegin) eqn:Hb; [calls_tac|]. cbv zeta.
  destruct (f (CSelectForUpdate _)) eqn:Hs; [calls_tac|].
  destruct (find_row _ t) as [row|] eqn:Hrow; [|calls_tac].
  destruct (String.eqb (status row) "available") eqn:Hst; [|calls_tac].
  apply String.eqb_eq in Hst.
  destruct (f (CUpdate _ _)) eqn:Hu; [calls_tac|].
  destruct (f CCommit) eqn:Hc; calls_tac.
Qed.

(** X3. A reservation touches one row at most: whatever the request and
    whatever fails, the seat ids of the table and their order stay as they
    were (no row is created or deleted), the seat ids stay unique, and every
    row but the one of the requested seat is found unchanged. *)
Theorem reserve_frame (f : Faults) (r : Request) (t : list SeatRow) :
  let t' := snd (serve f (Server.reserveHandler json_decode r) t) in
  List.map seat_id t' = List.map seat_id t /\
  (primary_key t -> primary_key t') /\
  (forall req id, json_decode (request_body r) = Decoded req -> id <> SeatID req ->
     find_row id t' = find_row id t) /\
  (forall e, json_decode (request_body r) = DecodeErr e -> t' = t).
Proof.
  cbv zeta.
  destruct (reserve_rows json_decode f r t) as [->|(req & row & Hdec & Hrow & Hst & ->)].
  - repeat split; auto.
  - split; [apply update_seat_ids|]. split; [apply update_primary_key|]. split.
    + intros req' id Hdec' Hne. rewrite Hdec in Hdec'. injection Hdec' as <-.
      apply find_row_update_other. exact Hne.
    + intros e He. congruence.
Qed.

(** What a reservation answers depends on the table only through the row
    of the requested seat. *)
Lemma reserve_by_row (f : Faults) (r : Request) (req : TicketRequest) (t t' : list SeatRow) :
  json_decode (request_body r) = Decoded req ->
  find_row (SeatID req) t = find_row (SeatID req) t' ->
  fst (serve f (Server.reserveHandler json_decode r) t) =
    fst (serve f (Server.reserveHandler json_decode r) t') /\
  ((snd (serve f (Server.reserveHandler json_decode r) t) = t /\
    snd (serve f (Server.reserveHandler json_decode r) t') = t') \/
   (snd (serve f (Server.reserveHandler json_decode r) t) =
      sql_update_reserve (UserID req) (SeatID req) t /\
    snd (serve f (Server.reserveHandler json_decode r) t') =
      sql_update_reserve (UserID req) (SeatID req) t')).
Proof.
  intros Hdec Hrow. unfold serve. rewrite !reserve_alone, Hdec, <- Hrow.
  destruct (negb (accepts_json r)); [simpl; auto|].
  destruct (f CBegin); [simpl; auto|]. cbv zeta.
  destruct (f (CSelectForUpdate _)); [simpl; auto|].
  destruct (find_row _ t) as [row|]; [|simpl; auto].
  destruct (negb _); [simpl; auto|].
  destruct (f (CUpdate _ _)); [simpl; auto|].
  destruct (f CCommit); simpl; auto.
Qed.

(** A reservation answered 200 has reserved the seat for its user. *)
Lemma granted_reserves (f : Faults) (r : Request) (req : TicketRequest) (t : list SeatRow) :
  json_decode (request_body r) = Decoded req ->
  code (fst (serve f (Server.reserveHandler json_decode r) t)) = 200 ->
  exists row, find_row (SeatID req) t = Some row /\ status row = "available" /\
    snd (serve f (Server.reserveHandler json_decode r) t) =
      sql_update_reserve (UserID req) (SeatID req) t.
Proof.
  intros Hdec. unfold serve. rewrite reserve_alone, Hdec.
  destruct (negb (accepts_json r)); [simpl; discriminate|].
  destruct (f CBegin); [simpl; discriminate|]. cbv zeta.
  destruct (f (CSelectForUpdate _)); [simpl; discriminate|].
  destruct (find_row _ t) as [row|]; [|simpl; discriminate].
  destruct (String.eqb (status row) "available") eqn:Hst; [|simpl; discriminate].
  apply String.eqb_eq in Hst. simpl.
  destruct (f (CUpdate _ _)); [simpl; discriminate|].
  destruct (f CCommit); [simpl; discriminate|].
  simpl. eauto.
Qed.

(** A reservation of a seat that is not available is not answered 200 and
    changes nothing. *)
Lemma taken_is_refused (f : Faults) (r : Request) (req : TicketRequest)
    (t : list SeatRow) (row : SeatRow) :
  json_decode (request_body r) = Decoded req ->
  find_row (SeatID req) t = Some row -> status row <> "available" ->
  In (code (fst (serve f (Server.reserveHandler json_decode r) t))) [409; 415; 500] /\
  snd (serve f (Server.reserveHandler json_decode r) t) = t.
Proof.
  intros Hdec Hrow Hst. unfold serve. rewrite reserve_alone, Hdec, Hrow.
  destruct (negb (accepts_json r)); [simpl; tauto|].
  destruct (f CBegin); [simpl; tauto|]. cbv zeta.
  destruct (f (CSelectForUpdate _)); [simpl; tauto|].
  apply String.eqb_neq in Hst. rewrite Hst. simpl. tauto.
Qed.

(** X4. Once a reservation of a seat has been answered 200, every later
    reservation of that seat, by anyone, after any reservations, listings
    and re-initialisations in between and whatever fails, is answered 409,
    415 or 500, never 200, and the seat keeps its first owner. *)
Theorem second_reservation_refused (f1 f2 : Faults) (r1 r2 : Request)
    (req1 req2 : TicketRequest) (ops : list StoreOp) (t : list SeatRow) :
  json_decode (request_body r1) = Decoded req1 ->
  json_decode (request_body r2) = Decoded req2 ->
  SeatID req2 = SeatID req1 ->
  code (fst (serve f1 (Server.reserveHandler json_decode r1) t)) = 200 ->
  let t1 := snd (serve f1 (Server.reserveHandler json_decode r1) t) in
  let t2 := apply_ops json_decode ops t1 in
  let out := serve f2 (Server.reserveHandler json_decode r2) t2 in
  In (code (fst out)) [409; 415; 500] /\
  find_row (SeatID req1) (snd out) =
    Some (mkSeatRow (SeatID req1) "reserved" (Some (UserID req1))).
Proof.
  intros Hd1 Hd2 Hseat H200. cbv zeta.
  destruct (granted_reserves f1 r1 req1 t Hd1 H200) as (row & Hrow & Hst & ->).
  pose proof (find_row_update_same (UserID req1) (SeatID req1) t row Hrow) as Hres.
  pose proof (apply_ops_reserved json_decode ops _ _ _ Hres eq_refl) as Hres2.
  rewrite <- Hseat in Hres2 at 1.
  destruct (taken_is_refused f2 r2 req2 _ _ Hd2 Hres2) as [Hcode Hsame].
  { simpl. discriminate. }
  split; [exact Hcode|]. rewrite Hsame. rewrite <- Hseat at 1. exact Hres2.
Qed.

(** X5. Reservations of two different seats commute: served in either
    order, each request gets the same response and the table ends the
    same. *)
Theorem reservations_commute (f1 f2 : Faults) (r1 r2 : Request)
    (req1 req2 : TicketRequest) (t : list SeatRow) :
  json_decode (request_body r1) = Decoded req1 ->
  json_decode (request_body r2) = Decoded req2 ->
  SeatID req1 <> SeatID req2 ->
  let h1 := Server.reserveHandler json_decode r1 in
  let h2 := Server.reserveHandler json_decode r2 in
  fst (serve f1 h1 t) = fst (serve f1 h1 (snd (serve f2 h2 t))) /\
  fst (serve f2 h2 t) = fst (serve f2 h2 (snd (serve f1 h1 t))) /\
  snd (serve f2 h2 (snd (serve f1 h1 t))) = snd (serve f1 h1 (snd (serve f2 h2 t))).
Proof.
  intros Hd1 Hd2 Hne. cbv zeta.
  assert (find_row (SeatID req1) t =
          find_row (SeatID req1) (snd (serve f2 (Server.reserveHandler json_decode r2) t)))
    as Hrow1.
  { destruct (reserve_rows json_decode f2 r2 t) as [->|(q & row & Hq & _ & _ & ->)];
      [reflexivity|].
    rewrite Hd2 in Hq. injection Hq as <-.
    symmetry. apply find_row_update_other. exact Hne. }
  assert (find_row (SeatID req2) t =
          find_row (SeatID req2) (snd (serve f1 (Server.reserveHandler json_decode r1) t)))
    as Hrow2.
  { destruct (reserve_rows json_decode f1 r1 t) as [->|(q & row & Hq & _ & _ & ->)];
      [reflexivity|].
    rewrite Hd1 in Hq. injection Hq as <-.
    symmetry. apply find_row_update_other. congruence. }
  destruct (reserve_by_row f1 r1 req1 _ _ Hd1 Hrow1) as [Ha Hta].
  destruct (reserve_by_row f2 r2 req2 _ _ Hd2 Hrow2) as [Hb Htb].
  split; [exact Ha|]. split; [exact Hb|].
  destruct Hta as [[Ht1 Ht1']|[Ht1 Ht1']]; destruct Htb as [[Ht2 Ht2']|[Ht2 Ht2']];
    rewrite Ht1', Ht2', ?Ht1, ?Ht2; try reflexivity.
  symmetry. apply update_commutes. exact Hne.
Qed.

End ReserveMore.

(** ** Further properties of listing and initialisation *)

Lemma seqZ_sorted m n : StronglySorted Z.le (seqZ m n).
Proof.
  remember (Z.to_nat n) as k eqn:Hk. revert m n Hk.
  induction k as [|k IH]; intros m n Hk.
  - rewrite seqZ_nil by lia. constructor.
  - rewrite seqZ_cons by lia. constructor.
    + apply IH. lia.
    + apply Forall_seqZ. intros x Hx. lia.
Qed.

Lemma take_seqZ (k : nat) m n : take k (seqZ m n) = seqZ m (Z.min n (Z.of_nat k)).
Proof.
  unfold seqZ. rewrite <- fmap_take, take_seq. f_equal. f_equal. lia.
Qed.

Lemma fresh_rows_available (ids : list Z) :
  List.map seat_id
    (List.filter (fun r => bool_decide (status r = "available"))
       (List.map (fun i => mkSeatRow i "available" None) ids)) = ids.
Proof. induction ids as [|i ids IH]; simpl; [reflexivity|]. rewrite IH. reflexivity. Qed.

Lemma available_ids_fresh (n : Z) : available_ids (fresh_pool n) = seqZ 1 n.
Proof.
  unfold available_ids, fresh_pool. rewrite initSeats_fresh, fresh_rows_available.
  apply (StronglySorted_unique Z.le).
  - apply StronglySorted_merge_sort; apply _.
  - apply seqZ_sorted.
  - apply merge_sort_Permutation.
Qed.

(** X7. After a first start on an empty database with no failure
    ([initSeats n]), the listing answers the first 100 seats: the array
    [1, ..., min n 100], and [null] when [n <= 0].  With the 10000 seats
    [main] creates, the first listing is [1, ..., 100]. *)
Theorem listing_of_fresh_pool (n : Z) :
  fst (serve no_faults Server.availableSeatsHandler (fresh_pool n)) =
    json_OK (if n <=? 0 then JNull else JInts (seqZ 1 (Z.min n 100))) /\
  fst (serve no_faults Server.availableSeatsHandler (fresh_pool 10000)) =
    json_OK (JInts (seqZ 1 100)).
Proof.
  assert (forall k, fst (serve no_faults Server.availableSeatsHandler (fresh_pool k)) =
                    json_OK (if k <=? 0 then JNull else JInts (seqZ 1 (Z.min k 100)))) as H.
  { intros k. rewrite serve_availableSeats by reflexivity. simpl.
    rewrite available_ids_fresh, take_seqZ. f_equal.
    change (Z.of_nat 100) with 100.
    destruct (k <=? 0) eqn:Hk.
    - apply Z.leb_le in Hk. rewrite seqZ_nil by lia. reflexivity.
    - apply Z.leb_gt in Hk. destruct (seqZ 1 (Z.min k 100)) eqn:E; [|reflexivity].
      apply (f_equal length) in E. rewrite length_seqZ in E. simpl in E. lia. }
  split; [apply H|]. rewrite H. reflexivity.
Qed.

Lemma serve_availableSeats_logging (f : Faults) (t : list SeatRow) :
  f (CSelectAvailable None) = None ->
  fst (serve f LoggingServer.availableSeatsHandler t) =
  json_OK (match available_ids t with
           | [] => JNull
           | ids => JInts ids
           end).
Proof.
  intros Hf. unfold serve, LoggingServer.availableSeatsHandler. simpl. rewrite Hf. simpl.
  rewrite fold_go_append. unfold sql_select_available. fold (available_ids t).
  destruct (available_ids t); reflexivity.
Qed.

(** X8. The listing of the logging variant has no limit: it answers all the
    available ids.  So, when both queries succeed, the two
    [availableSeatsHandler]s give the same response exactly when at most 100
    seats are available. *)
Theorem availableSeatsHandlers_agree (f : Faults) (t : list SeatRow) :
  f (CSelectAvailable (Some 100%nat)) = None ->
  f (CSelectAvailable None) = None ->
  fst (serve f LoggingServer.availableSeatsHandler t) =
    json_OK (match available_ids t with [] => JNull | ids => JInts ids end) /\
  (fst (serve f Server.availableSeatsHandler t) =
     fst (serve f LoggingServer.availableSeatsHandler t)
   <-> (length (available_ids t) <= 100)%nat).
Proof.
  intros H100 Hall. rewrite serve_availableSeats_logging by exact Hall.
  split; [reflexivity|]. rewrite serve_availableSeats by exact H100. simpl.
  split.
  - intros Heq.
    assert (take 100 (available_ids t) = available_ids t) as Htake.
    { destruct (take 100 (available_ids t)) eqn:E1; destruct (available_ids t) eqn:E2;
        try discriminate Heq; try reflexivity.
      injection Heq as -> ->. reflexivity. }
    rewrite <- Htake, length_take. lia.
  - intros Hlen. rewrite take_ge by exact Hlen. reflexivity.
Qed.

(** The insert loop of [initSeats], with the calls it makes and the lines
    it logs. *)
Lemma run_insert_seats_calls (f : Faults) (ids : list Z) (k : Prog error) (s : Conn) :
  exists s', run f (Server.insert_seats ids k) s = run f k s' /\
             table s' = inserted f ids (table s) /\
             txn s' = txn s /\ deferred s' = deferred s /\
             issued s' = issued s ++ List.map CInsertIgnore ids /\
             length (logged s') =
               (length (logged s) +
                length (List.filter (fun i => bool_decide (f (CInsertIgnore i) <> None)) ids))%nat.
Proof.
  revert s. induction ids as [|i ids IH]; intros s; simpl.
  - exists s. rewrite app_nil_r. repeat split; auto.
  - unfold inserted. simpl. destruct (f (CInsertIgnore i)) as [e|] eqn:Hf; simpl.
    + destruct (IH (add_log (Printf ("Insert seat " +:+ pretty i +:+ " failed: " +:+ e))
                      (issue (CInsertIgnore i) s))) as (s' & Hr & Ht & Hx & Hd & Hi & Hl).
      exists s'. simpl in *. rewrite Hi, Hl, <- app_assoc, length_app. simpl.
      repeat split; auto. lia.
    + destruct (IH (set_table (sql_insert_ignore i (table s)) (issue (CInsertIgnore i) s)))
        as (s' & Hr & Ht & Hx & Hd & Hi & Hl).
      exists s'. simpl in *. rewrite Hi, Hl, <- app_assoc. simpl.
      repeat split; auto.
Qed.

(** X9. [initSeats] reports only the failure of [CREATE TABLE]: it returns
    that error, having sent nothing else and changed nothing.  Once the
    table exists it returns nil whatever happens to the inserts: it sends one
    [INSERT IGNORE] for each id 1..total in order, a failed one does not stop
    the loop, and it logs one line for each that failed. *)
Theorem initSeats_reports_create_only (f : Faults) (total : Z) (t : list SeatRow) :
  let out := run f (Server.initSeats total) (connect t) in
  fst out = f CCreateTable /\
  txn (snd out) = NoTx /\
  (f CCreateTable <> None ->
     issued (snd out) = [CCreateTable] /\ table (snd out) = t /\ logged (snd out) = []) /\
  (f CCreateTable = None ->
     issued (snd out) = CCreateTable :: List.map CInsertIgnore (seqZ 1 total) /\
     length (logged (snd out)) =
       length (List.filter (fun i => bool_decide (f (CInsertIgnore i) <> None))
                 (seqZ 1 total))).
Proof.
  cbv zeta. unfold Server.initSeats. simpl.
  destruct (f CCreateTable) as [e|] eqn:Hc.
  - simpl. split; [reflexivity|]. split; [reflexivity|]. split; [auto|].
    intros He. discriminate He.
  - destruct (run_insert_seats_calls f (seqZ 1 total) (Ret None)
                (issue CCreateTable (connect t))) as (s' & Hr & Ht & Hx & Hd & Hi & Hl).
    rewrite Hr. simpl. unfold run_deferred. rewrite Hd. simpl.
    split; [reflexivity|]. split; [exact Hx|]. split; [intros He; contradiction|].
    intros _. split; [exact Hi|exact Hl].
Qed.

Lemma inserted_ids (f : Faults) (ids : list Z) (t : list SeatRow) (id : Z) :
  In id (List.map seat_id (inserted f ids t)) <->
  In id (List.map seat_id t) \/ (In id ids /\ f (CInsertIgnore id) = None).
Proof.
  unfold inserted. revert t. induction ids as [|i ids IH]; intros t; simpl.
  - tauto.
  - rewrite IH. destruct (f (CInsertIgnore i)) as [e|] eqn:Hf.
    + split; [tauto|]. intros [H|[[->|H] Hok]]; [tauto|congruence|tauto].
    + unfold sql_insert_ignore. destruct (find_row i t) eqn:Hfind.
      * assert (In i (List.map seat_id t)) by (apply find_row_is_Some; eauto).
        split; [tauto|]. intros [H'|[[->|H'] Hok]]; tauto.
      * rewrite List.map_app, in_app_iff. simpl.
        split; [intros [[H|[<-|[]]]|H]; tauto|].
        intros [H|[[->|H] Hok]]; tauto.
Qed.

Lemma inserted_fresh_faulty (f : Faults) (ids : list Z) (t : list SeatRow) :
  NoDup ids -> (forall i, In i ids -> ~ In i (List.map seat_id t)) ->
  inserted f ids t =
  t ++ List.map (fun i => mkSeatRow i "available" None)
         (List.filter (fun i => bool_decide (f (CInsertIgnore i) = None)) ids).
Proof.
  unfold inserted. revert t. induction ids as [|i ids IH]; intros t Hnd Hfresh; simpl.
  - rewrite app_nil_r. reflexivity.
  - apply NoDup_cons in Hnd as [Hi Hnd].
    destruct (f (CInsertIgnore i)) as [e|] eqn:Hf.
    + rewrite bool_decide_eq_false_2 by congruence.
      apply IH; [exact Hnd|]. intros j Hj. apply Hfresh. right. exact Hj.
    + rewrite bool_decide_eq_true_2 by reflexivity. simpl.
      assert (sql_insert_ignore i t = t ++ [mkSeatRow i "available" None]) as ->.
      { unfold sql_insert_ignore.
        assert (find_row i t = None) as ->; [|reflexivity].
        apply find_row_None. apply Hfresh. left. reflexivity. }
      rewrite IH; [rewrite <- app_assoc; reflexivity|exact Hnd|].
      intros j Hj. rewrite List.map_app, in_app_iff. simpl.
      intros [H|[H|[]]].
      * eapply Hfresh; [right; exact Hj|exact H].
      * subst j. apply Hi. apply list_elem_of_In. exact Hj.
Qed.

(** X10. When the table can be created, [initSeats total] leaves exactly
    the seats that were there together with the ids of 1..total whose insert
    did not fail; a seat whose insert failed is missing unless it was there
    already.  On an empty database the rows are these ids in ascending order,
    each available and without owner. *)
Theorem initSeats_rows_created (f : Faults) (total : Z) (t : list SeatRow) :
  f CCreateTable = None ->
  let t' := snd (serve f (Server.initSeats total) t) in
  (forall id, In id (List.map seat_id t') <->
              In id (List.map seat_id t) \/
              (1 <= id <= total /\ f (CInsertIgnore id) = None)) /\
  (t = [] ->
   t' = List.map (fun i => mkSeatRow i "available" None)
          (List.filter (fun i => bool_decide (f (CInsertIgnore i) = None)) (seqZ 1 total))).
Proof.
  intros Hc. cbv zeta. rewrite initSeats_rows, Hc. split.
  - intros id. rewrite inserted_ids.
    assert (In id (seqZ 1 total) <-> 1 <= id <= total) as ->; [|tauto].
    rewrite <- list_elem_of_In, elem_of_seqZ. lia.
  - intros ->. rewrite inserted_fresh_faulty; [reflexivity|apply NoDup_seqZ|].
    intros i _ [].
Qed.

Lemma insert_seats_same_but_logs (ids : list Z) (k k' : Prog error) :
  same_but_logs k k' ->
  same_but_logs (Server.insert_seats ids k) (LoggingSeats.insert_seats ids k').
Proof.
  intros Hk. induction ids as [|i ids IH]; simpl; [exact Hk|].
  constructor. intros [e|]; [|exact IH].
  unfold LoggingServer.logJSON. constructor. constructor. exact IH.
Qed.

(** X11. The two [initSeats] differ only in what they log: for every total,
    table and pattern of failures they return the same error, leave the same
    rows and send the same calls to the database. *)
Theorem initSeats_variants_equivalent (f : Faults) (total : Z) (t : list SeatRow) :
  same_but_logs (Server.initSeats total) (LoggingSeats.initSeats total) /\
  serve f (Server.initSeats total) t = serve f (LoggingSeats.initSeats total) t /\
  calls_of f (Server.initSeats total) t = calls_of f (LoggingSeats.initSeats total) t.
Proof.
  assert (same_but_logs (Server.initSeats total) (LoggingSeats.initSeats total)) as Hs.
  { unfold Server.initSeats, LoggingSeats.initSeats, LoggingServer.logJSON.
    constructor. intros [e|]; [repeat constructor|].
    apply insert_seats_same_but_logs. repeat constructor. }
  split; [exact Hs|].
  destruct (run_same_but_logs f _ _ Hs (connect t) (connect t)) as (Hr & Ht & _ & _ & Hi).
  { repeat split. }
  unfold serve, calls_of. rewrite Hr, Ht, Hi. split; reflexivity.
Qed.

(** ** What the handlers log *)

Section ReserveLogs.

Variable json_decode : string -> DecodeResult.

Local Opaque String.prefix String.eqb.

Ltac codes :=
  unfold internal_server_error, reservation_successful, http_Error, json_OK,
    StatusOK, StatusBadRequest, StatusNotFound, StatusConflict,
    StatusUnsupportedMediaType, StatusInternalServerError in *;
  simpl in *.

(** The one line the logging variant logs. *)
Lemma logging_reserve_line (f : Faults) (r : Request) (t : list SeatRow) :
  logged (snd (run f (LoggingServer.reserveHandler json_decode r) (connect t))) =
  [LogJSON (reserve_entry json_decode f r t)].
Proof.
  unfold LoggingServer.reserveHandler, LoggingServer.logJSON, reserve_entry.
  fold (accepts_json r).
  destruct (negb (accepts_json r)); [reflexivity|].
  destruct (json_decode _) as [e|req]; [reflexivity|].
  simpl. destruct (f CBegin); [reflexivity|]. simpl.
  destruct (f (CSelectForUpdate _)); [reflexivity|]. simpl.
  destruct (find_row _ t) as [row|]; [|reflexivity]. simpl.
  destruct (negb (String.eqb _ _)); [reflexivity|]. simpl.
  destruct (f (CUpdate _ _)); [reflexivity|]. simpl.
  destruct (f CCommit); reflexivity.
Qed.

Ltac logs_leaf :=
  split; [reflexivity|]; codes;
  repeat split; intros;
  try match goal with
      | H : _ \/ (exists _, _) |- _ => destruct H as [H|[? H]]; congruence
      end;
  simplify_eq; try (intuition (try discriminate; try congruence)).

(** X12. The handler of ticketing-be/main.go logs exactly when it answers
    500, and then one line.  The logging variant logs exactly one line for
    every request, with action "reserve": at level ERROR when it answers 500
    or 400, WARN when it answers 415 or 404, INFO when it answers 200 or 409;
    the line carries the user and seat of the request once the body is
    decoded, and 0 and 0 before. *)
Theorem reserve_log_lines (f : Faults) (r : Request) (t : list SeatRow) :
  let a := run f (Server.reserveHandler json_decode r) (connect t) in
  let b := run f (LoggingServer.reserveHandler json_decode r) (connect t) in
  (logged (snd a) = [] <-> code (fst a) <> 500) /\
  (length (logged (snd a)) <= 1)%nat /\
  exists entry,
    logged (snd b) = [LogJSON entry] /\ Action entry = "reserve" /\
    (Level entry = "ERROR" <-> code (fst b) = 500 \/ code (fst b) = 400) /\
    (Level entry = "WARN" <-> code (fst b) = 415 \/ code (fst b) = 404) /\
    (Level entry = "INFO" <-> code (fst b) = 200 \/ code (fst b) = 409) /\
    (forall req, accepts_json r = true -> json_decode (request_body r) = Decoded req ->
       LogUserID entry = UserID req /\ LogSeatID entry = SeatID req) /\
    (accepts_json r = false \/ (exists e, json_decode (request_body r) = DecodeErr e) ->
       LogUserID entry = 0 /\ LogSeatID entry = 0).
Proof.
  cbv zeta.
  destruct (run_same_but_logs f _ _ (reserveHandlers_same_but_logs json_decode r)
              (connect t) (connect t)) as (Hresp & _).
  { repeat split. }
  rewrite <- Hresp, logging_reserve_line, reserve_alone. unfold reserve_entry.
  destruct (accepts_json r) eqn:Hct; cbn [negb].
  2:{ split; [|split]; [codes; intuition congruence|simpl; lia|].
      eexists. logs_leaf. }
  destruct (json_decode (request_body r)) as [e|req] eqn:Hdec.
  { split; [|split]; [codes; intuition congruence|simpl; lia|]. eexists. logs_leaf. }
  cbv zeta.
  destruct (f CBegin) eqn:Hb.
  { split; [|split]; [codes; intuition congruence|simpl; lia|]. eexists. logs_leaf. }
  destruct (f (CSelectForUpdate _)) eqn:Hs.
  { split; [|split]; [codes; intuition congruence|simpl; lia|]. eexists. logs_leaf. }
  destruct (find_row _ t) as [row|] eqn:Hrow.
  2:{ split; [|split]; [codes; intuition congruence|simpl; lia|]. eexists. logs_leaf. }
  destruct (negb (String.eqb (status row) "available")) eqn:Hst.
  { split; [|split]; [codes; intuition congruence|simpl; lia|]. eexists. logs_leaf. }
  destruct (f (CUpdate _ _)) eqn:Hu.
  { split; [|split]; [codes; intuition congruence|simpl; lia|]. eexists. logs_leaf. }
  destruct (f CCommit) eqn:Hc.
  { split; [|split]; [codes; intuition congruence|simpl; lia|]. eexists. logs_leaf. }
  split; [|split]; [codes; intuition congruence|simpl; lia|]. eexists. logs_leaf.
Qed.

End ReserveLogs.

(** * The JSON line of [logJSON] *)

Lemma field_of_app key fs gs :
  field_of key (fs ++ gs) =
  match field_of key fs with
  | Some v => Some v
  | None => field_of key gs
  end.
Proof.
  unfold field_of. induction fs as [|kv fs IH]; simpl; [reflexivity|].
  destruct (String.eqb (fst kv) key); [reflexivity|exact IH].
Qed.

Lemma field_of_omitempty_int key key' n :
  field_of key' (omitempty_int key n) =
  if String.eqb key key' then (if n =? 0 then None else Some (JNum n)) else None.
Proof.
  unfold omitempty_int, field_of. destruct (n =? 0); simpl.
  - destruct (String.eqb key key'); reflexivity.
  - destruct (String.eqb key key'); reflexivity.
Qed.

Lemma field_of_omitempty_str key key' s :
  field_of key' (omitempty_str key s) =
  if String.eqb key key' then (if String.eqb s EmptyString then None else Some (JStr s))
  else None.
Proof.
  unfold omitempty_str, field_of. destruct (String.eqb s EmptyString); simpl.
  - destruct (String.eqb key key'); reflexivity.
  - destruct (String.eqb key key'); reflexivity.
Qed.

(** Reading the fields of a line back. *)
Lemma log_fields_read (ts : string) (e : LogEntry) :
  let fs := log_fields ts e in
  str_field "timestamp" fs = ts /\ str_field "level" fs = Level e /\
  str_field "action" fs = Action e /\
  int_field "user_id" fs = LogUserID e /\ int_field "seat_id" fs = LogSeatID e /\
  str_field "status" fs = LogStatus e /\
  str_field "error" fs = error_text (LogError e).
Proof.
  cbv zeta. unfold log_fields, str_field, int_field.
  rewrite !field_of_app, !field_of_omitempty_int, !field_of_omitempty_str.
  repeat split; try reflexivity; cbn.
  - destruct (LogUserID e =? 0) eqn:E; [apply Z.eqb_eq in E; congruence|reflexivity].
  - destruct (LogUserID e =? 0), (LogSeatID e =? 0) eqn:E;
      try (apply Z.eqb_eq in E; congruence); reflexivity.
  - destruct (LogUserID e =? 0), (LogSeatID e =? 0),
      (String.eqb (LogStatus e) EmptyString) eqn:E;
      try (apply String.eqb_eq in E; congruence); reflexivity.
  - destruct (LogUserID e =? 0), (LogSeatID e =? 0),
      (String.eqb (LogStatus e) EmptyString),
      (String.eqb (error_text (LogError e)) EmptyString) eqn:E;
      try (apply String.eqb_eq in E; congruence); reflexivity.
Qed.

(** X13. The line [logJSON] writes always has the fields timestamp, level
    and action; user_id and seat_id are left out exactly when they are 0,
    status when it is empty, error when the error is nil or has an empty
    text.  A field that is left out reads back as its zero value, so reading
    the fields of the line gives back the entry. *)
Theorem log_line_fields (ts : string) (e : LogEntry) :
  let fs := log_fields ts e in
  (field_of "timestamp" fs = Some (JStr ts) /\ field_of "level" fs = Some (JStr (Level e)) /\
   field_of "action" fs = Some (JStr (Action e))) /\
  (field_of "user_id" fs = None <-> LogUserID e = 0) /\
  (field_of "seat_id" fs = None <-> LogSeatID e = 0) /\
  (field_of "status" fs = None <-> LogStatus e = EmptyString) /\
  (field_of "error" fs = None <-> LogError e = None \/ LogError e = Some EmptyString) /\
  int_field "user_id" fs = LogUserID e /\ int_field "seat_id" fs = LogSeatID e /\
  str_field "status" fs = LogStatus e /\ str_field "error" fs = error_text (LogError e).
Proof.
  cbv zeta. pose proof (log_fields_read ts e) as H. cbv zeta in H.
  destruct H as (_ & _ & _ & Hu & Hs & Hst & He).
  split; [repeat split|].
  repeat split; try assumption;
    unfold log_fields;
    rewrite !field_of_app, !field_of_omitempty_int, !field_of_omitempty_str; cbn.
  - destruct (LogUserID e =? 0) eqn:E; [intros _; apply Z.eqb_eq; exact E|discriminate].
  - intros ->. reflexivity.
  - destruct (LogUserID e =? 0), (LogSeatID e =? 0) eqn:E;
      try discriminate; intros _; apply Z.eqb_eq; exact E.
  - intros ->. destruct (LogUserID e =? 0); reflexivity.
  - destruct (LogUserID e =? 0), (LogSeatID e =? 0),
      (String.eqb (LogStatus e) EmptyString) eqn:E;
      try discriminate; intros _; apply String.eqb_eq; exact E.
  - intros ->. destruct (LogUserID e =? 0), (LogSeatID e =? 0); reflexivity.
  - destruct (LogError e) as [s|]; [|auto]. simpl.
    destruct (LogUserID e =? 0), (LogSeatID e =? 0),
      (String.eqb (LogStatus e) EmptyString), (String.eqb s EmptyString) eqn:E;
      try discriminate; intros _; right; apply String.eqb_eq in E; congruence.
  - intros [->| ->]; simpl;
      destruct (LogUserID e =? 0), (LogSeatID e =? 0),
        (String.eqb (LogStatus e) EmptyString); reflexivity.
Qed.

(** X14. Two lines with the same fields come from the same time and from
    entries that agree on level, action, user, seat, status and error
    text: leaving out the zero fields does not make a line ambiguous. *)
Theorem log_line_determines_entry (ts ts' : string) (e e' : LogEntry) :
  log_fields ts e = log_fields ts' e' ->
  ts = ts' /\ Level e = Level e' /\ Action e = Action e' /\
  LogUserID e = LogUserID e' /\ LogSeatID e = LogSeatID e' /\
  LogStatus e = LogStatus e' /\ error_text (LogError e) = error_text (LogError e').
Proof.
  intros Heq.
  pose proof (log_fields_read ts e) as H. pose proof (log_fields_read ts' e') as H'.
  cbv zeta in H, H'. rewrite Heq in H.
  destruct H as (H1 & H2 & H3 & H4 & H5 & H6 & H7).
  destruct H' as (H1' & H2' & H3' & H4' & H5' & H6' & H7').
  repeat split; congruence.
Qed.

(** * The client against the server *)

Module ClientServerFacts.
Import Client.



Lemma Permutation_of_class c l l' :
  Permutation l l' -> Permutation (of_class c l) (of_class c l').
Proof.
  unfold of_class. induction 1; simpl.
  - constructor.
  - destruct (bool_decide _); [constructor|]; assumption.
  - destruct (bool_decide _), (bool_decide _); try reflexivity. constructor.
  - etransitivity; eassumption.
Qed.

Lemma Permutation_total_latency l l' :
  Permutation l l' -> total_latency l = total_latency l'.
Proof. unfold total_latency. induction 1; simpl; lia. Qed.

Lemma Permutation_concat_outer {A} (ls ls' : list (list A)) :
  Permutation ls ls' -> Permutation (concat ls) (concat ls').
Proof.
  induction 1; simpl.
  - constructor.
  - apply Permutation_app_head. assumption.
  - rewrite !app_assoc. apply Permutation_app_tail. apply Permutation_app_comm.
  - etransitivity; eassumption.
Qed.

(** X16. The counts and totals [main] ends with do not depend on the order
    in which the clients' slices arrive on the results channel: for two
    orders of arrival the five variables are equal, and [allResults] holds
    the same results in another order. *)
Theorem aggregate_any_arrival_order (results results' : list (list Result)) :
  Permutation results results' ->
  let st := aggregate results in
  let st' := aggregate results' in
  requestFailCount st = requestFailCount st' /\
  successCount st = successCount st' /\ successTotalRTT st = successTotalRTT st' /\
  failCount st = failCount st' /\ failTotalRTT st = failTotalRTT st' /\
  Permutation (allResults st) (allResults st').
Proof.
  intros Hp. cbv zeta. apply Permutation_concat_outer in Hp.
  destruct (ClientFacts.tallied_aggregate results) as (H1 & H2 & H3 & H4 & H5 & H6).
  destruct (ClientFacts.tallied_aggregate results') as (H1' & H2' & H3' & H4' & H5' & H6').
  rewrite H1, H2, H3, H4, H5, H6, H1', H2', H3', H4', H5', H6'.
  pose proof (fun c => Permutation_of_class c _ _ Hp) as Hc.
  rewrite !(Permutation_length (Hc _)), !(Permutation_total_latency _ _ (Hc _)).
  repeat split; try reflexivity. exact Hp.
Qed.

Section OnTheWire.

Variable json_decode : string -> DecodeResult.
Variable decode_text : string -> option SeatList.

Local Opaque String.eqb.

(** X17. A reservation the client posts is never refused for its content
    type; when the server's decoder reads the client's body back as the
    request, it is never refused as invalid JSON either, so the status the
    client gets is 200, 404, 409 or 500, and [tryReserve] returns it with
    no error and the measured duration. *)
Theorem client_post_is_well_formed (f : Faults) (req : ReserveRequest)
    (t : list SeatRow) (d : Z) :
  let resp := fst (run f (Server.reserveHandler json_decode (ClientHttp.newRequest req))
                     (connect t)) in
  let result := tryReserve (fun q =>
      ClientHttp.answered
        (fst (run f (Server.reserveHandler json_decode (ClientHttp.newRequest q))
                (connect t))) d) req in
  code resp <> 415 /\
  (json_decode (ClientHttp.marshal req) = Decoded (mkTicketRequest (UserID req) (SeatID req)) ->
   (code resp = 200 \/ code resp = 404 \/ code resp = 409 \/ code resp = 500) /\
   result = mkResult (code resp) d None /\
   dropped result = (d =? 0)).
Proof.
  cbv zeta. unfold tryReserve, ClientHttp.answered. cbn [reply elapsed].
  rewrite reserve_alone.
  change (accepts_json (ClientHttp.newRequest req)) with true. cbn [negb].
  change (request_body (ClientHttp.newRequest req)) with (ClientHttp.marshal req).
  split.
  - destruct (json_decode _) as [e|rq]; [simpl; discriminate|].
    destruct (f CBegin); [simpl; discriminate|]. cbv zeta.
    destruct (f (CSelectForUpdate _)); [simpl; discriminate|].
    destruct (find_row _ t) as [row|]; [|simpl; discriminate].
    destruct (negb _); [simpl; discriminate|].
    destruct (f (CUpdate _ _)); [simpl; discriminate|].
    destruct (f CCommit); simpl; discriminate.
  - intros ->. split; [|split; reflexivity].
    destruct (f CBegin); [simpl; auto|]. cbv zeta.
    destruct (f (CSelectForUpdate _)); [simpl; auto|].
    destruct (find_row _ t) as [row|]; [|simpl; auto].
    destruct (negb _); [simpl; auto|].
    destruct (f (CUpdate _ _)); [simpl; auto|].
    destruct (f CCommit); simpl; auto.
Qed.

Lemma available_ids_nil t :
  available_ids t = [] <-> forall row, In row t -> status row <> "available".
Proof.
  unfold available_ids. split.
  - intros Hnil row Hin Hst.
    assert (In (seat_id row)
              (List.map seat_id
                 (List.filter (fun r => bool_decide (status r = "available")) t))) as Hid.
    { apply in_map, filter_In. split; [exact Hin|]. apply bool_decide_eq_true. exact Hst. }
    apply list_elem_of_In in Hid. rewrite <- merge_sort_Permutation, Hnil in Hid.
    inversion Hid.
  - intros Hall.
    assert (List.filter (fun r => bool_decide (status r = "available")) t = []) as ->.
    { induction t as [|x t IH]; simpl; [reflexivity|].
      destruct (bool_decide (status x = "available")) eqn:E.
      - apply bool_decide_eq_true in E. exfalso. exact (Hall x (or_introl eq_refl) E).
      - apply IH. intros row Hin. apply Hall. right. exact Hin. }
    reflexivity.
Qed.

Lemma take_nil_iff {A} (n : nat) (l : list A) : take (S n) l = [] <-> l = [].
Proof. destruct l; simpl; split; intros H; try reflexivity; discriminate. Qed.

Lemma sold_out_fetch (f : Faults) (t : list SeatRow) :
  f (CSelectAvailable (Some 100%nat)) = None ->
  (forall row, In row t -> status row <> "available") ->
  ClientHttp.fetchAvailableSeats decode_text
    (Some (fst (serve f Server.availableSeatsHandler t))) = Some [].
Proof.
  intros Hf Hnone. rewrite (serve_availableSeats f t Hf). cbn [fst].
  apply available_ids_nil in Hnone. rewrite Hnone. reflexivity.
Qed.

(** X18. What the client's [fetchAvailableSeats] makes of the server's
    listing.  When the query succeeds it returns the ids of the available
    seats, ascending, the first 100 of them from the server of
    ticketing-be/main.go and all of them from the logging variant; the
    [null] the server writes when no seat is available reads as an empty
    list, so the fetch returns the empty list, which is what ends the
    client's loop, exactly when no row is available.  When the query fails
    the body is the plain text of the 500 and the fetch returns whatever the
    JSON decoder makes of that text. *)
Theorem fetch_reads_listing (f : Faults) (t : list SeatRow) :
  let seen := ClientHttp.fetchAvailableSeats decode_text
                 (Some (fst (serve f Server.availableSeatsHandler t))) in
  let seen_logging := ClientHttp.fetchAvailableSeats decode_text
                 (Some (fst (serve f LoggingServer.availableSeatsHandler t))) in
  (f (CSelectAvailable (Some 100%nat)) = None ->
     seen = Some (take 100 (available_ids t)) /\
     (seen = Some [] <-> forall row, In row t -> status row <> "available")) /\
  (f (CSelectAvailable None) = None ->
     seen_logging = Some (available_ids t) /\
     (seen_logging = Some [] <-> forall row, In row t -> status row <> "available")) /\
  (forall e, f (CSelectAvailable (Some 100%nat)) = Some e ->
     seen = decode_text "internal server error") /\
  (forall e, f (CSelectAvailable None) = Some e ->
     seen_logging = decode_text "internal server error").
Proof.
  cbv zeta. split; [|split; [|split]].
  - intros Hf. rewrite (serve_availableSeats f t Hf). cbn [fst].
    assert (ClientHttp.fetchAvailableSeats decode_text
              (Some (json_OK match take 100 (available_ids t) with
                             | [] => JNull
                             | ids => JInts ids
                             end)) = Some (take 100 (available_ids t))) as ->.
    { destruct (take 100 (available_ids t)); reflexivity. }
    split; [reflexivity|]. rewrite <- available_ids_nil. split.
    + intros H. injection H as H. apply take_nil_iff in H. exact H.
    + intros ->. reflexivity.
  - intros Hf. rewrite (serve_availableSeats_logging f t Hf).
    assert (ClientHttp.fetchAvailableSeats decode_text
              (Some (json_OK match available_ids t with
                             | [] => JNull
                             | ids => JInts ids
                             end)) = Some (available_ids t)) as ->.
    { destruct (available_ids t); reflexivity. }
    split; [reflexivity|]. rewrite <- available_ids_nil. split; congruence.
  - intros e Hf. unfold serve, Server.availableSeatsHandler. simpl. rewrite Hf. reflexivity.
  - intros e Hf. unfold serve, LoggingServer.availableSeatsHandler, LoggingServer.logJSON.
    simpl. rewrite Hf. reflexivity.
Qed.

(** X19. A client that finds the pool sold out at its first listing posts
    nothing and sends exactly one result, the synthetic
    "no request succeeded" with status 0 and duration 0; [main] counts it as
    one request failure although no request of that client failed. *)
Theorem sold_out_client_reports_failure (f : Faults) (t : list SeatRow) (uid : Z)
    (sh : list Z -> list Z) (reservation : ReserveRequest -> Response * Z)
    (rest : list Round) :
  f (CSelectAvailable (Some 100%nat)) = None ->
  (forall row, In row t -> status row <> "available") ->
  let listing := fst (serve f Server.availableSeatsHandler t) in
  let rounds := ClientHttp.round_of decode_text (Some listing) sh reservation :: rest in
  all_attempts uid rounds = [] /\
  simulateClient uid rounds = Some [no_request_succeeded uid] /\
  forall out, simulateClient uid rounds = Some out ->
    requestFailCount (aggregate [out]) = 1 /\
    successCount (aggregate [out]) = 0 /\ failCount (aggregate [out]) = 0.
Proof.
  intros Hf Hnone. cbv zeta.
  pose proof (sold_out_fetch f t Hf Hnone) as Hfetch.
  unfold simulateClient, ClientHttp.round_of. cbn [all_attempts client_loop fetchAvailableSeats].
  rewrite Hfetch. cbn. split; [reflexivity|]. split; [reflexivity|].
  intros out Hout. injection Hout as <-. repeat split.
Qed.

End OnTheWire.

End ClientServerFacts.

(** * More on the race for one seat *)

Lemma exec_app f (s1 s2 : list nat) (w : World) :
  exec f (s1 ++ s2) w =
  match exec f s1 w with
  | Some w1 => exec f s2 w1
  | None => None
  end.
Proof.
  revert w. induction s1 as [|i s1 IH]; intros w; simpl; [reflexivity|].
  destruct (step f i w); [apply IH|reflexivity].
Qed.

Section RaceFrame.

Variable seat : Z.
Variable users : list Z.
Variable f : nat -> Faults.

Ltac reduce_move H :=
  unfold thread_step, scan_status, at_stage, continue_with,
    on_begin, on_select, on_update, on_commit in H;
  cbn [prog ttx tdeferred apply_writes fold_left app] in H.

Lemma release_keeps_free me (lks : gmap Z nat) k :
  lks !! k = None -> release me lks !! k = None.
Proof.
  intros H. destruct (release me lks !! k) as [j|] eqn:E; [|reflexivity].
  apply release_lookup in E as [E _]. congruence.
Qed.

(** What one move of one handler does to the rows and to the locks: the
    rows change only when a handler that has written its update commits,
    and then by that update; no lock is taken on another row. *)
Lemma race_step_frame (ss : list Stage) (w w' : World) i :
  race_inv seat users ss w ->
  step f i w = Some w' ->
  (rows w' = rows w \/
   (ss !! i = Some Updated /\
    exists u, users !! i = Some u /\ rows w' = sql_update_reserve u seat (rows w))) /\
  (forall k, k <> seat -> locks w !! k = None -> locks w' !! k = None).
Proof.
  intros Hinv Hstep. unfold step in Hstep.
  destruct (threads w !! i) as [th|] eqn:Hti; [|discriminate].
  destruct (stage_of_thread _ _ _ _ _ _ Hinv Hti) as (u & s & Hu & Hs & ->).
  destruct s; reduce_move Hstep;
    repeat match type of Hstep with
           | context [f i ?c] => destruct (f i c)
           | context [find_row ?a ?b] => destruct (find_row a b)
           | context [lock_free_for ?a ?b ?c] => destruct (lock_free_for a b c)
           | context [negb ?b] => destruct (negb b)
           end;
    try discriminate Hstep;
    injection Hstep as <-; cbn [rows locks];
    (split; [first [left; reflexivity | right; split; [exact Hs|]; exists u; split; [exact Hu|]; reflexivity]|]);
    intros k Hk Hfree;
    rewrite ?lookup_insert_ne by congruence;
    first [exact Hfree | apply release_keeps_free; exact Hfree].
Qed.


(** A whole schedule: the table is the one the race started on, or that
    table with the seat reserved for one of the users; only the row of the
    seat is ever locked. *)
Lemma race_exec_frame (t : list SeatRow) (row0 : SeatRow) (sched : list nat)
    (ss : list Stage) (w w' : World) :
  find_row seat t = Some row0 ->
  race_inv seat users ss w ->
  (rows w = t \/ exists u, In u users /\ rows w = sql_update_reserve u seat t) ->
  (forall k, k <> seat -> locks w !! k = None) ->
  exec f sched w = Some w' ->
  (rows w' = t \/ exists u, In u users /\ rows w' = sql_update_reserve u seat t) /\
  (forall k, k <> seat -> locks w' !! k = None).
Proof.
  intros Hrow0. revert ss w.
  induction sched as [|i sched IH]; intros ss w Hinv Hrows Hlocks Hex; simpl in Hex.
  - injection Hex as <-. auto.
  - destruct (step f i w) as [w1|] eqn:Hstep; [|discriminate].
    destruct (race_step _ _ _ _ _ _ _ Hinv Hstep) as (s & s' & Hs & _ & Hinv1 & _).
    destruct (race_step_frame _ _ _ _ Hinv Hstep) as [Hr Hl].
    apply (IH _ _ Hinv1); [| |exact Hex].
    + destruct Hr as [->|(Hup & u & Hu & ->)]; [exact Hrows|].
      destruct Hrows as [->|(u0 & _ & Hw)].
      * right. exists u. split; [|reflexivity].
        apply list_elem_of_In. eapply list_elem_of_lookup_2. exact Hu.
      * exfalso.
        destruct (inv_row _ _ _ _ Hinv)
          as [(row & Hfind & Hst & _)|(wn & uw & sw & _ & Hsw & Hwon & _ & Hall)].
        -- rewrite Hw, (find_row_update_same u0 seat t row0 Hrow0) in Hfind.
           injection Hfind as <-. discriminate Hst.
        -- destruct (decide (i = wn)) as [->|Hne].
           ++ rewrite Hup in Hsw. injection Hsw as <-. discriminate Hwon.
           ++ destruct (Hall _ _ Hne Hup) as [_ Hwr]. discriminate Hwr.
    + intros k Hk. apply Hl; auto.
Qed.

(** A move that commits an update is the commit of a handler that has
    written its update, and changes the table by that update; any other move
    leaves the table as it is. *)
Lemma race_step_commits (ss : list Stage) (w w' : World) i :
  race_inv seat users ss w ->
  step f i w = Some w' ->
  (commits_update f i w = true /\ ss !! i = Some Updated /\
   exists u, users !! i = Some u /\ rows w' = sql_update_reserve u seat (rows w)) \/
  (commits_update f i w = false /\ rows w' = rows w).
Proof.
  intros Hinv Hstep. unfold step in Hstep. unfold commits_update.
  destruct (threads w !! i) as [th|] eqn:Hti; [|discriminate].
  destruct (stage_of_thread _ _ _ _ _ _ Hinv Hti) as (u & s & Hu & Hs & ->).
  destruct s; reduce_move Hstep;
    unfold at_stage, on_begin, on_select, on_update, on_commit; cbn [prog ttx];
    repeat match type of Hstep with
           | context [f i ?c] => destruct (f i c)
           | context [find_row ?a ?b] => destruct (find_row a b)
           | context [lock_free_for ?a ?b ?c] => destruct (lock_free_for a b c)
           | context [negb ?b] => destruct (negb b)
           end;
    try discriminate Hstep;
    injection Hstep as <-; cbn [rows];
    first [ right; split; reflexivity
          | left; split; [reflexivity|]; split; [exact Hs|];
            exists u; split; [exact Hu|reflexivity] ].
Qed.

(** Once the seat is reserved no move commits an update any more. *)
Lemma race_no_second_update (t : list SeatRow) (row0 : SeatRow) (sched : list nat) :
  find_row seat t = Some row0 ->
  forall (ss : list Stage) (w w' : World),
  race_inv seat users ss w ->
  (exists u, rows w = sql_update_reserve u seat t) ->
  exec f sched w = Some w' ->
  committed_updates f sched w = 0%nat /\ rows w' = rows w.
Proof.
  intros Hrow0.
  induction sched as [|i sched IH]; intros ss w w' Hinv [u0 Hw] Hex; simpl in *.
  - injection Hex as <-. auto.
  - destruct (step f i w) as [w1|] eqn:Hstep; [|discriminate].
    destruct (race_step _ _ _ _ _ _ _ Hinv Hstep) as (s & s' & Hs & _ & Hinv1 & _).
    destruct (race_step_commits _ _ _ _ Hinv Hstep)
      as [(_ & Hup & _)|(-> & Hsame)].
    + exfalso.
      destruct (inv_row _ _ _ _ Hinv)
        as [(row & Hfind & Hst & _)|(wn & uw & sw & _ & Hsw & Hwon & _ & Hall)].
      * rewrite Hw, (find_row_update_same u0 seat t row0 Hrow0) in Hfind.
        injection Hfind as <-. discriminate Hst.
      * destruct (decide (i = wn)) as [->|Hne].
        -- rewrite Hup in Hsw. injection Hsw as <-. discriminate Hwon.
        -- destruct (Hall _ _ Hne Hup) as [_ Hwr]. discriminate Hwr.
    + destruct (IH _ _ _ Hinv1 ltac:(exists u0; congruence) Hex) as [-> Hr].
      split; [reflexivity|congruence].
Qed.

(** In a whole run at most one move commits an update: none, and the table
    is the one the race started on; or one, and the table is that one with
    the seat reserved for one of the users. *)
Lemma race_one_update (t : list SeatRow) (row0 : SeatRow) (sched : list nat) :
  find_row seat t = Some row0 ->
  forall (ss : list Stage) (w w' : World),
  race_inv seat users ss w ->
  rows w = t ->
  exec f sched w = Some w' ->
  (committed_updates f sched w = 0%nat /\ rows w' = t) \/
  (committed_updates f sched w = 1%nat /\
   exists u, In u users /\ rows w' = sql_update_reserve u seat t).
Proof.
  intros Hrow0.
  induction sched as [|i sched IH]; intros ss w w' Hinv Hw Hex; simpl in *.
  - injection Hex as <-. auto.
  - destruct (step f i w) as [w1|] eqn:Hstep; [|discriminate].
    destruct (race_step _ _ _ _ _ _ _ Hinv Hstep) as (s & s' & Hs & _ & Hinv1 & _).
    destruct (race_step_commits _ _ _ _ Hinv Hstep)
      as [(-> & _ & u & Hu & Hw1)|(-> & Hsame)].
    + right. rewrite Hw in Hw1.
      destruct (race_no_second_update t row0 sched Hrow0 _ _ _ Hinv1
                  ltac:(exists u; exact Hw1) Hex) as [-> Hr].
      split; [reflexivity|]. exists u. split; [|congruence].
      apply list_elem_of_In. eapply list_elem_of_lookup_2. exact Hu.
    + apply (IH _ _ _ Hinv1); [congruence|exact Hex].
Qed.

End RaceFrame.

Section RaceMore.

Variable json_decode : string -> DecodeResult.

(** X20. A race for one seat writes its row at most once and touches no
    other row.  Under every schedule and every pattern of database failures,
    at most one move of the run commits an update of the table: if none has,
    the table is the one the handlers started on; if one has, the table is
    that one with the seat reserved for one of the racing users.  No row is
    added or removed, and every other row stays as it was. *)
Theorem race_writes_one_row (f : nat -> Faults) (seat : Z) (users : list Z)
    (reqs : list Request) (t : list SeatRow) (row : SeatRow) (sched : list nat)
    (w' : World) :
  find_row seat t = Some row -> status row = "available" ->
  Forall2 (fun r u => accepts_json r = true /\
                      json_decode (request_body r) = Decoded (mkTicketRequest u seat))
          reqs users ->
  exec f sched
    (serve_concurrently t (List.map (Server.reserveHandler json_decode) reqs)) = Some w' ->
  let updates :=
    committed_updates f sched
      (serve_concurrently t (List.map (Server.reserveHandler json_decode) reqs)) in
  (updates <= 1)%nat /\
  (updates = 0%nat -> rows w' = t) /\
  (updates = 1%nat -> exists u, In u users /\ rows w' = sql_update_reserve u seat t) /\
  (rows w' = t \/ exists u, In u users /\ rows w' = sql_update_reserve u seat t) /\
  List.map seat_id (rows w') = List.map seat_id t /\
  (forall id, id <> seat -> find_row id (rows w') = find_row id t).
Proof.
  intros Hfind Hst Hreqs Hex. cbv zeta.
  pose proof (race_start json_decode seat users t row reqs Hfind Hst Hreqs) as Hinv.
  pose proof (race_one_update seat users f t row sched Hfind _ _ w' Hinv eq_refl Hex) as Hone.
  assert (rows w' = t \/ exists u, In u users /\ rows w' = sql_update_reserve u seat t) as Hrows.
  { destruct Hone as [[_ H]|[_ H]]; auto. }
  split; [destruct Hone as [[-> _]|[-> _]]; lia|].
  split; [intros H0; destruct Hone as [[_ H]|[H1 _]]; [exact H|congruence]|].
  split; [intros H1; destruct Hone as [[H0 _]|[_ H]]; [congruence|exact H]|].
  split; [exact Hrows|].
  destruct Hrows as [->|(u & _ & ->)]; [auto|].
  split; [apply update_seat_ids|]. intros id Hne. apply find_row_update_other. exact Hne.
Qed.

(** X21. A race for one seat cleans up after itself.  Under every schedule
    and every pattern of database failures, a run that has not ended can be
    continued until every handler has returned; and once all have returned
    no row lock is held, no deferred rollback is pending and no transaction
    is open. *)
Theorem race_cleans_up (f : nat -> Faults) (seat : Z) (users : list Z)
    (reqs : list Request) (t : list SeatRow) (row : SeatRow) (sched : list nat)
    (w' : World) :
  find_row seat t = Some row -> status row = "available" ->
  Forall2 (fun r u => accepts_json r = true /\
                      json_decode (request_body r) = Decoded (mkTicketRequest u seat))
          reqs users ->
  exec f sched
    (serve_concurrently t (List.map (Server.reserveHandler json_decode) reqs)) = Some w' ->
  (exists rest w'', exec f (sched ++ rest)
      (serve_concurrently t (List.map (Server.reserveHandler json_decode) reqs)) = Some w'' /\
      all_finished w'') /\
  (all_finished w' ->
     locks w' = ∅ /\
     Forall (fun th => tdeferred th = false /\ forall ws, ttx th <> TxOpen ws) (threads w')).
Proof.
  intros Hfind Hst Hreqs Hex.
  pose proof (race_start json_decode seat users t row reqs Hfind Hst Hreqs) as Hinv.
  destruct (race_exec_frame seat users f t row sched _ _ w' Hfind Hinv) as [_ Hlocks];
    [left; reflexivity|intros k _; apply lookup_empty|exact Hex|].
  destruct (race_exec _ _ _ _ _ _ _ Hinv Hex) as (ss' & Hinv' & _ & _).
  split.
  - destruct (race_completes seat users f ss' w' Hinv') as (rest & w'' & Hrest & Hfin).
    exists rest, w''. split; [|exact Hfin].
    rewrite exec_app, Hex. exact Hrest.
  - intros Hfin. split.
    + apply map_eq. intros k. rewrite lookup_empty.
      destruct (decide (k = seat)) as [->|Hne]; [|apply Hlocks; exact Hne].
      destruct (locks w' !! seat) as [h|] eqn:Hl; [|reflexivity]. exfalso.
      destruct (proj1 (inv_lock _ _ _ _ Hinv' h) Hl) as (s & Hs & Hh).
      destruct (inv_threads _ _ _ _ Hinv') as (Hl1 & _ & _).
      destruct (lookup_lt_is_Some_2 users h) as [u Hu].
      { rewrite <- Hl1. eapply lookup_lt_Some. exact Hs. }
      destruct (returned_stage _ _ _ _ _ _ _ Hinv' Hfin Hu Hs) as [Hr _].
      destruct s; discriminate.
    + apply Forall_lookup. intros i th Hti.
      destruct (stage_of_thread _ _ _ _ _ _ Hinv' Hti) as (u & s & Hu & Hs & ->).
      destruct (returned_stage _ _ _ _ _ _ _ Hinv' Hfin Hu Hs) as [Hr _].
      destruct s; try discriminate Hr; simpl; split; try reflexivity; intros ws; discriminate.
Qed.

End RaceMore.

(** * One client alone with the server *)

Lemma available_ids_NoDup t : primary_key t -> NoDup (available_ids t).
Proof.
  intros Hpk. unfold available_ids. rewrite merge_sort_Permutation.
  apply NoDup_map_filter. exact Hpk.
Qed.

(** Reserving an available seat takes it, and only it, off the listing. *)
Lemma available_ids_update u s1 t :
  primary_key t -> In s1 (available_ids t) ->
  (forall s, In s (available_ids (sql_update_reserve u s1 t)) <->
             In s (available_ids t) /\ s <> s1) /\
  length (available_ids t) = S (length (available_ids (sql_update_reserve u s1 t))).
Proof.
  intros Hpk Hin.
  pose proof (update_primary_key u s1 t Hpk) as Hpk'.
  assert (forall s, In s (available_ids (sql_update_reserve u s1 t)) <->
                    In s (available_ids t) /\ s <> s1) as Hmem.
  { intros s. rewrite !available_ids_In by assumption.
    apply available_ids_In in Hin as (row1 & Hrow1 & _); [|exact Hpk].
    destruct (decide (s = s1)) as [->|Hne].
    - rewrite (find_row_update_same u s1 t row1 Hrow1). split.
      + intros (row & [= <-] & Hst). discriminate Hst.
      + intros [_ H]. contradiction.
    - rewrite (find_row_update_other u s1 s t Hne). tauto. }
  split; [exact Hmem|].
  assert (available_ids t ≡ₚ s1 :: available_ids (sql_update_reserve u s1 t)) as Hp.
  { apply NoDup_Permutation.
    - apply available_ids_NoDup. exact Hpk.
    - apply NoDup_cons. split; [|apply available_ids_NoDup; exact Hpk'].
      rewrite list_elem_of_In, Hmem. tauto.
    - intros s. rewrite elem_of_cons, !list_elem_of_In, Hmem.
      destruct (decide (s = s1)) as [->|Hne]; tauto. }
  rewrite Hp. reflexivity.
Qed.

Section SoloFacts.

Variable json_decode : string -> DecodeResult.
Variable decode_text : string -> option Client.SeatList.
Variable f : Faults.
Variable rtt : Z.
Variable userID : Z.

Hypothesis no_failure : forall c, f c = None.
Hypothesis measured : rtt <> 0.

Lemma solo_tryReserve_available (s : Z) (t : list SeatRow) :
  primary_key t -> In s (available_ids t) ->
  json_decode (ticket_json userID s) = Decoded (mkTicketRequest userID s) ->
  Solo.tryReserve json_decode f rtt userID s t =
  (Client.mkResult 200 rtt None, sql_update_reserve userID s t).
Proof.
  intros Hpk Hin Hdec. apply available_ids_In in Hin as (row & Hrow & Hst); [|exact Hpk].
  unfold Solo.tryReserve, serve. cbv zeta. rewrite reserve_alone.
  change (accepts_json _) with true. cbn [negb].
  change (request_body _) with (ticket_json userID s).
  rewrite Hdec, !no_failure. cbv zeta. rewrite ?no_failure. cbn [SeatID UserID].
  rewrite Hrow, Hst. reflexivity.
Qed.

Lemma solo_fetch (t : list SeatRow) :
  ClientHttp.fetchAvailableSeats decode_text
    (Some (fst (serve f Server.availableSeatsHandler t))) = Some (take 100 (available_ids t)).
Proof.
  rewrite (serve_availableSeats f t (no_failure _)). cbn [fst].
  destruct (take 100 (available_ids t)); reflexivity.
Qed.

(** The loop of a client that is alone: one seat is bought in each round. *)
Lemma solo_client_loop (n : nat) :
  forall (t : list SeatRow) (cur : list Client.Result) (shuffles : list (list Z -> list Z)),
  length (available_ids t) = n -> (n < length shuffles)%nat ->
  primary_key t ->
  (forall s, In s (available_ids t) ->
     json_decode (ticket_json userID s) = Decoded (mkTicketRequest userID s)) ->
  Forall (fun sh => forall l, Permutation (sh l) l) shuffles ->
  exists new t',
    Solo.client_loop json_decode decode_text f rtt userID shuffles t cur =
      Some (cur ++ new, t') /\
    length new = n /\ Forall (fun r => r = Client.mkResult 200 rtt None) new /\
    available_ids t' = [] /\
    (forall s, In s (available_ids t) ->
       find_row s t' = Some (mkSeatRow s "reserved" (Some userID))) /\
    (forall s, ~ In s (available_ids t) -> find_row s t' = find_row s t).
Proof.
  induction n as [|n IH]; intros t cur shuffles Hn Hlen Hpk Hdec Hsh.
  - destruct shuffles as [|sh rest]; [simpl in Hlen; lia|].
    apply length_zero_iff_nil in Hn.
    exists [], t. cbn [Solo.client_loop]. rewrite solo_fetch, Hn. simpl.
    rewrite app_nil_r. repeat split; try reflexivity; try constructor; tauto.
  - destruct shuffles as [|sh rest]; [simpl in Hlen; lia|].
    apply Forall_cons in Hsh as [Hperm Hrest].
    cbn [Solo.client_loop]. rewrite solo_fetch.
    assert (exists y seats', take 100 (available_ids t) = y :: seats') as (y & seats' & Hseats).
    { destruct (available_ids t); [discriminate Hn|simpl; eauto]. }
    rewrite Hseats. cbn [length Nat.eqb].
    pose proof (Hperm (y :: seats')) as Hp.
    destruct (sh (y :: seats')) as [|s1 l'] eqn:Hsh1.
    { apply Permutation_nil in Hp. discriminate Hp. }
    assert (In s1 (available_ids t)) as Hs1.
    { apply list_elem_of_In.
      assert (s1 ∈ y :: seats') as Hy by (rewrite <- Hp; left).
      rewrite <- Hseats in Hy.
      apply list_elem_of_lookup in Hy as [i Hi].
      apply lookup_take_Some in Hi as [Hi _]. eapply list_elem_of_lookup_2. exact Hi. }
    cbn [take Solo.attempts].
    rewrite (solo_tryReserve_available s1 t Hpk Hs1 (Hdec s1 Hs1)).
    unfold Client.dropped. cbn [Client.Err Client.Duration Client.StatusCode].
    apply Z.eqb_neq in measured as Hm. rewrite Hm. cbn [Z.eqb Pos.eqb].
    destruct (available_ids_update userID s1 t Hpk Hs1) as [Hmem Hl].
    rewrite Hn in Hl.
    destruct (IH (sql_update_reserve userID s1 t) (cur ++ [Client.mkResult 200 rtt None]) rest)
      as (new & t' & Hloop & Hlnew & Hall & Hnil & Hres & Hoth).
    + lia.
    + simpl in Hlen. lia.
    + apply update_primary_key. exact Hpk.
    + intros s Hs. apply Hdec. apply Hmem in Hs as [Hs _]. exact Hs.
    + exact Hrest.
    + exists (Client.mkResult 200 rtt None :: new), t'.
      split; [rewrite Hloop, <- app_assoc; reflexivity|].
      split; [simpl; lia|]. split; [constructor; [reflexivity|exact Hall]|].
      split; [exact Hnil|].
      apply available_ids_In in Hs1 as Hrow1; [|exact Hpk].
      destruct Hrow1 as (row1 & Hrow1 & _). split.
      * intros s Hs. destruct (decide (s = s1)) as [->|Hne1].
        -- rewrite Hoth; [apply (find_row_update_same userID s1 t row1 Hrow1)|].
           rewrite Hmem. tauto.
        -- apply Hres. apply Hmem. auto.
      * intros s Hs. rewrite Hoth; [|rewrite Hmem; tauto].
        apply find_row_update_other. intros ->. contradiction.
Qed.

(** X22. A client that is alone with the server buys every seat.  When
    no database call fails, the server decodes the client's bodies, the
    measured times are not zero and the shuffles are permutations, the
    client's loop ends after one round for each available seat and one more:
    it has recorded one 200 for each seat that was available, and nothing
    else, or the one synthetic failure if none was; no seat is available
    afterwards, every seat that was is reserved for the client's user, and
    every other row is as it was. *)
Theorem solo_client_buys_every_seat (shuffles : list (list Z -> list Z))
    (t : list SeatRow) :
  primary_key t ->
  (forall s, In s (available_ids t) ->
     json_decode (ticket_json userID s) = Decoded (mkTicketRequest userID s)) ->
  Forall (fun sh => forall l, Permutation (sh l) l) shuffles ->
  (length (available_ids t) < length shuffles)%nat ->
  exists results t',
    Solo.simulateClient json_decode decode_text f rtt userID shuffles t =
      Some (results, t') /\
    (available_ids t = [] -> results = [Client.no_request_succeeded userID]) /\
    (available_ids t <> [] ->
       length results = length (available_ids t) /\
       Forall (fun r => r = Client.mkResult 200 rtt None) results) /\
    available_ids t' = [] /\
    (forall s, In s (available_ids t) ->
       find_row s t' = Some (mkSeatRow s "reserved" (Some userID))) /\
    (forall s, ~ In s (available_ids t) -> find_row s t' = find_row s t).
Proof.
  intros Hpk Hdec Hsh Hlen.
  destruct (solo_client_loop (length (available_ids t)) t [] shuffles eq_refl Hlen Hpk Hdec Hsh)
    as (new & t' & Hloop & Hlnew & Hall & Hnil & Hres & Hoth).
  unfold Solo.simulateClient. rewrite Hloop. cbn [app].
  destruct new as [|r new].
  - exists [Client.no_request_succeeded userID], t'. split; [reflexivity|].
    split; [reflexivity|]. split; [|auto].
    intros Hne. destruct (available_ids t); [contradiction|discriminate Hlnew].
  - exists (r :: new), t'. split; [reflexivity|].
    split; [intros H0; rewrite H0 in Hlnew; discriminate Hlnew|]. auto.
Qed.

End SoloFacts.

(** * The listing after a reservation *)







Section ListingAfter.

Variable json_decode : string -> DecodeResult.


End ListingAfter.

(** * The further properties at sample inputs *)

Lemma two_seats_primary_key : primary_key two_seats.
Proof.
  unfold primary_key, two_seats. simpl. apply NoDup_cons. split.
  - intros H. apply list_elem_of_singleton in H. discriminate H.
  - apply NoDup_singleton.
Qed.

Lemma second_reservation_refused_witness :
  let t1 := snd (serve no_faults
                   (Server.reserveHandler sample_decode (post_reserve 1 42)) two_seats) in
  let t2 := apply_ops sample_decode [OpListAvailable no_faults; OpInitSeats no_faults 50] t1 in
  let out := serve no_faults (Server.reserveHandler sample_decode (post_reserve 2 42)) t2 in
  In (code (fst out)) [409; 415; 500] /\
  find_row 42 (snd out) = Some (mkSeatRow 42 "reserved" (Some 1)).
Proof.
  apply (second_reservation_refused sample_decode no_faults no_faults
           (post_reserve 1 42) (post_reserve 2 42)
           (mkTicketRequest 1 42) (mkTicketRequest 2 42)
           [OpListAvailable no_faults; OpInitSeats no_faults 50] two_seats).
  - vm_compute. reflexivity.
  - vm_compute. reflexivity.
  - reflexivity.
  - vm_compute. reflexivity.
Defined.

Lemma reservations_commute_witness :
  let h1 := Server.reserveHandler sample_decode (post_reserve 1 42) in
  let h2 := Server.reserveHandler sample_decode (post_reserve 2 5) in
  fst (serve no_faults h1 two_seats) =
    fst (serve no_faults h1 (snd (serve no_faults h2 two_seats))) /\
  fst (serve no_faults h2 two_seats) =
    fst (serve no_faults h2 (snd (serve no_faults h1 two_seats))) /\
  snd (serve no_faults h2 (snd (serve no_faults h1 two_seats))) =
    snd (serve no_faults h1 (snd (serve no_faults h2 two_seats))).
Proof.
  apply (reservations_commute sample_decode no_faults no_faults
           (post_reserve 1 42) (post_reserve 2 5)
           (mkTicketRequest 1 42) (mkTicketRequest 2 5) two_seats).
  - vm_compute. reflexivity.
  - vm_compute. reflexivity.
  - discriminate.
Defined.


(** The listings of that example: seat 42 leaves the listing, seat 5
    stays. *)
Example two_seats_listing_example :
  listed (fst (serve no_faults Server.availableSeatsHandler two_seats)) = [5; 42] /\
  listed (fst (serve no_faults Server.availableSeatsHandler
                 (snd (serve no_faults
                         (Server.reserveHandler sample_decode (post_reserve 1 42))
                         two_seats)))) = [5].
Proof. split; vm_compute; reflexivity. Qed.

Lemma availableSeatsHandlers_agree_witness :
  fst (serve no_faults LoggingServer.availableSeatsHandler two_seats) =
    json_OK (match available_ids two_seats with [] => JNull | ids => JInts ids end) /\
  (fst (serve no_faults Server.availableSeatsHandler two_seats) =
     fst (serve no_faults LoggingServer.availableSeatsHandler two_seats)
   <-> (length (available_ids two_seats) <= 100)%nat).
Proof.
  apply (availableSeatsHandlers_agree no_faults two_seats); reflexivity.
Defined.

Lemma initSeats_rows_created_witness :
  let t' := snd (serve no_faults (Server.initSeats 3) [mkSeatRow 2 "reserved" (Some 7)]) in
  (forall id, In id (List.map seat_id t') <->
              In id (List.map seat_id [mkSeatRow 2 "reserved" (Some 7)]) \/
              (1 <= id <= 3 /\ no_faults (CInsertIgnore id) = None)) /\
  ([mkSeatRow 2 "reserved" (Some 7)] = [] ->
   t' = List.map (fun i => mkSeatRow i "available" None)
          (List.filter (fun i => bool_decide (no_faults (CInsertIgnore i) = None)) (seqZ 1 3))).
Proof.
  apply (initSeats_rows_created no_faults 3 [mkSeatRow 2 "reserved" (Some 7)]).
  reflexivity.
Defined.

Lemma log_line_determines_entry_witness :
  "2026-01-01T00:00:00Z" = "2026-01-01T00:00:00Z" /\
  Level (mkLogEntry "INFO" "reserve" 1 42 "success" None) =
    Level (mkLogEntry "INFO" "reserve" 1 42 "success" (Some EmptyString)) /\
  Action (mkLogEntry "INFO" "reserve" 1 42 "success" None) =
    Action (mkLogEntry "INFO" "reserve" 1 42 "success" (Some EmptyString)) /\
  LogUserID (mkLogEntry "INFO" "reserve" 1 42 "success" None) =
    LogUserID (mkLogEntry "INFO" "reserve" 1 42 "success" (Some EmptyString)) /\
  LogSeatID (mkLogEntry "INFO" "reserve" 1 42 "success" None) =
    LogSeatID (mkLogEntry "INFO" "reserve" 1 42 "success" (Some EmptyString)) /\
  LogStatus (mkLogEntry "INFO" "reserve" 1 42 "success" None) =
    LogStatus (mkLogEntry "INFO" "reserve" 1 42 "success" (Some EmptyString)) /\
  error_text (LogError (mkLogEntry "INFO" "reserve" 1 42 "success" None)) =
    error_text (LogError (mkLogEntry "INFO" "reserve" 1 42 "success" (Some EmptyString))).
Proof.
  apply (log_line_determines_entry "2026-01-01T00:00:00Z" "2026-01-01T00:00:00Z"
           (mkLogEntry "INFO" "reserve" 1 42 "success" None)
           (mkLogEntry "INFO" "reserve" 1 42 "success" (Some EmptyString))).
  reflexivity.
Defined.

Lemma aggregate_any_arrival_order_witness :
  let a := [Client.mkResult 200 10 None; Client.mkResult 409 30 None] in
  let b := [Client.no_request_succeeded 1001] in
  let st := Client.aggregate [a; b] in
  let st' := Client.aggregate [b; a] in
  Client.requestFailCount st = Client.requestFailCount st' /\
  Client.successCount st = Client.successCount st' /\
  Client.successTotalRTT st = Client.successTotalRTT st' /\
  Client.failCount st = Client.failCount st' /\
  Client.failTotalRTT st = Client.failTotalRTT st' /\
  Permutation (Client.allResults st) (Client.allResults st').
Proof.
  apply (ClientServerFacts.aggregate_any_arrival_order
           [[Client.mkResult 200 10 None; Client.mkResult 409 30 None];
            [Client.no_request_succeeded 1001]]
           [[Client.no_request_succeeded 1001];
            [Client.mkResult 200 10 None; Client.mkResult 409 30 None]]).
  apply perm_swap.
Defined.

Lemma sold_out_client_reports_failure_witness :
  let listing := fst (serve no_faults Server.availableSeatsHandler
                        [mkSeatRow 42 "reserved" (Some 1)]) in
  let rounds := ClientHttp.round_of (fun _ => None) (Some listing) (fun l => l)
                  (fun _ => (internal_server_error, 5)) :: [] in
  Client.all_attempts 1001 rounds = [] /\
  Client.simulateClient 1001 rounds = Some [Client.no_request_succeeded 1001] /\
  forall out, Client.simulateClient 1001 rounds = Some out ->
    Client.requestFailCount (Client.aggregate [out]) = 1 /\
    Client.successCount (Client.aggregate [out]) = 0 /\
    Client.failCount (Client.aggregate [out]) = 0.
Proof.
  apply (ClientServerFacts.sold_out_client_reports_failure (fun _ => None) no_faults
           [mkSeatRow 42 "reserved" (Some 1)] 1001 (fun l => l)
           (fun _ => (internal_server_error, 5)) []).
  - reflexivity.
  - intros row [<-|[]]. discriminate.
Defined.

Lemma race_writes_one_row_witness :
  exists w',
    exec (fun _ => no_faults) [0; 1; 0; 1; 0; 0; 0; 1; 0; 1]%nat
      (serve_concurrently two_seats
         (List.map (Server.reserveHandler sample_decode)
            [post_reserve 1 42; post_reserve 2 42])) = Some w' /\
    let updates :=
      committed_updates (fun _ => no_faults) [0; 1; 0; 1; 0; 0; 0; 1; 0; 1]%nat
        (serve_concurrently two_seats
           (List.map (Server.reserveHandler sample_decode)
              [post_reserve 1 42; post_reserve 2 42])) in
    (updates <= 1)%nat /\
    (updates = 0%nat -> rows w' = two_seats) /\
    (updates = 1%nat ->
       exists u, In u [1; 2] /\ rows w' = sql_update_reserve u 42 two_seats) /\
    (rows w' = two_seats \/
     exists u, In u [1; 2] /\ rows w' = sql_update_reserve u 42 two_seats) /\
    List.map seat_id (rows w') = List.map seat_id two_seats /\
    (forall id, id <> 42 -> find_row id (rows w') = find_row id two_seats).
Proof.
  eexists. split; [vm_compute; reflexivity|].
  eapply (race_writes_one_row sample_decode (fun _ => no_faults) 42 [1; 2]
            [post_reserve 1 42; post_reserve 2 42]
            two_seats (mkSeatRow 42 "available" None)
            [0; 1; 0; 1; 0; 0; 0; 1; 0; 1]%nat).
  - reflexivity.
  - reflexivity.
  - constructor; [split; vm_compute; reflexivity|].
    constructor; [split; vm_compute; reflexivity|]. constructor.
  - vm_compute. reflexivity.
Defined.

(** In that run exactly one move commits an update, the commit of the
    first user. *)
Example race_commits_once :
  committed_updates (fun _ => no_faults) [0; 1; 0; 1; 0; 0; 0; 1; 0; 1]%nat
    (serve_concurrently two_seats
       (List.map (Server.reserveHandler sample_decode)
          [post_reserve 1 42; post_reserve 2 42])) = 1%nat.
Proof. vm_compute. reflexivity. Qed.

Lemma race_cleans_up_witness :
  exists w',
    exec (fun _ => no_faults) [0; 1; 0; 1; 0; 0]%nat
      (serve_concurrently two_seats
         (List.map (Server.reserveHandler sample_decode)
            [post_reserve 1 42; post_reserve 2 42])) = Some w' /\
    (exists rest w'', exec (fun _ => no_faults) ([0; 1; 0; 1; 0; 0]%nat ++ rest)
        (serve_concurrently two_seats
           (List.map (Server.reserveHandler sample_decode)
              [post_reserve 1 42; post_reserve 2 42])) = Some w'' /\
        all_finished w'') /\
    (all_finished w' ->
       locks w' = ∅ /\
       Forall (fun th => tdeferred th = false /\ forall ws, ttx th <> TxOpen ws) (threads w')).
Proof.
  eexists. split; [vm_compute; reflexivity|].
  eapply (race_cleans_up sample_decode (fun _ => no_faults) 42 [1; 2]
            [post_reserve 1 42; post_reserve 2 42]
            two_seats (mkSeatRow 42 "available" None)
            [0; 1; 0; 1; 0; 0]%nat).
  - reflexivity.
  - reflexivity.
  - constructor; [split; vm_compute; reflexivity|].
    constructor; [split; vm_compute; reflexivity|]. constructor.
  - vm_compute. reflexivity.
Defined.

Lemma solo_client_buys_every_seat_witness :
  exists results t',
    Solo.simulateClient sample_decode (fun _ => None) no_faults 7 1
      [(fun l => l); @rev Z; (fun l => l)] two_seats = Some (results, t') /\
    (available_ids two_seats = [] -> results = [Client.no_request_succeeded 1]) /\
    (available_ids two_seats <> [] ->
       length results = length (available_ids two_seats) /\
       Forall (fun r => r = Client.mkResult 200 7 None) results) /\
    available_ids t' = [] /\
    (forall s, In s (available_ids two_seats) ->
       find_row s t' = Some (mkSeatRow s "reserved" (Some 1))) /\
    (forall s, ~ In s (available_ids two_seats) -> find_row s t' = find_row s two_seats).
Proof.
  apply (solo_client_buys_every_seat sample_decode (fun _ => None) no_faults 7 1
           (fun _ => eq_refl) ltac:(discriminate)
           [(fun l => l); @rev Z; (fun l => l)] two_seats).
  - exact two_seats_primary_key.
  - intros s Hs. vm_compute in Hs. destruct Hs as [<-|[<-|[]]]; vm_compute; reflexivity.
  - constructor; [intros l; reflexivity|].
    constructor; [intros l; symmetry; apply Permutation_rev|].
    constructor; [intros l; reflexivity|]. constructor.
  - vm_compute. lia.
Defined.
